(** * Influencer ROI dashboard: [app.py] and [notebooks/generate_data.py]

    A shallow embedding of the three KPI functions of [src/app.py]
    ([calculate_roas], [calculate_iroas], [get_top_influencers]) together
    with the pandas operations they are written with (boolean-mask
    selection, [groupby(...).agg(...)], [merge], [mean], [sort_values],
    [head]); of the module-level script of [app.py] that filters the
    tables and builds the chart data and the per-influencer iROAS table,
    with [highlight_cells]; and of the table builders of
    [src/notebooks/generate_data.py], their random draws taken as
    parameters.

    Numbers.  Input columns hold exact rationals ([Q]) or integers ([Z]).
    Derived float64 columns are modelled by [fval]: an exact rational, one
    of the two infinities, or NaN, which is also pandas' marker for a
    missing value.  Rounding and signed zeros are not modelled.  The KPI
    functions are first written over exact sums, products and quotients;
    their results are those of the program as long as every int64 sum
    stays within 64 bits and every float64 result within the float64
    range.  What happens beyond is modelled separately, where a property
    depends on it: [calculate_roas_numpy] sums and divides as numpy does,
    with int64 wrap-around and float64 overflow to an infinity.

    Errors.  The functions over lists are total.  The exception that is
    modelled is the [ValueError] of a merge whose two tables are both
    empty, one with an [object] key column and the other with a float64
    one; [calculate_iroas_checked] adds it to [calculate_iroas].

    Sorting.  [sort_values_revenue_desc] keeps rows of equal revenue in
    table order; pandas' default quicksort need not, so what the ranker
    may return is given as a relation, [top_influencers_result], of which
    [get_top_influencers] is one instance. *)

From Stdlib Require Import List ZArith QArith Qabs Qround String Bool Lia.
From Stdlib Require Import Permutation Sorted.
From Stdlib Require Import DecimalString.
Import ListNotations.

Local Open Scope Z_scope.
Local Open Scope Q_scope.
Local Open Scope string_scope.
Local Open Scope list_scope.

(** ** Float cells *)

Module Float.

Inductive fval : Type :=
| Num (q : Q)
| PInf
| NInf
| NaN.

Definition isnan (x : fval) : bool :=
  match x with NaN => true | _ => false end.

Definition notna (x : fval) : bool := negb (isnan x).

Definition is_finite (x : fval) : bool :=
  match x with Num _ => true | _ => false end.

Definition is_zero (q : Q) : bool := Qeq_bool q 0.

Definition is_neg (q : Q) : bool :=
  match Qcompare q 0 with Lt => true | _ => false end.

Definition fneg (x : fval) : fval :=
  match x with
  | Num q => Num (- q)
  | PInf => NInf
  | NInf => PInf
  | NaN => NaN
  end.

Definition fadd (x y : fval) : fval :=
  match x, y with
  | NaN, _ | _, NaN => NaN
  | Num a, Num b => Num (a + b)
  | PInf, NInf | NInf, PInf => NaN
  | PInf, _ | _, PInf => PInf
  | NInf, _ | _, NInf => NInf
  end.

Definition fsub (x y : fval) : fval := fadd x (fneg y).

(** An infinity of the sign of [q] times [pos]; NaN when [q] is zero. *)
Definition signed_inf (pos : bool) (q : Q) : fval :=
  if is_zero q then NaN
  else if Bool.eqb pos (is_neg q) then NInf else PInf.

Definition fmul (x y : fval) : fval :=
  match x, y with
  | NaN, _ | _, NaN => NaN
  | Num a, Num b => Num (a * b)
  | PInf, Num b => signed_inf true b
  | NInf, Num b => signed_inf false b
  | Num a, PInf => signed_inf true a
  | Num a, NInf => signed_inf false a
  | PInf, PInf | NInf, NInf => PInf
  | PInf, NInf | NInf, PInf => NInf
  end.

(** Division never raises in numpy: a zero divisor gives an infinity, or
    NaN for [0 / 0].  The quotient of two numbers is exact here; [fdiv64]
    below adds the overflow of float64. *)
Definition fdiv (x y : fval) : fval :=
  match x, y with
  | NaN, _ | _, NaN => NaN
  | Num a, Num b =>
      if is_zero b then signed_inf true a else Num (a / b)
  | Num _, PInf | Num _, NInf => Num 0
  | PInf, Num b => if is_neg b then NInf else PInf
  | NInf, Num b => if is_neg b then PInf else NInf
  | _, _ => NaN
  end.

Definition of_Z (z : Z) : fval := Num (inject_Z z).
Definition of_nat (n : nat) : fval := Num (inject_Z (Z.of_nat n)).

Definition fsum (l : list fval) : fval := fold_left fadd l (Num 0).

(** [Series.mean()] with its default [skipna=True]: missing cells are left
    out of both the sum and the count; with nothing left the mean is NaN. *)
Definition mean (l : list fval) : fval :=
  let vals := filter notna l in
  match vals with
  | [] => NaN
  | _ :: _ => fdiv (fsum vals) (of_nat (List.length vals))
  end.

End Float.

Import Float.

(** ** Sums of input columns *)

Definition sumQ (l : list Q) : Q := fold_left Qplus l 0.
Definition sumZ (l : list Z) : Z := fold_left Z.add l 0%Z.

(** [Series.nunique()]: the number of distinct values. *)
Definition nunique (l : list Z) : nat := List.length (nodup Z.eq_dec l).

(** ** numpy arithmetic

    [sumQ], [sumZ] and the operations of [Float] compute exactly.  numpy
    does not: the sum of an int64 column wraps around modulo 2^64, and a
    float64 result whose magnitude reaches [float64_limit] is an infinity.
    The definitions below add these two effects (rounding within the
    range stays out); they agree with the exact ones as long as no sum
    leaves its range. *)

Inductive dtype : Type := int64 | float64.

Definition wrap64 (z : Z) : Z := ((z + 2 ^ 63) mod 2 ^ 64 - 2 ^ 63)%Z.

(** The least magnitude that float64 rounds to an infinity,
    2^1024 - 2^970. *)
Definition float64_limit : Q := inject_Z (2 ^ 1024 - 2 ^ 970).

Definition in_float64_range (q : Q) : bool :=
  negb (Qle_bool float64_limit (Qabs q)).

Definition fround (q : Q) : fval :=
  if in_float64_range q then Num q
  else if is_neg q then NInf else PInf.

Definition overflow (x : fval) : fval :=
  match x with Num q => fround q | _ => x end.

Definition fadd64 (x y : fval) : fval := overflow (fadd x y).
Definition fdiv64 (x y : fval) : fval := overflow (fdiv x y).

(** A numpy scalar: [np.int64] or [np.float64] (or the Python int [0]). *)
Inductive scalar : Type :=
| IntVal (z : Z)
| FloatVal (x : fval).

(** [Series.sum()] of a numeric column, by the dtype [read_csv] gave it:
    the cells of an int64 column are integers and are added in int64; the
    cells of a float64 column are added in float64 (from left to right
    here; numpy's own order differs only in rounding and in whether a
    partial sum of mixed signs overflows).  A column without rows sums to
    zero whatever its dtype. *)
Definition column_sum (dt : dtype) (cells : list Q) : scalar :=
  match dt with
  | int64 => IntVal (wrap64 (sumZ (map Qfloor cells)))
  | float64 => FloatVal (fold_left fadd64 (map fround cells) (Num 0))
  end.

(** True division converts an integer operand to float64. *)
Definition to_float (v : scalar) : fval :=
  match v with
  | IntVal z => Num (inject_Z z)
  | FloatVal x => x
  end.

(** Truth value of a scalar: anything but zero (an infinity and NaN are
    true). *)
Definition is_nonzero (v : scalar) : bool :=
  match v with
  | IntVal z => negb (z =? 0)%Z
  | FloatVal (Num q) => negb (is_zero q)
  | FloatVal _ => true
  end.


(** The column holds what its dtype can hold and its sum stays in range:
    integers whose sum fits int64, or non-negative floats whose sum stays
    below [float64_limit]. *)
Definition sums_exactly (dt : dtype) (cells : list Q) : Prop :=
  match dt with
  | int64 =>
      (forall c, In c cells -> c == inject_Z (Qfloor c)) /\
      (- 2 ^ 63 <= sumZ (map Qfloor cells) < 2 ^ 63)%Z
  | float64 =>
      (forall c, In c cells -> 0 <= c) /\
      in_float64_range (sumQ cells) = true
  end.

(** ** Group keys

    [groupby] (default [sort=True]) produces one group per distinct key,
    in ascending key order. *)

Section Sorting.
Context {A : Type} (leb : A -> A -> bool).

Fixpoint insert_sorted (x : A) (l : list A) : list A :=
  match l with
  | [] => [x]
  | h :: t => if leb x h then x :: l else h :: insert_sorted x t
  end.

Definition sort_by (l : list A) : list A :=
  fold_right insert_sorted [] l.
End Sorting.

Definition group_keys {K : Type} (dec : forall a b : K, {a = b} + {a <> b})
  (leb : K -> K -> bool) (ks : list K) : list K :=
  sort_by leb (nodup dec ks).

Definition key2 : Type := (Z * string)%type.

Definition key2_dec : forall a b : key2, {a = b} + {a <> b}.
Proof. decide equality; [apply string_dec | apply Z.eq_dec]. Defined.

(** Tuple keys compare lexicographically. *)
Definition key2_leb (a b : key2) : bool :=
  (fst a <? fst b)%Z || ((fst a =? fst b)%Z && (snd a <=? snd b)%string).

(** ** Tables *)

(** A row of the filtered tracking table; only the columns the KPI
    functions read.  [influencer_id] is missing on rows that did not come
    from an influencer. *)
Record TrackingEvent : Type := mkTracking {
  source : string;
  influencer_id : option Z;
  user_id : Z;
  product : string;
  orders : Z;
  revenue : Q
}.

Record Payout : Type := mkPayout {
  pay_influencer_id : Z;
  basis : string;
  rate : Q;
  pay_orders : Z;
  total_payout : Q
}.

Record Influencer : Type := mkInfluencer {
  id : Z;
  name : string;
  category : string;
  gender : string;
  follower_count : Z;
  platform : string
}.

Record Post : Type := mkPost {
  post_id : Z;
  post_influencer_id : Z;
  post_platform : string;
  likes : Z;
  comments : Z;
  reach : Z
}.

(** ** ROAS *)

(** Lines 22-27 over exact sums. *)
Definition calculate_roas (tracking_f : list TrackingEvent)
  (payouts : list Payout) : Q * Z * Q * fval :=
  let total_rev := sumQ (map revenue tracking_f) in
  let total_orders := sumZ (map orders tracking_f) in
  let total_spend := sumQ (map total_payout payouts) in
  let roas :=
    if negb (is_zero total_spend)
    then fdiv (Num total_rev) (Num total_spend)
    else Num 0 in
  (total_rev, total_orders, total_spend, roas).

(** Lines 22-27 with numpy's arithmetic: [revenue_dtype] and
    [payout_dtype] are the dtypes of the [revenue] and [total_payout]
    columns; [orders] is an int64 column.  No operation here raises: the
    conditional keeps a zero [total_spend] away from the division, which
    in numpy would give an infinity or NaN anyway, not an exception. *)
Definition calculate_roas_numpy (revenue_dtype payout_dtype : dtype)
  (tracking_f : list TrackingEvent) (payouts : list Payout)
  : scalar * Z * scalar * scalar :=
  let total_rev := column_sum revenue_dtype (map revenue tracking_f) in
  let total_orders := wrap64 (sumZ (map orders tracking_f)) in
  let total_spend := column_sum payout_dtype (map total_payout payouts) in
  let roas :=
    if is_nonzero total_spend
    then FloatVal (fdiv64 (to_float total_rev) (to_float total_spend))
    else IntVal 0 in
  (total_rev, total_orders, total_spend, roas).

(** ** Joins

    [merge(how='left')] keeps every left row, once per matching right row
    and once with the right columns missing when nothing matches;
    [merge()] (inner, the default) keeps only the matching pairs.  Both
    keep the order of the left table.  These are the rows of the result;
    the check of the key dtypes that [merge] makes first is in
    [merge_left_checked]. *)

Section Merge.
Context {L R O : Type} (on : L -> R -> bool).

Definition merge_left (combine : L -> option R -> O)
  (left : list L) (right : list R) : list O :=
  flat_map (fun l =>
    match filter (on l) right with
    | [] => [combine l None]
    | ms => map (fun r => combine l (Some r)) ms
    end) left.

Definition merge_inner (combine : L -> R -> O)
  (left : list L) (right : list R) : list O :=
  flat_map (fun l => map (combine l) (filter (on l) right)) left.
End Merge.

(** [merge] first checks the dtypes of the two key columns, unless
    exactly one of the tables has no rows, and raises [ValueError]
    ("You are trying to merge on float64 and object columns") when one
    is [object] and the other float64.  Columns of the same dtype pass,
    so do int64 against float64, and so does an int64 column against an
    [object] column without rows.

    [read_csv] makes a column of integer ids int64 when every row has an
    id, float64 when an id is missing somewhere (the missing cell is NaN)
    and [object] when the file has a header only; selecting rows keeps
    the dtype, whatever rows remain.  The key dtype of a table is
    therefore given with it. *)
Inductive key_dtype : Type := object_keys | int64_keys | float64_keys.

Definition keys_compatible (a b : key_dtype) : bool :=
  match a, b with
  | object_keys, float64_keys | float64_keys, object_keys => false
  | _, _ => true
  end.

Definition read_csv_keys (ids : list (option Z)) : key_dtype :=
  match ids with
  | [] => object_keys
  | _ :: _ =>
      if forallb (fun i => match i with Some _ => true | None => false end)
           ids
      then int64_keys else float64_keys
  end.

(** [merge(how='left')] with the check: [None] stands for the
    [ValueError]. *)
Definition merge_left_checked {L R O : Type}
  (left_keys right_keys : key_dtype) (on : L -> R -> bool)
  (combine : L -> option R -> O) (left : list L) (right : list R)
  : option (list O) :=
  match left, right with
  | [], [] =>
      if keys_compatible left_keys right_keys
      then Some (merge_left on combine left right)
      else None
  | _, _ => Some (merge_left on combine left right)
  end.

(** A column read through a left join: missing when no row matched. *)
Definition joined {R : Type} (col : R -> fval) (r : option R) : fval :=
  match r with Some x => col x | None => NaN end.

(** ** Incremental ROAS *)

Definition epsilon : Q := 1 # 1000000000.

Definition has_source (s : string) (r : TrackingEvent) : bool :=
  String.eqb (source r) s.

Record Baseline : Type := mkBaseline {
  b_product : string;
  org_users : nat;
  org_revenue : Q;
  rev_per_user : fval
}.

(** Lines 31-36: the organic baseline per product. *)
Definition baseline (tracking_f : list TrackingEvent) : list Baseline :=
  let organic := filter (has_source "organic") tracking_f in
  map (fun p =>
         let g := filter (fun r => String.eqb (product r) p) organic in
         let users := nunique (map user_id g) in
         let rev := sumQ (map revenue g) in
         mkBaseline p users rev (fdiv (Num rev) (of_nat users)))
      (group_keys string_dec String.leb (map product organic)).

Record InfGroup : Type := mkInfGroup {
  g_influencer_id : Z;
  g_product : string;
  inf_users : nat;
  inf_revenue : Q
}.

(** The group key of a row; rows whose [influencer_id] is missing belong
    to no group ([groupby] drops them). *)
Definition treatment_key (r : TrackingEvent) : option key2 :=
  match influencer_id r with
  | Some i => Some (i, product r)
  | None => None
  end.

Definition opt_list {A : Type} (o : option A) : list A :=
  match o with Some a => [a] | None => [] end.

Definition in_group (k : key2) (r : TrackingEvent) : bool :=
  match treatment_key r with
  | Some k' => if key2_dec k' k then true else false
  | None => false
  end.

(** Lines 38-43: influencer-sourced rows per (influencer_id, product). *)
Definition treatment (tracking_f : list TrackingEvent) : list InfGroup :=
  let inf := filter (has_source "influencer") tracking_f in
  map (fun k =>
         let g := filter (in_group k) inf in
         mkInfGroup (fst k) (snd k)
           (nunique (map user_id g)) (sumQ (map revenue g)))
      (group_keys key2_dec key2_leb
         (flat_map (fun r => opt_list (treatment_key r)) inf)).

Record InfBaseline : Type := mkInfBaseline {
  grp : InfGroup;
  ib_rev_per_user : fval;
  expected_baseline_rev : fval;
  incremental_revenue : fval
}.

(** Lines 45-47. *)
Definition with_baseline (g : InfGroup) (b : option Baseline) : InfBaseline :=
  let rpu := joined rev_per_user b in
  let expected := fmul rpu (of_nat (inf_users g)) in
  mkInfBaseline g rpu expected (fsub (Num (inf_revenue g)) expected).

Record InfPerf : Type := mkInfPerf {
  perf : InfBaseline;
  ip_total_payout : fval;
  iROAS : fval
}.

(** Lines 49-51. *)
Definition with_payout (b : InfBaseline) (p : option Payout) : InfPerf :=
  let spend := joined (fun x => Num (total_payout x)) p in
  mkInfPerf b spend
    (fdiv (incremental_revenue b) (fadd spend (Num epsilon))).

Definition ip_influencer_id (r : InfPerf) : Z := g_influencer_id (grp (perf r)).
Definition ip_product (r : InfPerf) : string := g_product (grp (perf r)).
Definition ip_inf_users (r : InfPerf) : nat := inf_users (grp (perf r)).
Definition ip_inf_revenue (r : InfPerf) : Q := inf_revenue (grp (perf r)).
Definition ip_rev_per_user (r : InfPerf) : fval := ib_rev_per_user (perf r).
Definition ip_expected_baseline_rev (r : InfPerf) : fval :=
  expected_baseline_rev (perf r).
Definition ip_incremental_revenue (r : InfPerf) : fval :=
  incremental_revenue (perf r).

Definition inf_perf_table (tracking_f : list TrackingEvent)
  (payouts : list Payout) : list InfPerf :=
  let with_base :=
    merge_left (fun g b => String.eqb (g_product g) (b_product b))
      with_baseline (treatment tracking_f) (baseline tracking_f) in
  merge_left
    (fun b p => Z.eqb (g_influencer_id (grp b)) (pay_influencer_id p))
    with_payout with_base payouts.

Definition calculate_iroas (tracking_f : list TrackingEvent)
  (payouts : list Payout) : list InfPerf * fval :=
  let inf_perf := inf_perf_table tracking_f payouts in
  let overall_iroas := mean (map iROAS inf_perf) in
  (inf_perf, overall_iroas).

(** Lines 30-54 with the key checks of the two merges.  [tracking_keys]
    and [payout_keys] are the dtypes of the [influencer_id] columns of
    the two tables; the groups keep the key dtype of the tracking table.
    The [product] keys of the first merge are strings on both sides, so
    that merge never raises. *)
Definition calculate_iroas_checked (tracking_keys payout_keys : key_dtype)
  (tracking_f : list TrackingEvent) (payouts : list Payout)
  : option (list InfPerf * fval) :=
  match
    merge_left_checked object_keys object_keys
      (fun g b => String.eqb (g_product g) (b_product b))
      with_baseline (treatment tracking_f) (baseline tracking_f)
  with
  | None => None
  | Some with_base =>
      match
        merge_left_checked tracking_keys payout_keys
          (fun b p => Z.eqb (g_influencer_id (grp b)) (pay_influencer_id p))
          with_payout with_base payouts
      with
      | None => None
      | Some inf_perf => Some (inf_perf, mean (map iROAS inf_perf))
      end
  end.

(** The key dtypes of a tracking table and of a payout table as
    [read_csv] loads them. *)
Definition loaded_tracking_keys (tracking : list TrackingEvent) : key_dtype :=
  read_csv_keys (map influencer_id tracking).

Definition loaded_payout_keys (payouts : list Payout) : key_dtype :=
  read_csv_keys (map (fun p => Some (pay_influencer_id p)) payouts).


(** ** Top influencers *)

Record RevGroup : Type := mkRevGroup {
  rg_influencer_id : Z;
  rg_revenue : Q;
  rg_orders : Z
}.

Definition from_influencer (i : Z) (r : TrackingEvent) : bool :=
  match influencer_id r with
  | Some j => Z.eqb j i
  | None => false
  end.

(** Lines 62-68. *)
Definition revenue_by_influencer (tracking_f : list TrackingEvent)
  : list RevGroup :=
  let inf := filter (has_source "influencer") tracking_f in
  map (fun i =>
         let g := filter (from_influencer i) inf in
         mkRevGroup i (sumQ (map revenue g)) (sumZ (map orders g)))
      (group_keys Z.eq_dec Z.leb
         (flat_map (fun r => opt_list (influencer_id r)) inf)).

Record PostMetrics : Type := mkPostMetrics {
  pm_influencer_id : Z;
  total_likes : Z;
  total_comments : Z;
  total_reach : Z;
  pm_engagement_rate : fval
}.

(** Lines 72-79. *)
Definition post_metrics (posts_f : list Post) : list PostMetrics :=
  map (fun i =>
         let g := filter (fun p => Z.eqb (post_influencer_id p) i) posts_f in
         let l := sumZ (map likes g) in
         let c := sumZ (map comments g) in
         let r := sumZ (map reach g) in
         mkPostMetrics i l c r (fdiv (of_Z (l + c)) (of_Z r)))
      (group_keys Z.eq_dec Z.leb (map post_influencer_id posts_f)).

Record TopInf : Type := mkTopInf {
  agg : RevGroup;
  who : Influencer;
  engagement_rate : fval;
  top_total_payout : fval;
  cost_per_order : fval
}.

Definition top_revenue (r : TopInf) : Q := rg_revenue (agg r).
Definition top_influencer_id (r : TopInf) : Z := rg_influencer_id (agg r).

(** The number of distinct influencers with influencer-sourced rows. *)
Definition distinct_influencers (tracking_f : list TrackingEvent) : nat :=
  nunique (flat_map (fun r => opt_list (influencer_id r))
             (filter (has_source "influencer") tracking_f)).

(** [sort_values('revenue', ascending=False)]: rows of larger revenue
    first; rows of equal revenue are kept in their order here (pandas
    leaves their order to the sorting algorithm). *)
Definition revenue_geb (a b : TopInf) : bool :=
  Qle_bool (top_revenue b) (top_revenue a).

Definition sort_values_revenue_desc (l : list TopInf) : list TopInf :=
  sort_by revenue_geb l.

(** [DataFrame.head(n)]: the first [n] rows, or all but the last [-n]
    rows when [n] is negative. *)
Definition head {A : Type} (n : Z) (l : list A) : list A :=
  if (0 <=? n)%Z then firstn (Z.to_nat n) l
  else firstn (List.length l - Z.to_nat (- n)) l.

(** Lines 61-83: the joined table before sorting. *)
Definition top_inf_table (tracking_f : list TrackingEvent)
  (posts_f : list Post) (payouts : list Payout)
  (influencers : list Influencer) : list TopInf :=
  let top_inf :=
    merge_inner (fun g i => Z.eqb (rg_influencer_id g) (id i))
      (fun g i => (g, i))
      (revenue_by_influencer tracking_f) influencers in
  let with_engagement :=
    merge_left
      (fun (t : RevGroup * Influencer) m =>
         Z.eqb (rg_influencer_id (fst t)) (pm_influencer_id m))
      (fun t m => (t, joined pm_engagement_rate m))
      top_inf (post_metrics posts_f) in
  merge_left
    (fun (t : RevGroup * Influencer * fval) p =>
       Z.eqb (rg_influencer_id (fst (fst t))) (pay_influencer_id p))
    (fun t p =>
       let spend := joined (fun x => Num (total_payout x)) p in
       mkTopInf (fst (fst t)) (snd (fst t)) (snd t) spend
         (fdiv spend (fadd (of_Z (rg_orders (fst (fst t)))) (Num epsilon))))
    with_engagement payouts.

Definition get_top_influencers (tracking_f : list TrackingEvent)
  (posts_f : list Post) (payouts : list Payout)
  (influencers : list Influencer) (top_n : Z) : list TopInf :=
  head top_n
    (sort_values_revenue_desc
       (top_inf_table tracking_f posts_f payouts influencers)).

(** pandas sorts with quicksort by default, which is not stable: rows of
    equal revenue come out in an order the algorithm chooses.  What
    [sort_values('revenue', ascending=False)] guarantees is an
    arrangement of the rows in descending order of revenue;
    [sort_values_revenue_desc] is the one that keeps equal rows in table
    order. *)
Definition revenue_desc (a b : TopInf) : Prop :=
  top_revenue b <= top_revenue a.

Definition sorted_by_revenue_desc (rows sorted : list TopInf) : Prop :=
  Permutation sorted rows /\ StronglySorted revenue_desc sorted.

(** The tables line 85 can return: the head of a sorted arrangement of
    the joined table. *)
Definition top_influencers_result (tracking_f : list TrackingEvent)
  (posts_f : list Post) (payouts : list Payout)
  (influencers : list Influencer) (top_n : Z) (out : list TopInf) : Prop :=
  exists sorted,
    sorted_by_revenue_desc
      (top_inf_table tracking_f posts_f payouts influencers) sorted /\
    out = head top_n sorted.

(** ** The dashboard script

    Lines 91-209 of [app.py] run at module level.  The four tables and
    the values of the sidebar widgets are the parameters here. *)

(** A row of the tracking table as loaded: the KPI columns, the campaign
    and the date (a timestamp). *)
Record TrackingRow : Type := mkTrackingRow {
  event : TrackingEvent;
  campaign : option string;
  date : Z
}.

Record PostRow : Type := mkPostRow {
  post : Post;
  post_date : Z
}.

(** [influencers[['id', 'platform', 'category']]]. *)
Record RosterCols : Type := mkRosterCols {
  rc_id : Z;
  rc_platform : string;
  rc_category : string
}.

Definition roster_cols (i : Influencer) : RosterCols :=
  mkRosterCols (id i) (platform i) (category i).

(** A row of [tracking_f]: the tracking row and the roster columns merged
    in, missing when the row's [influencer_id] matched no roster entry. *)
Record FilteredTracking : Type := mkFilteredTracking {
  tracked : TrackingRow;
  matched : option RosterCols
}.

(** [Series.isin(values)]; a missing cell is in no list of strings. *)
Definition isin (values : list string) (cell : option string) : bool :=
  match cell with
  | Some s => existsb (String.eqb s) values
  | None => false
  end.

Definition within (start_date end_date d : Z) : bool :=
  (start_date <=? d)%Z && (d <=? end_date)%Z.

Definition key_matches (k : option Z) (i : Z) : bool :=
  match k with
  | Some j => Z.eqb j i
  | None => false
  end.

(** Lines 108-120. *)
Definition filter_tracking (tracking : list TrackingRow)
  (influencers : list Influencer) (start_date end_date : Z)
  (platform_filter category_filter : list string) : list FilteredTracking :=
  let merged :=
    merge_left
      (fun t c => key_matches (influencer_id (event t)) (rc_id c))
      mkFilteredTracking
      (filter (fun t => within start_date end_date (date t)) tracking)
      (map roster_cols influencers) in
  filter (fun m =>
            isin platform_filter (option_map rc_platform (matched m)) &&
            isin category_filter (option_map rc_category (matched m)))
    merged.

(** The columns of [tracking_f] that the KPI functions read. *)
Definition tracking_events (tracking_f : list FilteredTracking)
  : list TrackingEvent :=
  map (fun m => event (tracked m)) tracking_f.

(** [influencers[['id', 'category']]]. *)
Record PostRosterCols : Type := mkPostRosterCols {
  pc_id : Z;
  pc_category : string
}.

Definition post_roster_cols (i : Influencer) : PostRosterCols :=
  mkPostRosterCols (id i) (category i).

Record FilteredPost : Type := mkFilteredPost {
  posted : PostRow;
  post_matched : option PostRosterCols
}.

(** Lines 123-135; the platform tested is the post's own. *)
Definition filter_posts (posts : list PostRow)
  (influencers : list Influencer) (start_date end_date : Z)
  (platform_filter category_filter : list string) : list FilteredPost :=
  let merged :=
    merge_left
      (fun p c => Z.eqb (post_influencer_id (post p)) (pc_id c))
      mkFilteredPost
      (filter (fun p => within start_date end_date (post_date p)) posts)
      (map post_roster_cols influencers) in
  filter (fun m =>
            isin platform_filter (Some (post_platform (post (posted m)))) &&
            isin category_filter (option_map pc_category (post_matched m)))
    merged.

Definition posts_of (posts_f : list FilteredPost) : list Post :=
  map (fun m => post (posted m)) posts_f.

(** Lines 138-139 and 150 on the filtered tables. *)
Definition dashboard_roas (tracking : list TrackingRow)
  (influencers : list Influencer) (payouts : list Payout)
  (start_date end_date : Z) (platform_filter category_filter : list string)
  : Q * Z * Q * fval :=
  calculate_roas
    (tracking_events
       (filter_tracking tracking influencers start_date end_date
          platform_filter category_filter))
    payouts.

Definition dashboard_iroas (tracking : list TrackingRow)
  (influencers : list Influencer) (payouts : list Payout)
  (start_date end_date : Z) (platform_filter category_filter : list string)
  : list InfPerf * fval :=
  calculate_iroas
    (tracking_events
       (filter_tracking tracking influencers start_date end_date
          platform_filter category_filter))
    payouts.

Definition dashboard_top_inf (tracking : list TrackingRow)
  (posts : list PostRow) (influencers : list Influencer)
  (payouts : list Payout) (start_date end_date : Z)
  (platform_filter category_filter : list string) (top_n : Z)
  : list TopInf :=
  get_top_influencers
    (tracking_events
       (filter_tracking tracking influencers start_date end_date
          platform_filter category_filter))
    (posts_of
       (filter_posts posts influencers start_date end_date
          platform_filter category_filter))
    payouts influencers top_n.

(** Line 178: revenue per date, dates ascending. *)
Definition rev_time (tracking_f : list FilteredTracking) : list (Z * Q) :=
  map (fun d =>
         (d, sumQ (map (fun m => revenue (event (tracked m)))
                     (filter (fun m => Z.eqb (date (tracked m)) d)
                        tracking_f))))
      (group_keys Z.eq_dec Z.leb (map (fun m => date (tracked m)) tracking_f)).

(** The [sum] of a group of float cells: missing cells are left out, and
    the sum of nothing is 0. *)
Definition nansum (l : list fval) : fval := fsum (filter notna l).

Record IroasAgg : Type := mkIroasAgg {
  ia_influencer_id : Z;
  total_incremental_rev : fval;
  spend : fval;
  ia_iROAS : fval
}.

(** Lines 189-193. *)
Definition iroas_by_influencer (inf_perf : list InfPerf) : list IroasAgg :=
  map (fun i =>
         let g := filter (fun r => Z.eqb (ip_influencer_id r) i) inf_perf in
         mkIroasAgg i
           (nansum (map ip_incremental_revenue g))
           (mean (map ip_total_payout g))
           (mean (map iROAS g)))
      (group_keys Z.eq_dec Z.leb (map ip_influencer_id inf_perf)).

Record IroasRow : Type := mkIroasRow {
  ir_name : string;
  ir_category : string;
  ir_platform : string;
  ir_total_incremental_rev : fval;
  ir_spend : fval;
  ir_iROAS : fval
}.

(** The order of float cells that are not NaN. *)
Definition fleb (x y : fval) : bool :=
  match x, y with
  | NaN, _ | _, NaN => false
  | NInf, _ => true
  | _, PInf => true
  | Num a, Num b => Qle_bool a b
  | _, _ => false
  end.

(** [sort_values('iROAS', ascending=False)]: rows with an iROAS in
    descending order, then the rows whose iROAS is missing
    ([na_position='last']); rows of equal iROAS and the missing ones are
    kept in their order here. *)
Definition sort_values_iroas_desc (l : list IroasRow) : list IroasRow :=
  sort_by (fun a b => fleb (ir_iROAS b) (ir_iROAS a))
    (filter (fun r => notna (ir_iROAS r)) l)
  ++ filter (fun r => isnan (ir_iROAS r)) l.

(** Lines 188-197. *)
Definition iroas_table (inf_perf : list InfPerf)
  (influencers : list Influencer) : list IroasRow :=
  sort_values_iroas_desc
    (merge_inner (fun a i => Z.eqb (ia_influencer_id a) (id i))
       (fun a i =>
          mkIroasRow (name i) (category i) (platform i)
            (total_incremental_rev a) (spend a) (ia_iROAS a))
       (iroas_by_influencer inf_perf) influencers).

(** Lines 154-161, for a numeric cell: green from [good_thresh] up, red
    from [bad_thresh] down, nothing in between or for NaN. *)
Definition fgeb_Q (v : fval) (q : Q) : bool :=
  match v with
  | Num a => Qle_bool q a
  | PInf => true
  | NInf | NaN => false
  end.

Definition fleb_Q (v : fval) (q : Q) : bool :=
  match v with
  | Num a => Qle_bool a q
  | NInf => true
  | PInf | NaN => false
  end.

Definition highlight_cells (val : fval) (good_thresh bad_thresh : Q)
  : string :=
  if fgeb_Q val good_thresh then "background-color: #d4edda"
  else if fleb_Q val bad_thresh then "background-color: #f8d7da"
  else "".

(** ** The data generator

    [notebooks/generate_data.py] draws from numpy's global random
    generator.  The draws are parameters here: [draw k] holds the values
    drawn for the [k]-th row of a table, in the order the script draws
    them.  Dates are timestamps in seconds. *)

Definition decimal (n : Z) : string := NilZero.string_of_int (Z.to_int n).

Definition n_inf : nat := 20.

Record InfluencerDraw : Type := mkInfluencerDraw {
  dr_category : string;
  dr_gender : string;
  dr_follower_count : Z;
  dr_platform : string
}.

(** Lines 12-22: ids 1..n_inf, names after the ids, the rest drawn. *)
Definition generate_influencers (draw : nat -> InfluencerDraw)
  : list Influencer :=
  map (fun k =>
         let i := Z.of_nat (S k) in
         mkInfluencer i ("Influencer_" ++ decimal i)%string
           (dr_category (draw k)) (dr_gender (draw k))
           (dr_follower_count (draw k)) (dr_platform (draw k)))
      (seq 0 n_inf).

Definition one_day : Z := 86400.

Record TrackingDraw : Type := mkTrackingDraw {
  dr_user : Z;
  dr_src : string;
  dr_inf_id : Z;
  dr_product : string;
  dr_day : Z;
  dr_order_flag : Z;
  dr_price : Z;
  dr_campaign : Z
}.

(** Lines 68-80, one pass of the loop.  The influencer is drawn for an
    influencer-sourced row only, the campaign for a row that is not
    organic. *)
Definition generate_tracking_row (start_date : Z) (d : TrackingDraw)
  : TrackingRow :=
  let src := dr_src d in
  let inf_id :=
    if String.eqb src "influencer" then Some (dr_inf_id d) else None in
  let revenue := (dr_order_flag d * dr_price d)%Z in
  let campaign :=
    if negb (String.eqb src "organic")
    then Some ("camp_" ++ decimal (dr_campaign d))%string
    else None in
  mkTrackingRow
    (mkTracking src inf_id (dr_user d) (dr_product d) (dr_order_flag d)
       (inject_Z revenue))
    campaign
    (start_date + one_day * dr_day d)%Z.

(** Lines 66-83. *)
Definition generate_tracking (start_date : Z) (draw : nat -> TrackingDraw)
  : list TrackingRow :=
  map (fun k => generate_tracking_row start_date (draw k)) (seq 0 3000).

Record PayoutDraw : Type := mkPayoutDraw {
  dr_basis : string;
  dr_rate : Z
}.

(** Lines 92-103, one pass of the loop. *)
Definition generate_payout_row (d : PayoutDraw) (posts : list Post)
  (tracking : list TrackingEvent) (r : Influencer) : Payout :=
  let basis := dr_basis d in
  let rate := dr_rate d in
  if String.eqb basis "post" then
    let num_posts :=
      Z.of_nat (List.length
                  (filter (fun p => Z.eqb (post_influencer_id p) (id r))
                     posts)) in
    mkPayout (id r) basis (inject_Z rate) num_posts
      (inject_Z (rate * num_posts))
  else
    let orders_count :=
      sumZ (map orders
              (filter (fun t => key_matches (influencer_id t) (id r) &&
                                has_source "influencer" t)
                 tracking)) in
    mkPayout (id r) basis (inject_Z rate) orders_count
      (inject_Z (rate * orders_count)).

Fixpoint generate_payouts_from (k : nat) (draw : nat -> PayoutDraw)
  (posts : list Post) (tracking : list TrackingEvent)
  (influencers : list Influencer) : list Payout :=
  match influencers with
  | [] => []
  | r :: rest =>
      generate_payout_row (draw k) posts tracking r
      :: generate_payouts_from (S k) draw posts tracking rest
  end.

(** Lines 90-105. *)
Definition generate_payouts (draw : nat -> PayoutDraw) (posts : list Post)
  (tracking : list TrackingEvent) (influencers : list Influencer)
  : list Payout :=
  generate_payouts_from 0 draw posts tracking influencers.

Definition n_posts : nat := 100.

Definition inf_ids : list Z := map Z.of_nat (seq 1 n_inf).

(** [influencers.loc[influencers['id'] == iid, 'platform'].values[0]]:
    the platform of the first roster row with that id; taking element 0
    of an empty selection raises. *)
Definition platform_of (influencers : list Influencer) (iid : Z)
  : option string :=
  match filter (fun i => Z.eqb (id i) iid) influencers with
  | x :: _ => Some (platform x)
  | [] => None
  end.

Fixpoint traverse {A B : Type} (f : A -> option B) (l : list A)
  : option (list B) :=
  match l with
  | [] => Some []
  | x :: t =>
      match f x, traverse f t with
      | Some y, Some ys => Some (y :: ys)
      | _, _ => None
      end
  end.

(** The posts table as built at lines 35-42, before the engagement
    columns are added. *)
Record BasePost : Type := mkBasePost {
  bp_post_id : Z;
  bp_influencer_id : Z;
  bp_platform : string;
  bp_date : Z;
  bp_url : string;
  bp_caption : string
}.

(** Lines 28-42.  [pick j] is the [j]-th influencer drawn for the posts
    beyond the first [n_inf], [day k] the day offset drawn for the
    [k]-th post.  [None] stands for the exception of a failed platform
    lookup. *)
Definition generate_posts_base (start_date : Z)
  (influencers : list Influencer) (pick : nat -> Z) (day : nat -> Z)
  : option (list BasePost) :=
  let post_inf :=
    inf_ids ++ map pick (seq 0 (n_posts - List.length inf_ids)) in
  let dates :=
    map (fun k => (start_date + one_day * day k)%Z)
      (seq 0 (List.length post_inf)) in
  traverse
    (fun row : nat * (Z * Z) =>
       let '(i, (iid, d)) := row in
       match platform_of influencers iid with
       | Some pl =>
           Some (mkBasePost (Z.of_nat i) iid pl d
                   ("https://post/" ++ decimal (Z.of_nat i))%string
                   "Sample caption")
       | None => None
       end)
    (combine (seq 1 (List.length post_inf)) (combine post_inf dates)).

(** ** Sample tables

    The scenario of the specification: two organic users of "Protein" with
    revenue 1000 in all; influencer 7 with three users and revenue 2000 on
    "Protein" and a payout of 1000.  Added to it: a "Snack" group with no
    organic baseline, influencer 3 with no payout row and absent from the
    roster, and a paid-ad row. *)

Definition sample_tracking : list TrackingEvent :=
  [ mkTracking "organic" None 1 "Protein" 1 500;
    mkTracking "organic" None 2 "Protein" 1 500;
    mkTracking "influencer" (Some 7%Z) 3 "Protein" 1 1000;
    mkTracking "influencer" (Some 7%Z) 4 "Protein" 1 1000;
    mkTracking "influencer" (Some 7%Z) 5 "Protein" 0 0;
    mkTracking "influencer" (Some 7%Z) 5 "Snack" 1 499;
    mkTracking "influencer" (Some 3%Z) 6 "Protein" 0 0;
    mkTracking "paid_ad" None 9 "Snack" 1 999 ].

Definition sample_payouts : list Payout :=
  [ mkPayout 7 "post" 500 2 1000 ].

Definition sample_influencers : list Influencer :=
  [ mkInfluencer 7 "Influencer_7" "Fitness" "F" 120000 "YouTube";
    mkInfluencer 8 "Influencer_8" "Wellness" "M" 45000 "Twitter" ].

Definition sample_posts : list Post :=
  [ mkPost 1 7 "YouTube" 300 50 7000;
    mkPost 2 7 "YouTube" 100 50 3000;
    mkPost 3 8 "Twitter" 10 1 500 ].

(** Only influencer 7 on "Protein", so that every iROAS is defined. *)
Definition protein_tracking : list TrackingEvent :=
  [ mkTracking "organic" None 1 "Protein" 1 500;
    mkTracking "organic" None 2 "Protein" 1 500;
    mkTracking "influencer" (Some 7%Z) 3 "Protein" 1 1000;
    mkTracking "influencer" (Some 7%Z) 4 "Protein" 1 1000;
    mkTracking "influencer" (Some 7%Z) 5 "Protein" 0 0 ].

(** Traffic from paid ads only. *)
Definition paid_only_tracking : list TrackingEvent :=
  [ mkTracking "paid_ad" None 9 "Snack" 1 999;
    mkTracking "paid_ad" None 10 "Protein" 0 0 ].


(** The rows of the iROAS table of the sample: influencer 3 has no payout,
    "Snack" has no organic baseline. *)
Definition sample_row_3_protein : InfPerf :=
  mkInfPerf
    (mkInfBaseline (mkInfGroup 3 "Protein" 1 0)
       (Num (1000 # 2)) (Num (1000 # 2)) (Num (-1000 # 2)))
    NaN NaN.

Definition sample_row_7_protein : InfPerf :=
  mkInfPerf
    (mkInfBaseline (mkInfGroup 7 "Protein" 3 2000)
       (Num (1000 # 2)) (Num (3000 # 2)) (Num (1000 # 2)))
    (Num 1000) (Num (1000000000000 # 2000000000002)).

Definition sample_row_7_snack : InfPerf :=
  mkInfPerf
    (mkInfBaseline (mkInfGroup 7 "Snack" 1 499) NaN NaN NaN)
    (Num 1000) NaN.

(** The sample with a row for influencer 8, who is on the roster. *)
Definition ranker_tracking : list TrackingEvent :=
  sample_tracking ++ [ mkTracking "influencer" (Some 8%Z) 13 "Snack" 1 2999 ].

(** The two rows of the ranker on [ranker_tracking]. *)
Definition sample_top_8 : TopInf :=
  mkTopInf (mkRevGroup 8 2999 1)
    (mkInfluencer 8 "Influencer_8" "Wellness" "M" 45000 "Twitter")
    (Num (11 # 500)) NaN NaN.

Definition sample_top_7 : TopInf :=
  mkTopInf (mkRevGroup 7 2499 3)
    (mkInfluencer 7 "Influencer_7" "Fitness" "F" 120000 "YouTube")
    (Num (500 # 10000)) (Num 1000) (Num (1000000000000 # 3000000001)).

(** A loaded tracking table for the dashboard: the roster has influencers
    7 and 8 only, and the last row is dated after the window 0..30. *)
Definition sample_raw_tracking : list TrackingRow :=
  [ mkTrackingRow (mkTracking "organic" None 1 "Protein" 1 500) None 10;
    mkTrackingRow (mkTracking "influencer" (Some 7%Z) 3 "Protein" 1 1000)
      (Some "camp_1") 12;
    mkTrackingRow (mkTracking "influencer" (Some 7%Z) 5 "Snack" 1 499)
      (Some "camp_2") 12;
    mkTrackingRow (mkTracking "paid_ad" None 9 "Snack" 1 999)
      (Some "camp_3") 14;
    mkTrackingRow (mkTracking "influencer" (Some 3%Z) 6 "Protein" 0 0)
      (Some "camp_1") 15;
    mkTrackingRow (mkTracking "influencer" (Some 8%Z) 13 "Snack" 1 2999)
      (Some "camp_1") 20;
    mkTrackingRow (mkTracking "influencer" (Some 7%Z) 4 "Protein" 1 1000)
      (Some "camp_1") 40 ].

Definition sample_raw_posts : list PostRow :=
  [ mkPostRow (mkPost 1 7 "YouTube" 300 50 7000) 5;
    mkPostRow (mkPost 2 7 "YouTube" 100 50 3000) 45;
    mkPostRow (mkPost 3 8 "Twitter" 10 1 500) 8;
    mkPostRow (mkPost 4 3 "Twitter" 10 1 500) 9 ].

Definition all_platforms : list string := ["Instagram"; "YouTube"; "Twitter"].
Definition all_categories : list string :=
  ["Fitness"; "Nutrition"; "Lifestyle"; "Wellness"].

Definition sample_filtered_7_protein : FilteredTracking :=
  mkFilteredTracking
    (mkTrackingRow (mkTracking "influencer" (Some 7%Z) 3 "Protein" 1 1000)
       (Some "camp_1") 12)
    (Some (mkRosterCols 7 "YouTube" "Fitness")).

(** Influencer 7 in the dashboard's per-influencer iROAS table, and in
    the per-influencer aggregate of the sample iROAS table. *)
Definition sample_dashboard_row_7 : IroasRow :=
  mkIroasRow "Influencer_7" "Fitness" "YouTube" (Num 0) (Num (2000 # 2)) NaN.

Definition sample_agg_7 : IroasAgg :=
  mkIroasAgg 7 (Num (1000 # 2)) (Num (2000 # 2))
    (Num (1000000000000 # 2000000000002)).

(** Draws for the generator: every third row is influencer-sourced, every
    third organic, the others paid ads. *)
Definition sample_tracking_draw (k : nat) : TrackingDraw :=
  mkTrackingDraw (Z.of_nat k)
    (match Nat.modulo k 3 with
     | O => "influencer"
     | S O => "organic"
     | _ => "paid_ad"
     end)
    (1 + Z.of_nat (Nat.modulo k 20)) "Protein" (Z.of_nat (Nat.modulo k 90))
    (Z.of_nat (Nat.modulo k 2)) 499 (1 + Z.of_nat (Nat.modulo k 5)).

Definition sample_influencer_draw (k : nat) : InfluencerDraw :=
  mkInfluencerDraw "Fitness" "F" (10000 + Z.of_nat k) "YouTube".

Definition sample_payout_draw (k : nat) : PayoutDraw :=
  match Nat.modulo k 2 with
  | O => mkPayoutDraw "post" 2000
  | _ => mkPayoutDraw "order" 50
  end.

(** ** Further sample tables *)

(** The sample payout table with a zero payout for influencer 7. *)
Definition zero_payouts : list Payout :=
  [ mkPayout 7 "order" 50 0 0 ].

(** The rows of influencer 7 in the iROAS table of the sample under
    [zero_payouts]. *)
Definition zero_payout_row_7_protein : InfPerf :=
  mkInfPerf
    (mkInfBaseline (mkInfGroup 7 "Protein" 3 2000)
       (Num (1000 # 2)) (Num (3000 # 2)) (Num (1000 # 2)))
    (Num 0) (Num (1000000000000 # 2)).

Definition zero_payout_row_7_snack : InfPerf :=
  mkInfPerf
    (mkInfBaseline (mkInfGroup 7 "Snack" 1 499) NaN NaN NaN)
    (Num 0) NaN.

(** Two groups with a defined iROAS and one without: organic baselines
    for "Protein" (500 per user) and "Snack" (100 per user), none for
    "Multivitamin"; influencer 7 is paid 1000 and influencer 8 is paid
    100. *)
Definition two_group_tracking : list TrackingEvent :=
  [ mkTracking "organic" None 1 "Protein" 1 500;
    mkTracking "organic" None 2 "Protein" 1 500;
    mkTracking "organic" None 20 "Snack" 1 100;
    mkTracking "influencer" (Some 7%Z) 3 "Protein" 1 1000;
    mkTracking "influencer" (Some 7%Z) 4 "Protein" 1 1000;
    mkTracking "influencer" (Some 7%Z) 5 "Protein" 0 0;
    mkTracking "influencer" (Some 7%Z) 5 "Multivitamin" 1 299;
    mkTracking "influencer" (Some 8%Z) 21 "Snack" 1 400 ].

Definition two_group_payouts : list Payout :=
  [ mkPayout 7 "post" 500 2 1000;
    mkPayout 8 "order" 100 1 100 ].

(** The two defined cells of its iROAS column: 500 / (1000 + 1e-9) and
    300 / (100 + 1e-9). *)
Definition two_group_iroas_7 : Q := 1000000000000 # 2000000000002.
Definition two_group_iroas_8 : Q := 300000000000 # 100000000001.



(** Influencers 7 and 8 with the same revenue. *)
Definition tie_tracking : list TrackingEvent :=
  [ mkTracking "influencer" (Some 7%Z) 3 "Protein" 1 1000;
    mkTracking "influencer" (Some 8%Z) 13 "Snack" 1 1000 ].

Definition tie_top_7 : TopInf :=
  mkTopInf (mkRevGroup 7 1000 1)
    (mkInfluencer 7 "Influencer_7" "Fitness" "F" 120000 "YouTube")
    (Num (500 # 10000)) (Num 1000) (Num (1000000000000 # 1000000001)).

Definition tie_top_8 : TopInf :=
  mkTopInf (mkRevGroup 8 1000 1)
    (mkInfluencer 8 "Influencer_8" "Wellness" "M" 45000 "Twitter")
    (Num (11 # 500)) NaN NaN.

(** * Properties *)

(** ** Sorting and group keys *)

Section SortingFacts.
Context {A : Type} (leb : A -> A -> bool).

Lemma insert_sorted_perm (x : A) (l : list A) :
  Permutation (insert_sorted leb x l) (x :: l).
Proof.
  induction l as [|h t IH]; simpl.
  - reflexivity.
  - destruct (leb x h).
    + reflexivity.
    + rewrite IH. apply perm_swap.
Qed.

Lemma sort_by_perm (l : list A) : Permutation (sort_by leb l) l.
Proof.
  induction l as [|h t IH]; simpl.
  - reflexivity.
  - rewrite insert_sorted_perm. now apply perm_skip.
Qed.

Lemma sort_by_In (l : list A) (x : A) : In x (sort_by leb l) <-> In x l.
Proof.
  split; apply Permutation_in;
    [apply sort_by_perm | symmetry; apply sort_by_perm].
Qed.

Lemma sort_by_length (l : list A) :
  List.length (sort_by leb l) = List.length l.
Proof. apply Permutation_length, sort_by_perm. Qed.

(** With a total, transitive comparison the result is ordered. *)
Hypothesis leb_total : forall a b, leb a b = true \/ leb b a = true.
Hypothesis leb_trans :
  forall a b c, leb a b = true -> leb b c = true -> leb a c = true.

Lemma insert_sorted_HdRel (a x : A) (l : list A) :
  leb a x = true ->
  HdRel (fun u v => leb u v = true) a l ->
  HdRel (fun u v => leb u v = true) a (insert_sorted leb x l).
Proof.
  intros Hax Hl. destruct l as [|h t]; simpl.
  - now constructor.
  - destruct (leb x h); constructor; trivial.
    now inversion Hl.
Qed.

Lemma insert_sorted_Sorted (x : A) (l : list A) :
  Sorted (fun u v => leb u v = true) l ->
  Sorted (fun u v => leb u v = true) (insert_sorted leb x l).
Proof.
  induction 1 as [|h t Ht IH Hhd]; simpl.
  - repeat constructor.
  - destruct (leb x h) eqn:E.
    + constructor; [now constructor | now constructor].
    + constructor; trivial.
      apply insert_sorted_HdRel; trivial.
      destruct (leb_total x h) as [C|C]; congruence.
Qed.

Lemma sort_by_Sorted (l : list A) :
  Sorted (fun u v => leb u v = true) (sort_by leb l).
Proof.
  induction l as [|h t IH]; simpl.
  - constructor.
  - now apply insert_sorted_Sorted.
Qed.

Lemma sort_by_StronglySorted (l : list A) :
  StronglySorted (fun u v => leb u v = true) (sort_by leb l).
Proof.
  apply Sorted_StronglySorted.
  - intros a b c. apply leb_trans.
  - apply sort_by_Sorted.
Qed.
End SortingFacts.

Section GroupKeys.
Context {K : Type} (dec : forall a b : K, {a = b} + {a <> b})
  (leb : K -> K -> bool).

Lemma group_keys_In (ks : list K) (k : K) :
  In k (group_keys dec leb ks) <-> In k ks.
Proof. unfold group_keys. now rewrite sort_by_In, nodup_In. Qed.

Lemma group_keys_NoDup (ks : list K) : NoDup (group_keys dec leb ks).
Proof.
  unfold group_keys.
  eapply Permutation_NoDup.
  - symmetry. apply sort_by_perm.
  - apply NoDup_nodup.
Qed.

Lemma group_keys_length (ks : list K) :
  List.length (group_keys dec leb ks) = List.length (nodup dec ks).
Proof. apply sort_by_length. Qed.

End GroupKeys.

(** ** Joins *)

Section MergeFacts.
Context {L R O : Type} (on : L -> R -> bool).

Lemma merge_left_In (c : L -> option R -> O) (ls : list L) (rs : list R)
  (o : O) :
  In o (merge_left on c ls rs) <->
  exists l, In l ls /\
    ((filter (on l) rs = [] /\ o = c l None) \/
     (exists r, In r rs /\ on l r = true /\ o = c l (Some r))).
Proof.
  unfold merge_left. rewrite in_flat_map. split.
  - intros (l & Hl & Ho). exists l. split; trivial.
    destruct (filter (on l) rs) as [|m ms] eqn:E.
    + left. destruct Ho as [<-|[]]. now split.
    + right. rewrite <- E in Ho. apply in_map_iff in Ho.
      destruct Ho as (r & <- & Hr). apply filter_In in Hr.
      exists r. tauto.
  - intros (l & Hl & [[E ->]|(r & Hr & Hon & ->)]); exists l; split; trivial.
    + rewrite E. now left.
    + assert (Hin : In r (filter (on l) rs)) by (apply filter_In; tauto).
      destruct (filter (on l) rs) as [|m ms] eqn:E; [contradiction|].
      apply in_map_iff. now exists r.
Qed.

Lemma merge_inner_In (c : L -> R -> O) (ls : list L) (rs : list R) (o : O) :
  In o (merge_inner on c ls rs) <->
  exists l r, In l ls /\ In r rs /\ on l r = true /\ o = c l r.
Proof.
  unfold merge_inner. rewrite in_flat_map. split.
  - intros (l & Hl & Ho). apply in_map_iff in Ho.
    destruct Ho as (r & <- & Hr). apply filter_In in Hr.
    exists l, r. tauto.
  - intros (l & r & Hl & Hr & Hon & ->). exists l. split; trivial.
    apply in_map_iff. exists r. split; trivial. apply filter_In. tauto.
Qed.

End MergeFacts.

(** ** Arithmetic of cells *)

Lemma is_zero_iff (q : Q) : is_zero q = true <-> q == 0.
Proof. apply Qeq_bool_iff. Qed.

Lemma is_zero_false_iff (q : Q) : is_zero q = false <-> ~ q == 0.
Proof.
  rewrite <- is_zero_iff. destruct (is_zero q); split; congruence.
Qed.

Lemma is_zero_of_nat (n : nat) :
  (1 <= n)%nat -> is_zero (inject_Z (Z.of_nat n)) = false.
Proof.
  intros Hn. apply is_zero_false_iff. unfold Qeq. simpl. lia.
Qed.


Lemma fdiv_num (a b : Q) : ~ b == 0 -> fdiv (Num a) (Num b) = Num (a / b).
Proof.
  intros Hb. simpl. apply is_zero_false_iff in Hb. now rewrite Hb.
Qed.

Lemma fdiv_nan_r (x : fval) : fdiv x NaN = NaN.
Proof. now destruct x. Qed.




Lemma epsilon_pos : 0 < epsilon.
Proof. reflexivity. Qed.

Lemma sumQ_acc (l : list Q) (a : Q) : fold_left Qplus l a == a + sumQ l.
Proof.
  unfold sumQ. revert a.
  induction l as [|x t IH]; intros a; simpl.
  - ring.
  - rewrite IH, (IH (0 + x)). ring.
Qed.

Lemma sumQ_cons (x : Q) (l : list Q) : sumQ (x :: l) == x + sumQ l.
Proof. unfold sumQ at 1. simpl. rewrite sumQ_acc. ring. Qed.

Lemma sumZ_acc (l : list Z) (a : Z) : fold_left Z.add l a = (a + sumZ l)%Z.
Proof.
  unfold sumZ. revert a.
  induction l as [|x t IH]; intros a; simpl; [lia|].
  rewrite IH, (IH x). lia.
Qed.

Lemma sumZ_cons (x : Z) (l : list Z) : sumZ (x :: l) = (x + sumZ l)%Z.
Proof. unfold sumZ at 1. simpl. apply sumZ_acc. Qed.

Lemma sumZ_nonneg (l : list Z) :
  (forall x, In x l -> (0 <= x)%Z) -> (0 <= sumZ l)%Z.
Proof.
  induction l as [|h t IH]; intros H; [unfold sumZ; simpl; lia|].
  rewrite sumZ_cons.
  pose proof (H h (or_introl eq_refl)).
  pose proof (IH (fun x Hx => H x (or_intror Hx))). lia.
Qed.

Lemma sumQ_nonneg (l : list Q) :
  (forall x, In x l -> 0 <= x) -> 0 <= sumQ l.
Proof.
  induction l as [|h t IH]; intros H; [unfold sumQ; simpl; apply Qle_refl|].
  rewrite sumQ_cons. rewrite <- (Qplus_0_l 0).
  apply Qplus_le_compat.
  - apply H. now left.
  - apply IH. intros x Hx. apply H. now right.
Qed.

(** ** numpy arithmetic *)

Lemma wrap64_in_range (z : Z) :
  (- 2 ^ 63 <= z < 2 ^ 63)%Z -> wrap64 z = z.
Proof.
  intros H. unfold wrap64.
  change (2 ^ 63)%Z with 9223372036854775808%Z in *.
  change (2 ^ 64)%Z with 18446744073709551616%Z.
  rewrite Z.mod_small; lia.
Qed.

Lemma in_float64_range_le (a b : Q) :
  0 <= a -> a <= b -> in_float64_range b = true -> in_float64_range a = true.
Proof.
  unfold in_float64_range. intros Ha Hab Hb.
  destruct (Qle_bool float64_limit (Qabs a)) eqn:E; [|reflexivity].
  apply Qle_bool_iff in E.
  assert (H : Qle_bool float64_limit (Qabs b) = true).
  { apply Qle_bool_iff. rewrite Qabs_pos by (eapply Qle_trans; eauto).
    rewrite Qabs_pos in E by trivial. eapply Qle_trans; eauto. }
  rewrite H in Hb. discriminate.
Qed.

Lemma fround_in_range (q : Q) : in_float64_range q = true -> fround q = Num q.
Proof. unfold fround. now intros ->. Qed.

Lemma fround_out_of_range (q : Q) :
  in_float64_range q = false -> fround q = if is_neg q then NInf else PInf.
Proof. unfold fround. now intros ->. Qed.

Lemma fold_Qplus_ge (l : list Q) (a : Q) :
  (forall c, In c l -> 0 <= c) -> a <= fold_left Qplus l a.
Proof.
  intros H. rewrite sumQ_acc. rewrite <- (Qplus_0_r a) at 1.
  apply Qplus_le_compat; [apply Qle_refl | now apply sumQ_nonneg].
Qed.

(** A float64 sum of non-negative cells is the exact sum as long as that
    stays in range. *)
Lemma float64_sum_exact (cells : list Q) (acc : Q) :
  0 <= acc -> (forall c, In c cells -> 0 <= c) ->
  in_float64_range (fold_left Qplus cells acc) = true ->
  fold_left fadd64 (map fround cells) (Num acc)
  = Num (fold_left Qplus cells acc).
Proof.
  revert acc. induction cells as [|c t IH]; intros acc Hacc Hc Hr; [reflexivity|].
  cbn [map fold_left] in *.
  assert (Hc0 : 0 <= c) by (apply Hc; now left).
  assert (Ht : forall x, In x t -> 0 <= x) by (intros x Hx; apply Hc; now right).
  assert (Hac : 0 <= acc + c).
  { rewrite <- (Qplus_0_l 0). now apply Qplus_le_compat. }
  assert (Hge : acc + c <= fold_left Qplus t (acc + c)) by now apply fold_Qplus_ge.
  assert (Hrc : in_float64_range c = true).
  { apply (in_float64_range_le c (fold_left Qplus t (acc + c))); trivial.
    eapply Qle_trans; [|exact Hge].
    rewrite <- (Qplus_0_l c) at 1. apply Qplus_le_compat; [trivial | apply Qle_refl]. }
  assert (Hrac : in_float64_range (acc + c) = true).
  { now apply (in_float64_range_le (acc + c) (fold_left Qplus t (acc + c))). }
  rewrite (fround_in_range c Hrc).
  unfold fadd64 at 2. cbn [fadd overflow]. rewrite (fround_in_range _ Hrac).
  now apply IH.
Qed.

(** The integers of an int64 column add up to the sum of its cells. *)
Lemma int64_sum_exact (cells : list Q) :
  (forall c, In c cells -> c == inject_Z (Qfloor c)) ->
  inject_Z (sumZ (map Qfloor cells)) == sumQ cells.
Proof.
  induction cells as [|c t IH]; intros H; [reflexivity|].
  cbn [map]. rewrite sumZ_cons, sumQ_cons, inject_Z_plus.
  rewrite IH by (intros x Hx; apply H; now right).
  rewrite <- (H c) by now left. reflexivity.
Qed.

Lemma column_sum_exact (dt : dtype) (cells : list Q) :
  sums_exactly dt cells ->
  exists r, to_float (column_sum dt cells) = Num r /\ r == sumQ cells.
Proof.
  destruct dt; cbn [sums_exactly column_sum to_float].
  - intros [Hint Hr]. rewrite (wrap64_in_range _ Hr).
    eexists. split; [reflexivity|]. now apply int64_sum_exact.
  - intros [Hpos Hr]. exists (sumQ cells). split; [|reflexivity].
    apply float64_sum_exact; trivial. apply Qle_refl.
Qed.


(** ** ROAS *)




(** An int64 revenue column whose sum passes 2^63 - 1 wraps around to a
    negative total, and the ROAS with it. *)
Lemma calculate_roas_wraps :
  calculate_roas_numpy int64 int64
    [ mkTracking "organic" None 1 "Protein" 1 (inject_Z (2 ^ 63 - 1));
      mkTracking "organic" None 2 "Protein" 1 1 ]
    sample_payouts
  = (IntVal (- 2 ^ 63), 2%Z, IntVal 1000,
     FloatVal (Num (inject_Z (- 2 ^ 63) / 1000))).
Proof. vm_compute. reflexivity. Qed.

(** Within range the exact sums of [calculate_roas] are the ones numpy
    returns. *)
Lemma calculate_roas_numpy_sums (revenue_dtype payout_dtype : dtype)
  (tracking_f : list TrackingEvent) (payouts : list Payout) :
  sums_exactly revenue_dtype (map revenue tracking_f) ->
  (- 2 ^ 63 <= sumZ (map orders tracking_f) < 2 ^ 63)%Z ->
  sums_exactly payout_dtype (map total_payout payouts) ->
  exists rev spend roas,
    calculate_roas_numpy revenue_dtype payout_dtype tracking_f payouts
    = (rev, snd (fst (fst (calculate_roas tracking_f payouts))), spend, roas) /\
    (exists r, to_float rev = Num r /\
               r == fst (fst (fst (calculate_roas tracking_f payouts)))) /\
    (exists s, to_float spend = Num s /\
               s == snd (fst (calculate_roas tracking_f payouts))).
Proof.
  intros Hr Ho Hs. unfold calculate_roas_numpy, calculate_roas. cbn [fst snd].
  rewrite (wrap64_in_range _ Ho).
  eexists _, _, _. split; [reflexivity|].
  split; now apply column_sum_exact.
Qed.

(** ** The organic baseline *)

Lemma has_source_true (s : string) (r : TrackingEvent) :
  has_source s r = true <-> source r = s.
Proof. apply String.eqb_eq. Qed.

Lemma nunique_pos (l : list Z) : l <> [] -> (1 <= nunique l)%nat.
Proof.
  destruct l as [|x t]; [congruence|]. intros _. unfold nunique.
  assert (Hx : In x (nodup Z.eq_dec (x :: t))) by (apply nodup_In; now left).
  destruct (nodup Z.eq_dec (x :: t)); [contradiction | simpl; lia].
Qed.

Lemma baseline_In (tracking_f : list TrackingEvent) (b : Baseline) :
  In b (baseline tracking_f) <->
  exists p,
    In p (map product (filter (has_source "organic") tracking_f)) /\
    b = (let g := filter (fun r => String.eqb (product r) p)
                    (filter (has_source "organic") tracking_f) in
         mkBaseline p (nunique (map user_id g)) (sumQ (map revenue g))
           (fdiv (Num (sumQ (map revenue g)))
              (of_nat (nunique (map user_id g))))).
Proof.
  unfold baseline. rewrite in_map_iff. split.
  - intros (p & <- & Hp). apply group_keys_In in Hp. now exists p.
  - intros (p & Hp & ->). exists p. split; trivial. now apply group_keys_In.
Qed.

Lemma baseline_product_iff (tracking_f : list TrackingEvent) (p : string) :
  (exists b, In b (baseline tracking_f) /\ b_product b = p) <->
  (exists r, In r tracking_f /\ source r = "organic" /\ product r = p).
Proof.
  split.
  - intros (b & Hb & <-). apply baseline_In in Hb.
    destruct Hb as (p & Hp & ->). apply in_map_iff in Hp.
    destruct Hp as (r & <- & Hr). apply filter_In in Hr.
    exists r. rewrite <- has_source_true. tauto.
  - intros (r & Hr & Hs & <-).
    eexists. split.
    + apply baseline_In. exists (product r). split; [|reflexivity].
      apply in_map, filter_In. now rewrite has_source_true.
    + reflexivity.
Qed.

Lemma baseline_row_quotient (tracking_f : list TrackingEvent) (b : Baseline) :
  In b (baseline tracking_f) ->
  (1 <= org_users b)%nat /\
  rev_per_user b = Num (org_revenue b / inject_Z (Z.of_nat (org_users b))).
Proof.
  intros Hb. apply baseline_In in Hb. destruct Hb as (p & Hp & ->).
  cbn zeta. cbn [org_users rev_per_user org_revenue].
  set (g := filter (fun r => String.eqb (product r) p)
              (filter (has_source "organic") tracking_f)).
  assert (Hpos : (1 <= nunique (map user_id g))%nat).
  { apply nunique_pos. apply in_map_iff in Hp.
    destruct Hp as (r & Hr & Hin).
    assert (Hg : In r g).
    { apply filter_In. split; trivial. now apply String.eqb_eq. }
    destruct g; [contradiction | discriminate]. }
  split; trivial.
  unfold of_nat. apply fdiv_num.
  apply is_zero_false_iff. now apply is_zero_of_nat.
Qed.

(** C9.  Every row of the baseline table counts at least one organic
    user, so [org_revenue / org_users] is an ordinary quotient (no zero
    divisor); a product is in the baseline table exactly when some organic
    row carries it, so a product with no organic row is simply absent. *)
Theorem baseline_division_defined (tracking_f : list TrackingEvent) :
  (forall b, In b (baseline tracking_f) ->
     (1 <= org_users b)%nat /\
     rev_per_user b
     = Num (org_revenue b / inject_Z (Z.of_nat (org_users b)))) /\
  (forall p,
     (exists b, In b (baseline tracking_f) /\ b_product b = p) <->
     (exists r, In r tracking_f /\ source r = "organic" /\ product r = p)).
Proof.
  split; [|apply baseline_product_iff].
  intros b. apply baseline_row_quotient.
Qed.

Lemma baseline_division_defined_witness :
  let b := mkBaseline "Protein" 2 1000 (Num (1000 # 2)) in
  In b (baseline sample_tracking) /\
  (1 <= org_users b)%nat /\
  rev_per_user b = Num (org_revenue b / inject_Z (Z.of_nat (org_users b))).
Proof.
  split.
  - vm_compute. left. reflexivity.
  - apply (proj1 (baseline_division_defined sample_tracking)).
    vm_compute. left. reflexivity.
Defined.

(** ** The iROAS table *)

Section MergeKeeps.
Context {L R O : Type} (on : L -> R -> bool) (c : L -> option R -> O).

(** A left join drops no left row. *)
Lemma merge_left_keeps (ls : list L) (rs : list R) (l : L) :
  In l ls -> exists r, In (c l r) (merge_left on c ls rs).
Proof.
  intros Hl. destruct (filter (on l) rs) as [|m ms] eqn:E.
  - exists None. apply merge_left_In. exists l. split; trivial.
    left. now split.
  - exists (Some m). apply merge_left_In. exists l. split; trivial.
    right. exists m.
    assert (Hm : In m (filter (on l) rs)) by (rewrite E; now left).
    apply filter_In in Hm. tauto.
Qed.
End MergeKeeps.

Lemma filter_none {A : Type} (f : A -> bool) (l : list A) :
  (forall x, In x l -> f x = false) -> filter f l = [].
Proof.
  induction l as [|h t IH]; intros H; simpl; trivial.
  rewrite (H h (or_introl eq_refl)). apply IH. intros x Hx. apply H. now right.
Qed.

Lemma treatment_In (tracking_f : list TrackingEvent) (g : InfGroup) :
  In g (treatment tracking_f) ->
  exists r, In r tracking_f /\ source r = "influencer" /\
            influencer_id r = Some (g_influencer_id g) /\
            product r = g_product g.
Proof.
  unfold treatment. rewrite in_map_iff. intros (k & <- & Hk).
  apply group_keys_In, in_flat_map in Hk. destruct Hk as (r & Hr & Hkr).
  apply filter_In in Hr. destruct Hr as [Hr Hs]. apply has_source_true in Hs.
  exists r. unfold treatment_key in Hkr.
  destruct (influencer_id r) as [i|]; [|contradiction].
  destruct Hkr as [<-|[]]. simpl. tauto.
Qed.

Lemma treatment_has_group (tracking_f : list TrackingEvent)
  (r : TrackingEvent) (i : Z) :
  In r tracking_f -> source r = "influencer" -> influencer_id r = Some i ->
  exists g, In g (treatment tracking_f) /\
            g_influencer_id g = i /\ g_product g = product r.
Proof.
  intros Hr Hs Hi. unfold treatment.
  eexists. split.
  - apply in_map_iff. exists (i, product r). split; [reflexivity|].
    apply group_keys_In, in_flat_map. exists r. split.
    + apply filter_In. now rewrite has_source_true.
    + unfold treatment_key. rewrite Hi. now left.
  - now split.
Qed.

(** Where each row of the table comes from: a treatment group [g], the
    baseline row matched on its product (if any) and the payout row
    matched on its influencer (if any). *)
Lemma inf_perf_table_In (tracking_f : list TrackingEvent)
  (payouts : list Payout) (r : InfPerf) :
  In r (inf_perf_table tracking_f payouts) ->
  exists g b p,
    r = with_payout (with_baseline g b) p /\
    In g (treatment tracking_f) /\
    match b with
    | Some x => In x (baseline tracking_f) /\ b_product x = g_product g
    | None => True
    end /\
    match p with
    | Some x => In x payouts /\ pay_influencer_id x = g_influencer_id g
    | None => forall x, In x payouts -> pay_influencer_id x <> g_influencer_id g
    end.
Proof.
  unfold inf_perf_table. intros Hr.
  apply merge_left_In in Hr. destruct Hr as (ib & Hib & Hp).
  apply merge_left_In in Hib. destruct Hib as (g & Hg & Hb).
  assert (Hbase : exists b, ib = with_baseline g b /\
            match b with
            | Some x => In x (baseline tracking_f) /\ b_product x = g_product g
            | None => True
            end).
  { destruct Hb as [[_ ->]|(b & Hb & Hon & ->)].
    - now exists None.
    - exists (Some b). apply String.eqb_eq in Hon. now repeat split. }
  destruct Hbase as (b & -> & Hbm).
  destruct Hp as [[E ->]|(p & Hp & Hon & ->)].
  - exists g, b, None. repeat split; trivial.
    intros x Hx Heq.
    assert (Hin : In x (filter
              (fun p => Z.eqb (g_influencer_id (grp (with_baseline g b)))
                          (pay_influencer_id p)) payouts)).
    { apply filter_In. split; trivial. simpl. now apply Z.eqb_eq. }
    rewrite E in Hin. contradiction.
  - exists g, b, (Some p). simpl in Hon. apply Z.eqb_eq in Hon.
    now repeat split.
Qed.

(** C4.  Every row of the iROAS table has
    iROAS = incremental_revenue / (total_payout + 1e-9): one formula, with
    no branch on a zero payout and no sentinel.  So a row whose
    incremental revenue is NaN has a NaN iROAS whatever its payout, zero
    included.  When both operands are numbers and the payout is not
    negative the divisor is positive and the iROAS is the quotient,
    incremental_revenue / 1e-9 for a zero payout: a number while it stays
    in the float64 range, an infinity in float64 beyond. *)
Theorem iroas_is_epsilon_quotient (tracking_f : list TrackingEvent)
  (payouts : list Payout) (r : InfPerf) :
  In r (fst (calculate_iroas tracking_f payouts)) ->
  iROAS r
  = fdiv (ip_incremental_revenue r) (fadd (ip_total_payout r) (Num epsilon)) /\
  (ip_incremental_revenue r = NaN -> iROAS r = NaN) /\
  (forall x p, ip_incremental_revenue r = Num x -> ip_total_payout r = Num p ->
     0 <= p ->
     (in_float64_range (x / (p + epsilon)) = true ->
      iROAS r = Num (x / (p + epsilon))) /\
     (in_float64_range (x / (p + epsilon)) = false ->
      overflow (iROAS r) = if is_neg (x / (p + epsilon)) then NInf else PInf) /\
     (p == 0 -> x / (p + epsilon) == x / epsilon)).
Proof.
  cbn [calculate_iroas fst]. intros Hr.
  apply inf_perf_table_In in Hr. destruct Hr as (g & b & p & -> & _).
  assert (F : iROAS (with_payout (with_baseline g b) p)
              = fdiv (ip_incremental_revenue (with_payout (with_baseline g b) p))
                  (fadd (ip_total_payout (with_payout (with_baseline g b) p))
                     (Num epsilon))) by reflexivity.
  split; trivial. split.
  { intros E. rewrite F, E. reflexivity. }
  intros x q Hx Hq Hq0.
  assert (E : iROAS (with_payout (with_baseline g b) p) = Num (x / (q + epsilon))).
  { rewrite F, Hx, Hq. cbn [fadd]. apply fdiv_num.
    intros E.
    assert (Hpos : 0 < q + epsilon).
    { rewrite <- (Qplus_0_l 0), (Qplus_comm q epsilon).
      apply Qplus_lt_le_compat; trivial. apply epsilon_pos. }
    rewrite E in Hpos. now apply Qlt_irrefl in Hpos. }
  split; [intros _; exact E|]. split.
  - intros Hout. rewrite E. cbn [overflow]. now apply fround_out_of_range.
  - intros H0. rewrite H0, Qplus_0_l. reflexivity.
Qed.

Lemma calculate_iroas_sample :
  calculate_iroas sample_tracking sample_payouts
  = ([sample_row_3_protein; sample_row_7_protein; sample_row_7_snack],
     Num (1000000000000 # 2000000000002)).
Proof. vm_compute. reflexivity. Qed.

Lemma calculate_iroas_zero_payout :
  calculate_iroas sample_tracking zero_payouts
  = ([ mkInfPerf (perf sample_row_3_protein) NaN NaN;
       zero_payout_row_7_protein; zero_payout_row_7_snack ],
     Num (1000000000000 # 2)).
Proof. vm_compute. reflexivity. Qed.

Lemma iroas_is_epsilon_quotient_witness :
  In zero_payout_row_7_protein
    (fst (calculate_iroas sample_tracking zero_payouts)) /\
  iROAS zero_payout_row_7_protein = Num ((1000 # 2) / (0 + epsilon)) /\
  (1000 # 2) / (0 + epsilon) == (1000 # 2) / epsilon.
Proof.
  assert (Hin : In zero_payout_row_7_protein
                  (fst (calculate_iroas sample_tracking zero_payouts))).
  { rewrite calculate_iroas_zero_payout. right. left. reflexivity. }
  split; [exact Hin|].
  destruct (iroas_is_epsilon_quotient sample_tracking zero_payouts
              zero_payout_row_7_protein Hin) as (_ & _ & H).
  destruct (H (1000 # 2) 0 eq_refl eq_refl (Qle_refl 0)) as (Hq & _ & H0).
  split; [apply Hq; reflexivity | apply H0; reflexivity].
Defined.

(** The claim as stated: every row with a zero payout has a finite iROAS.
    Under [zero_payouts] the ("Snack", influencer 7) row has payout 0 and,
    "Snack" having no organic baseline, an iROAS of NaN. *)
Lemma zero_payout_finite_counterexample :
  ~ (forall tracking_f payouts r,
       In r (fst (calculate_iroas tracking_f payouts)) ->
       ip_total_payout r = Num 0 ->
       is_finite (iROAS r) = true).
Proof.
  intros H.
  specialize (H sample_tracking zero_payouts zero_payout_row_7_snack).
  rewrite calculate_iroas_zero_payout in H.
  discriminate H; [right; right; left|]; reflexivity.
Qed.

(** With a baseline as well the quotient can leave the float64 range: an
    incremental revenue of 1e300 over a zero payout is 1e309. *)
Lemma zero_payout_overflows :
  map (fun r => (ip_total_payout r, overflow (iROAS r)))
    (fst (calculate_iroas
            [ mkTracking "organic" None 1 "Protein" 0 0;
              mkTracking "influencer" (Some 7%Z) 3 "Protein" 1
                (inject_Z (10 ^ 300)) ]
            zero_payouts))
  = [ (Num 0, PInf) ].
Proof. vm_compute. reflexivity. Qed.

(** ** Products without an organic baseline *)

Lemma no_organic_no_baseline (tracking_f : list TrackingEvent) (p : string) :
  (forall e, In e tracking_f -> source e = "organic" -> product e <> p) ->
  forall b, In b (baseline tracking_f) -> b_product b <> p.
Proof.
  intros Hno b Hb Hp.
  destruct (proj1 (baseline_product_iff tracking_f p)) as (e & He & Hs & Hpe).
  - now exists b.
  - exact (Hno e He Hs Hpe).
Qed.

(** C1, as the code has it.  A group whose product has no organic row
    finds no baseline row in the left join: its [rev_per_user] is missing
    (NaN), and the missing value goes through the expected baseline
    revenue, the incremental revenue and the iROAS. *)
Theorem no_baseline_propagates_nan (tracking_f : list TrackingEvent)
  (payouts : list Payout) (r : InfPerf) :
  In r (fst (calculate_iroas tracking_f payouts)) ->
  (forall e, In e tracking_f -> source e = "organic" ->
             product e <> ip_product r) ->
  ip_rev_per_user r = NaN /\
  ip_expected_baseline_rev r = NaN /\
  ip_incremental_revenue r = NaN /\
  iROAS r = NaN.
Proof.
  cbn [calculate_iroas fst]. intros Hr Hno.
  apply inf_perf_table_In in Hr.
  destruct Hr as (g & b & p & -> & _ & Hb & _).
  destruct b as [b|].
  - exfalso. destruct Hb as [Hb Hp].
    exact (no_organic_no_baseline tracking_f _ Hno b Hb Hp).
  - repeat split.
Qed.

Lemma no_baseline_propagates_nan_witness :
  ip_rev_per_user sample_row_7_snack = NaN /\
  ip_expected_baseline_rev sample_row_7_snack = NaN /\
  ip_incremental_revenue sample_row_7_snack = NaN /\
  iROAS sample_row_7_snack = NaN.
Proof.
  apply (no_baseline_propagates_nan sample_tracking sample_payouts).
  - vm_compute. right. right. left. reflexivity.
  - intros e He Hs Hp. vm_compute in He.
    repeat (destruct He as [<-|He]; [discriminate|]). exact He.
Defined.

(** C1 as stated fails: the "Snack" group of influencer 7 has no organic
    baseline, and its revenue per user and incremental revenue are NaN,
    not 0 and the full revenue of 499. *)
Lemma no_baseline_zero_counterexample :
  ~ (forall tracking_f payouts r,
       In r (fst (calculate_iroas tracking_f payouts)) ->
       (forall e, In e tracking_f -> source e = "organic" ->
                  product e <> ip_product r) ->
       exists rpu inc,
         ip_rev_per_user r = Num rpu /\ rpu == 0 /\
         ip_incremental_revenue r = Num inc /\ inc == ip_inf_revenue r).
Proof.
  intros H.
  destruct (H sample_tracking sample_payouts sample_row_7_snack)
    as (rpu & inc & Hrpu & _).
  - vm_compute. right. right. left. reflexivity.
  - intros e He Hs Hp. vm_compute in He.
    repeat (destruct He as [<-|He]; [discriminate|]). exact He.
  - discriminate Hrpu.
Qed.

(** X2.  For a row whose product has an organic row, the left join on
    product finds the baseline row of that product: the row carries its
    rev_per_user, which is org_revenue / org_users with org_users at least
    1; its expected baseline revenue is rev_per_user * inf_users and its
    incremental revenue is inf_revenue - expected_baseline_rev. *)
Lemma incremental_revenue_with_baseline (tracking_f : list TrackingEvent)
  (payouts : list Payout) (r : InfPerf) :
  In r (fst (calculate_iroas tracking_f payouts)) ->
  (exists e, In e tracking_f /\ source e = "organic" /\
             product e = ip_product r) ->
  exists b, In b (baseline tracking_f) /\ b_product b = ip_product r /\
    (1 <= org_users b)%nat /\
    rev_per_user b = fdiv (Num (org_revenue b)) (of_nat (org_users b)) /\
    ip_rev_per_user r = rev_per_user b /\
    ip_expected_baseline_rev r
    = fmul (rev_per_user b) (of_nat (ip_inf_users r)) /\
    ip_incremental_revenue r
    = fsub (Num (ip_inf_revenue r)) (ip_expected_baseline_rev r).
Proof.
  cbn [calculate_iroas fst]. unfold inf_perf_table. intros Hr Horg.
  apply merge_left_In in Hr. destruct Hr as (ib & Hib & Hp).
  assert (Hperf : perf r = ib).
  { destruct Hp as [[_ ->]|(p & _ & _ & ->)]; reflexivity. }
  apply merge_left_In in Hib. destruct Hib as (g & Hg & Hb).
  unfold ip_product, ip_rev_per_user, ip_incremental_revenue,
    ip_expected_baseline_rev, ip_inf_revenue, ip_inf_users in *.
  rewrite Hperf in *. clear Hperf Hp r.
  destruct Hb as [[E ->]|(b & Hb & Hon & ->)].
  - exfalso. cbn [grp with_baseline] in Horg.
    apply baseline_product_iff in Horg. destruct Horg as (b & Hb & Hp).
    assert (Hin : In b (filter
              (fun b => String.eqb (g_product g) (b_product b))
              (baseline tracking_f))).
    { apply filter_In. split; trivial. now apply String.eqb_eq. }
    rewrite E in Hin. contradiction.
  - apply String.eqb_eq in Hon. exists b.
    destruct (baseline_row_quotient tracking_f b Hb) as [Hu _].
    assert (Hq : rev_per_user b
                 = fdiv (Num (org_revenue b)) (of_nat (org_users b))).
    { apply baseline_In in Hb. destruct Hb as (p & _ & ->). reflexivity. }
    cbn [grp with_baseline ib_rev_per_user incremental_revenue
         expected_baseline_rev joined].
    now repeat split.
Qed.

(** ** Influencers without a payout row *)

Lemma inf_perf_table_keeps (tracking_f : list TrackingEvent)
  (payouts : list Payout) (g : InfGroup) :
  In g (treatment tracking_f) ->
  exists r, In r (inf_perf_table tracking_f payouts) /\ grp (perf r) = g.
Proof.
  intros Hg. unfold inf_perf_table.
  destruct (merge_left_keeps
              (fun g b => String.eqb (g_product g) (b_product b))
              with_baseline (treatment tracking_f) (baseline tracking_f) g Hg)
    as (b & Hb).
  destruct (merge_left_keeps
              (fun b p => Z.eqb (g_influencer_id (grp b)) (pay_influencer_id p))
              with_payout _ payouts _ Hb) as (p & Hp).
  eexists. split; [exact Hp | reflexivity].
Qed.

(** C3, as the code has it.  A group whose influencer has no payout row
    stays in the table (the left join drops nothing), but its
    [total_payout] is missing (NaN), not 0, and so is its iROAS. *)
Theorem unmatched_payout_kept_as_nan (tracking_f : list TrackingEvent)
  (payouts : list Payout) (i : Z) (p : string) :
  (exists e, In e tracking_f /\ source e = "influencer" /\
             influencer_id e = Some i /\ product e = p) ->
  (forall x, In x payouts -> pay_influencer_id x <> i) ->
  (exists r, In r (fst (calculate_iroas tracking_f payouts)) /\
             ip_influencer_id r = i /\ ip_product r = p) /\
  (forall r, In r (fst (calculate_iroas tracking_f payouts)) ->
             ip_influencer_id r = i ->
             ip_total_payout r = NaN /\ iROAS r = NaN).
Proof.
  cbn [calculate_iroas fst]. intros (e & He & Hs & Hi & Hp) Hno. split.
  - destruct (treatment_has_group tracking_f e i He Hs Hi)
      as (g & Hg & Hgi & Hgp).
    destruct (inf_perf_table_keeps tracking_f payouts g Hg) as (r & Hr & Hrg).
    exists r. unfold ip_influencer_id, ip_product. rewrite Hrg.
    repeat split; congruence.
  - intros r Hr Hri. apply inf_perf_table_In in Hr.
    destruct Hr as (g & b & q & -> & _ & _ & Hq).
    destruct q as [x|].
    + exfalso. destruct Hq as [Hx Hxi]. apply (Hno x Hx).
      rewrite Hxi. exact Hri.
    + split; [reflexivity|]. cbn. apply fdiv_nan_r.
Qed.

Lemma unmatched_payout_kept_as_nan_witness :
  (exists r, In r (fst (calculate_iroas sample_tracking sample_payouts)) /\
             ip_influencer_id r = 3%Z /\ ip_product r = "Protein") /\
  (forall r, In r (fst (calculate_iroas sample_tracking sample_payouts)) ->
             ip_influencer_id r = 3%Z ->
             ip_total_payout r = NaN /\ iROAS r = NaN).
Proof.
  apply (unmatched_payout_kept_as_nan sample_tracking sample_payouts).
  - exists (mkTracking "influencer" (Some 3%Z) 6 "Protein" 0 0).
    repeat split. vm_compute. do 6 right. left. reflexivity.
  - intros x Hx. vm_compute in Hx. destruct Hx as [<-|[]]. discriminate.
Defined.

(** C3 as stated fails: influencer 3 of the sample has no payout row; its
    row is kept, but its spend is NaN rather than 0 and its iROAS is NaN
    rather than a finite number. *)
Lemma unmatched_payout_zero_counterexample :
  ~ (forall tracking_f payouts i p,
       (exists e, In e tracking_f /\ source e = "influencer" /\
                  influencer_id e = Some i /\ product e = p) ->
       (forall x, In x payouts -> pay_influencer_id x <> i) ->
       exists r, In r (fst (calculate_iroas tracking_f payouts)) /\
                 ip_influencer_id r = i /\ ip_product r = p /\
                 (exists s, ip_total_payout r = Num s /\ s == 0) /\
                 is_finite (iROAS r) = true).
Proof.
  intros H.
  destruct (H sample_tracking sample_payouts 3%Z "Protein")
    as (r & Hr & Hi & _ & (s & Hs & _) & _).
  - exists (mkTracking "influencer" (Some 3%Z) 6 "Protein" 0 0).
    repeat split. vm_compute. do 6 right. left. reflexivity.
  - intros x Hx. vm_compute in Hx. destruct Hx as [<-|[]]. discriminate.
  - rewrite calculate_iroas_sample in Hr. cbn [fst] in Hr.
    destruct Hr as [<-|[<-|[<-|[]]]]; discriminate.
Qed.

(** ** No influencer-sourced rows *)

Lemma merge_left_nil {L R O : Type} (on : L -> R -> bool)
  (c : L -> option R -> O) (ls : list L) (rs : list R) :
  merge_left on c ls rs = [] -> ls = [].
Proof.
  destruct ls as [|l t]; trivial. unfold merge_left. cbn [flat_map].
  destruct (filter (on l) rs); discriminate.
Qed.

(** The call raises exactly when the treatment population and the payout
    table are both empty and one of the two [influencer_id] columns is
    [object] and the other float64; otherwise it returns what
    [calculate_iroas] computes. *)
Lemma calculate_iroas_checked_returns (tracking_keys payout_keys : key_dtype)
  (tracking_f : list TrackingEvent) (payouts : list Payout) :
  treatment tracking_f <> [] \/ payouts <> [] \/
  keys_compatible tracking_keys payout_keys = true ->
  calculate_iroas_checked tracking_keys payout_keys tracking_f payouts
  = Some (calculate_iroas tracking_f payouts).
Proof.
  intros H. unfold calculate_iroas_checked, calculate_iroas, inf_perf_table.
  set (with_base := merge_left _ with_baseline _ _).
  assert (E1 : merge_left_checked object_keys object_keys
                 (fun g b => String.eqb (g_product g) (b_product b))
                 with_baseline (treatment tracking_f) (baseline tracking_f)
               = Some with_base).
  { unfold merge_left_checked.
    destruct (treatment tracking_f), (baseline tracking_f); reflexivity. }
  rewrite E1. unfold merge_left_checked.
  destruct with_base as [|b t] eqn:Eb; [|reflexivity].
  destruct payouts as [|p ps]; [|reflexivity].
  destruct H as [H|[H|H]].
  - exfalso. apply H. now apply merge_left_nil in Eb.
  - now contradiction H.
  - now rewrite H.
Qed.

Lemma calculate_iroas_checked_raises (tracking_keys payout_keys : key_dtype)
  (tracking_f : list TrackingEvent) :
  treatment tracking_f = [] ->
  keys_compatible tracking_keys payout_keys = false ->
  calculate_iroas_checked tracking_keys payout_keys tracking_f [] = None.
Proof.
  intros Ht Hk. unfold calculate_iroas_checked, merge_left_checked.
  rewrite Ht. cbn [merge_left flat_map].
  destruct (baseline tracking_f); cbn [keys_compatible]; now rewrite Hk.
Qed.

Lemma calculate_iroas_no_influencer_rows (tracking_f : list TrackingEvent)
  (payouts : list Payout) :
  (forall e, In e tracking_f -> source e <> "influencer") ->
  treatment tracking_f = [] /\ calculate_iroas tracking_f payouts = ([], NaN).
Proof.
  intros Hno.
  assert (E : filter (has_source "influencer") tracking_f = []).
  { apply filter_none. intros e He.
    destruct (has_source "influencer" e) eqn:Hs; trivial.
    apply has_source_true in Hs. now apply Hno in He. }
  unfold calculate_iroas, inf_perf_table, treatment. rewrite E.
  split; reflexivity.
Qed.

(** C2, as the code has it.  With no influencer-sourced row the iROAS
    table is empty, and the mean of its empty iROAS column is NaN, not 0.
    That is what the call returns when the payout table has a row, or has
    none but keys of the same dtype as the tracking table's.  When the
    payout table is empty and one key column is [object] and the other
    float64 (a header-only payouts file against a tracking table with a
    missing influencer_id), the merge on [influencer_id] raises
    instead. *)
Theorem no_influencer_rows_empty_nan (tracking_keys payout_keys : key_dtype)
  (tracking_f : list TrackingEvent) (payouts : list Payout) :
  (forall e, In e tracking_f -> source e <> "influencer") ->
  (payouts <> [] \/ tracking_keys = payout_keys ->
   calculate_iroas_checked tracking_keys payout_keys tracking_f payouts
   = Some ([], NaN)) /\
  (payouts = [] -> keys_compatible tracking_keys payout_keys = false ->
   calculate_iroas_checked tracking_keys payout_keys tracking_f payouts
   = None).
Proof.
  intros Hno.
  destruct (calculate_iroas_no_influencer_rows tracking_f payouts Hno)
    as [Ht E].
  split.
  - intros H. rewrite calculate_iroas_checked_returns, E; trivial.
    right. destruct H as [H| ->]; [now left | right].
    now destruct payout_keys.
  - intros -> Hk. now apply calculate_iroas_checked_raises.
Qed.

(** Paid-ad traffic only, loaded from files: with the sample payout
    table the call returns, with a header-only payouts file it raises. *)
Lemma no_influencer_rows_empty_nan_witness :
  calculate_iroas_checked
    (loaded_tracking_keys paid_only_tracking)
    (loaded_payout_keys sample_payouts)
    paid_only_tracking sample_payouts = Some ([], NaN) /\
  calculate_iroas_checked
    (loaded_tracking_keys paid_only_tracking) (loaded_payout_keys [])
    paid_only_tracking [] = None.
Proof.
  assert (Hno : forall e, In e paid_only_tracking -> source e <> "influencer").
  { intros e He. vm_compute in He.
    repeat (destruct He as [<-|He]; [discriminate|]). destruct He. }
  split.
  - apply (no_influencer_rows_empty_nan
             (loaded_tracking_keys paid_only_tracking)
             (loaded_payout_keys sample_payouts)
             paid_only_tracking sample_payouts Hno).
    left. discriminate.
  - apply (no_influencer_rows_empty_nan
             (loaded_tracking_keys paid_only_tracking) (loaded_payout_keys [])
             paid_only_tracking [] Hno); reflexivity.
Defined.

(** C2 as stated fails: with paid-ad traffic only and the sample payout
    table the call returns, and the overall iROAS is NaN, not 0. *)
Lemma empty_mean_zero_counterexample :
  ~ (forall tracking_keys payout_keys tracking_f payouts,
       (forall e, In e tracking_f -> source e <> "influencer") ->
       exists q,
         calculate_iroas_checked tracking_keys payout_keys tracking_f payouts
         = Some ([], Num q) /\ q == 0).
Proof.
  intros H.
  destruct (H (loaded_tracking_keys paid_only_tracking)
              (loaded_payout_keys sample_payouts)
              paid_only_tracking sample_payouts)
    as (q & Hq & _).
  - intros e He. vm_compute in He.
    repeat (destruct He as [<-|He]; [discriminate|]). destruct He.
  - vm_compute in Hq. discriminate Hq.
Qed.

(** ** The overall iROAS *)

Lemma fsum_acc_num (qs : list Q) (a : Q) :
  fold_left fadd (map Num qs) (Num a) = Num (fold_left Qplus qs a).
Proof.
  revert a. induction qs as [|q t IH]; intros a; simpl; [reflexivity|].
  apply IH.
Qed.

Lemma fsum_num (qs : list Q) : fsum (map Num qs) = Num (sumQ qs).
Proof. apply fsum_acc_num. Qed.

Lemma filter_all {A : Type} (f : A -> bool) (l : list A) :
  forallb f l = true -> filter f l = l.
Proof.
  induction l as [|h t IH]; simpl; trivial.
  intros H. apply andb_true_iff in H. destruct H as [Hh Ht].
  rewrite Hh. f_equal. now apply IH.
Qed.

Lemma mean_all_defined (l : list fval) :
  forallb notna l = true -> l <> [] ->
  mean l = fdiv (fsum l) (of_nat (List.length l)).
Proof.
  intros Hall Hne. unfold mean. rewrite (filter_all _ _ Hall).
  destruct l; [congruence | reflexivity].
Qed.

Lemma forallb_notna_num (qs : list Q) : forallb notna (map Num qs) = true.
Proof. induction qs; simpl; trivial. Qed.

Lemma mean_num (qs : list Q) :
  qs <> [] ->
  mean (map Num qs) = Num (sumQ qs / inject_Z (Z.of_nat (List.length qs))).
Proof.
  intros Hne. rewrite mean_all_defined.
  - rewrite fsum_num, length_map. unfold of_nat. apply fdiv_num.
    apply is_zero_false_iff, is_zero_of_nat.
    destruct qs; [congruence | simpl; lia].
  - apply forallb_notna_num.
  - destruct qs; [congruence | discriminate].
Qed.

(** C6, as the code has it.  The overall iROAS is the unweighted mean of
    the iROAS cells that are not missing: rows whose iROAS is NaN count
    neither in the sum nor in the number of rows, and with no defined cell
    the result is NaN.  When no cell is missing this is the sum of the
    column over the number of rows, every row with weight one. *)
Theorem overall_iroas_mean_of_defined (tracking_f : list TrackingEvent)
  (payouts : list Payout) :
  let table := fst (calculate_iroas tracking_f payouts) in
  let overall := snd (calculate_iroas tracking_f payouts) in
  let defined := filter notna (map iROAS table) in
  (defined = [] -> overall = NaN) /\
  (defined <> [] ->
   overall = fdiv (fsum defined) (of_nat (List.length defined))) /\
  (forallb notna (map iROAS table) = true -> table <> [] ->
   overall = fdiv (fsum (map iROAS table)) (of_nat (List.length table))) /\
  (forall qs, map iROAS table = map Num qs -> qs <> [] ->
   overall = Num (sumQ qs / inject_Z (Z.of_nat (List.length qs)))).
Proof.
  cbn [calculate_iroas fst snd]. cbv zeta.
  set (table := inf_perf_table tracking_f payouts).
  split; [|split; [|split]].
  - intros E. unfold mean. now rewrite E.
  - intros Hne. unfold mean.
    destruct (filter notna (map iROAS table)); [congruence | reflexivity].
  - intros Hall Hne. rewrite mean_all_defined; trivial.
    + now rewrite length_map.
    + destruct table; [congruence | discriminate].
  - intros qs E Hne. rewrite E. now apply mean_num.
Qed.

(** On [two_group_tracking] the iROAS column is [NaN; a; b] with
    a = 500 / (1000 + 1e-9) and b = 300 / (100 + 1e-9): the overall iROAS
    is (a + b) / 2. *)
Lemma overall_iroas_mean_of_defined_witness :
  snd (calculate_iroas two_group_tracking two_group_payouts)
  = fdiv (fsum [Num two_group_iroas_7; Num two_group_iroas_8]) (of_nat 2).
Proof.
  apply (overall_iroas_mean_of_defined two_group_tracking two_group_payouts).
  vm_compute. discriminate.
Defined.

(** That mean gives each of the two rows weight one half: it is neither
    the first cell, nor the pooled incremental revenue over the pooled
    spend (the spend-weighted mean), nor the mean weighted by influencer
    revenue. *)
Lemma two_group_overall_is_unweighted :
  exists q,
    snd (calculate_iroas two_group_tracking two_group_payouts) = Num q /\
    q == (two_group_iroas_7 + two_group_iroas_8) / 2 /\
    ~ q == two_group_iroas_7 /\
    ~ q == (500 + 300) / ((1000 + epsilon) + (100 + epsilon)) /\
    ~ q == (2000 * two_group_iroas_7 + 400 * two_group_iroas_8) / (2000 + 400).
Proof.
  eexists. split; [vm_compute; reflexivity|].
  repeat split; vm_compute; discriminate.
Qed.

(** C6 as stated fails on a table with a missing iROAS: in the sample the
    column is [NaN; 0.49999...; NaN] and the overall iROAS is 0.49999...,
    the mean over the one defined row, not the sum of the column over its
    three rows. *)
Lemma overall_iroas_all_rows_counterexample :
  ~ (forall tracking_f payouts,
       fst (calculate_iroas tracking_f payouts) <> [] ->
       snd (calculate_iroas tracking_f payouts)
       = fdiv (fsum (map iROAS (fst (calculate_iroas tracking_f payouts))))
           (of_nat (List.length (fst (calculate_iroas tracking_f payouts))))).
Proof.
  intros H. specialize (H sample_tracking sample_payouts).
  rewrite calculate_iroas_sample in H. cbn [fst snd] in H.
  assert (Hne : [sample_row_3_protein; sample_row_7_protein;
                 sample_row_7_snack] <> []) by discriminate.
  specialize (H Hne). vm_compute in H. discriminate H.
Qed.

(** ** Paid-ad rows *)

Lemma filter_filter_implied {A : Type} (f g : A -> bool) (l : list A) :
  (forall x, f x = true -> g x = true) ->
  filter f (filter g l) = filter f l.
Proof.
  intros Himp. induction l as [|h t IH]; simpl; trivial.
  destruct (g h) eqn:Eg; simpl.
  - destruct (f h); [f_equal|]; exact IH.
  - destruct (f h) eqn:Ef; [|exact IH].
    apply Himp in Ef. congruence.
Qed.







(** ** The top-influencers table *)

Lemma firstn_In {A : Type} (n : nat) (l : list A) (x : A) :
  In x (firstn n l) -> In x l.
Proof.
  intros H. rewrite <- (firstn_skipn n l). apply in_or_app. now left.
Qed.

Lemma head_In {A : Type} (n : Z) (l : list A) (x : A) :
  In x (head n l) -> In x l.
Proof. unfold head. destruct (0 <=? n)%Z; apply firstn_In. Qed.

Lemma head_length {A : Type} (n : Z) (l : list A) :
  (0 <= n)%Z -> (Z.of_nat (List.length (head n l)) <= n)%Z.
Proof.
  intros Hn. unfold head.
  destruct (Z.leb_spec 0 n) as [_|C]; [|lia].
  pose proof (firstn_le_length (Z.to_nat n) l). lia.
Qed.

Lemma head_all {A : Type} (n : Z) (l : list A) :
  (Z.of_nat (List.length l) <= n)%Z -> head n l = l.
Proof.
  intros Hn. unfold head.
  destruct (Z.leb_spec 0 n) as [_|C]; [|lia].
  apply firstn_all2. lia.
Qed.




Lemma flat_map_length_one {A B : Type} (f : A -> list B) (l : list A) :
  (forall x, In x l -> List.length (f x) = 1%nat) ->
  List.length (flat_map f l) = List.length l.
Proof.
  induction l as [|h t IH]; intros H; cbn [flat_map List.length]; trivial.
  rewrite length_app, (H h (or_introl eq_refl)), IH; trivial.
  intros x Hx. apply H. now right.
Qed.

Lemma flat_map_length_le_one {A B : Type} (f : A -> list B) (l : list A) :
  (forall x, In x l -> (List.length (f x) <= 1)%nat) ->
  (List.length (flat_map f l) <= List.length l)%nat.
Proof.
  induction l as [|h t IH]; intros H; cbn [flat_map List.length]; trivial.
  rewrite length_app.
  pose proof (H h (or_introl eq_refl)).
  pose proof (IH (fun x Hx => H x (or_intror Hx))). lia.
Qed.

Section MergeLength.
Context {L R O : Type} (on : L -> R -> bool).

Lemma merge_left_length (c : L -> option R -> O) (ls : list L)
  (rs : list R) :
  (forall l, In l ls -> (List.length (filter (on l) rs) <= 1)%nat) ->
  List.length (merge_left on c ls rs) = List.length ls.
Proof.
  intros H. apply flat_map_length_one. intros l Hl.
  specialize (H l Hl).
  destruct (filter (on l) rs) as [|m [|m' ms]]; simpl in *; lia.
Qed.

Lemma merge_inner_length (c : L -> R -> O) (ls : list L) (rs : list R) :
  (forall l, In l ls -> (List.length (filter (on l) rs) <= 1)%nat) ->
  (List.length (merge_inner on c ls rs) <= List.length ls)%nat.
Proof.
  intros H. apply flat_map_length_le_one. intros l Hl.
  rewrite length_map. now apply H.
Qed.
End MergeLength.

(** A unique key matches at most one row. *)
Lemma unique_key_matches {R : Type} (key : R -> Z) (rs : list R) (k : Z) :
  NoDup (map key rs) ->
  (List.length (filter (fun r => Z.eqb k (key r)) rs) <= 1)%nat.
Proof.
  induction rs as [|h t IH]; simpl; intros Hnd; [lia|].
  inversion Hnd as [|? ? Hh Ht]; subst.
  destruct (Z.eqb_spec k (key h)) as [E|E].
  - rewrite filter_none; [simpl; lia|].
    intros x Hx. destruct (Z.eqb_spec k (key x)) as [Ex|]; trivial.
    exfalso. apply Hh. rewrite <- E, Ex. now apply in_map.
  - now apply IH.
Qed.

Lemma post_metrics_keys (posts_f : list Post) :
  NoDup (map pm_influencer_id (post_metrics posts_f)).
Proof.
  unfold post_metrics. rewrite map_map. cbn [pm_influencer_id].
  rewrite map_id. apply group_keys_NoDup.
Qed.

Lemma revenue_by_influencer_length (tracking_f : list TrackingEvent) :
  List.length (revenue_by_influencer tracking_f)
  = distinct_influencers tracking_f.
Proof.
  unfold revenue_by_influencer, distinct_influencers, nunique.
  now rewrite length_map, group_keys_length.
Qed.

Lemma top_inf_table_length (tracking_f : list TrackingEvent)
  (posts_f : list Post) (payouts : list Payout)
  (influencers : list Influencer) :
  NoDup (map id influencers) ->
  NoDup (map pay_influencer_id payouts) ->
  (List.length (top_inf_table tracking_f posts_f payouts influencers)
   <= distinct_influencers tracking_f)%nat.
Proof.
  intros Hroster Hpay. unfold top_inf_table.
  rewrite merge_left_length
    by (intros t _; now apply (unique_key_matches pay_influencer_id)).
  rewrite merge_left_length
    by (intros t _; apply (unique_key_matches pm_influencer_id),
                      post_metrics_keys).
  rewrite <- revenue_by_influencer_length.
  apply merge_inner_length.
  intros g _. now apply (unique_key_matches id).
Qed.

(** Every row of the joined table pairs a revenue group with the roster
    entry of the same id. *)
Lemma top_inf_table_In (tracking_f : list TrackingEvent)
  (posts_f : list Post) (payouts : list Payout)
  (influencers : list Influencer) (r : TopInf) :
  In r (top_inf_table tracking_f posts_f payouts influencers) ->
  In (agg r) (revenue_by_influencer tracking_f) /\
  In (who r) influencers /\
  id (who r) = top_influencer_id r.
Proof.
  unfold top_inf_table, top_influencer_id. intros Hr.
  apply merge_left_In in Hr. destruct Hr as (t & Ht & Hr).
  assert (Hagg : agg r = fst (fst t) /\ who r = snd (fst t)).
  { destruct Hr as [[_ ->]|(p & _ & _ & ->)]; now split. }
  destruct Hagg as [-> ->]. clear Hr.
  apply merge_left_In in Ht. destruct Ht as (gi & Hgi & Ht).
  assert (E : fst t = gi).
  { destruct Ht as [[_ ->]|(m & _ & _ & ->)]; reflexivity. }
  rewrite E. clear E Ht.
  apply merge_inner_In in Hgi.
  destruct Hgi as (g & i & Hg & Hi & Hon & ->).
  apply Z.eqb_eq in Hon. cbn [fst snd].
  split; [exact Hg | split; [exact Hi | now symmetry]].
Qed.






(** The unique keys matter for the last part: with two payout rows for
    influencer 7 the joined table has two rows for one influencer, and
    N = 1 leaves one of them out. *)
Lemma duplicate_payouts_more_rows :
  distinct_influencers protein_tracking = 1%nat /\
  List.length (top_inf_table protein_tracking sample_posts
                 (sample_payouts ++ zero_payouts) sample_influencers) = 2%nat /\
  List.length (get_top_influencers protein_tracking sample_posts
                 (sample_payouts ++ zero_payouts) sample_influencers 1) = 1%nat.
Proof. repeat split; vm_compute; reflexivity. Qed.

(** Influencers 7 and 8 with a revenue of 1000 each: with N = 1 either
    may be the row returned, and nothing else. *)
Lemma top_influencers_tie :
  forall out,
    top_influencers_result tie_tracking sample_posts sample_payouts
      sample_influencers 1 out <->
    out = [tie_top_7] \/ out = [tie_top_8].
Proof.
  assert (E : top_inf_table tie_tracking sample_posts sample_payouts
                sample_influencers = [tie_top_7; tie_top_8])
    by (vm_compute; reflexivity).
  assert (H78 : revenue_desc tie_top_7 tie_top_8) by (vm_compute; discriminate).
  assert (H87 : revenue_desc tie_top_8 tie_top_7) by (vm_compute; discriminate).
  intros out. unfold top_influencers_result, sorted_by_revenue_desc.
  rewrite E. split.
  - intros (sorted & [Hperm _] & ->).
    apply Permutation_sym, Permutation_length_2_inv in Hperm.
    destruct Hperm as [->| ->]; [left | right]; reflexivity.
  - intros [->| ->].
    + exists [tie_top_7; tie_top_8]. split; [split|reflexivity].
      * apply Permutation_refl.
      * repeat constructor. exact H78.
    + exists [tie_top_8; tie_top_7]. split; [split|reflexivity].
      * apply perm_swap.
      * repeat constructor. exact H87.
Qed.

(** C10.  The roster is joined with an inner join: every row of the
    ranker's output carries a roster entry whose id is the row's
    influencer_id, so an influencer_id with no roster row is in no output
    row, whether or not it has influencer-sourced tracking rows. *)
Theorem roster_inner_join_drops_unknown (tracking_f : list TrackingEvent)
  (posts_f : list Post) (payouts : list Payout)
  (influencers : list Influencer) (top_n : Z) :
  (forall r,
     In r (get_top_influencers tracking_f posts_f payouts influencers top_n) ->
     In (who r) influencers /\ id (who r) = top_influencer_id r) /\
  (forall i,
     (forall x, In x influencers -> id x <> i) ->
     forall r,
       In r (get_top_influencers tracking_f posts_f payouts influencers top_n) ->
       top_influencer_id r <> i).
Proof.
  assert (H : forall r,
     In r (get_top_influencers tracking_f posts_f payouts influencers top_n) ->
     In (who r) influencers /\ id (who r) = top_influencer_id r).
  { intros r Hr. unfold get_top_influencers in Hr.
    apply head_In in Hr. unfold sort_values_revenue_desc in Hr.
    apply sort_by_In in Hr. apply top_inf_table_In in Hr. tauto. }
  split; trivial.
  intros i Hno r Hr Hi. destruct (H r Hr) as [Hw Hid].
  apply (Hno (who r) Hw). congruence.
Qed.

Lemma roster_inner_join_drops_unknown_witness :
  (exists e, In e sample_tracking /\ source e = "influencer" /\
             influencer_id e = Some 3%Z) /\
  (forall r,
     In r (get_top_influencers sample_tracking sample_posts sample_payouts
             sample_influencers 10) ->
     top_influencer_id r <> 3%Z).
Proof.
  split.
  - exists (mkTracking "influencer" (Some 3%Z) 6 "Protein" 0 0).
    repeat split. vm_compute. do 6 right. left. reflexivity.
  - apply (proj2 (roster_inner_join_drops_unknown sample_tracking sample_posts
                    sample_payouts sample_influencers 10) 3%Z).
    intros x Hx. vm_compute in Hx.
    destruct Hx as [<-|[<-|[]]]; discriminate.
Defined.

(** * Further properties of the KPI functions *)

(** ** Unique keys and joins *)

Lemma unique_match {R K : Type} (eqb : K -> K -> bool) (key : R -> K)
  (rs : list R) (k : K) :
  (forall a b, eqb a b = true <-> a = b) ->
  NoDup (map key rs) ->
  (List.length (filter (fun r => eqb k (key r)) rs) <= 1)%nat.
Proof.
  intros Heq. induction rs as [|h t IH]; simpl; intros Hnd; [lia|].
  inversion Hnd as [|? ? Hh Ht]; subst.
  destruct (eqb k (key h)) eqn:E.
  - rewrite filter_none; [simpl; lia|].
    intros x Hx. destruct (eqb k (key x)) eqn:Ex; trivial.
    exfalso. apply Hh. apply Heq in E. apply Heq in Ex.
    rewrite <- E, Ex. now apply in_map.
  - now apply IH.
Qed.

Lemma flat_map_map_filter {A B : Type} (f : A -> list B) (proj : B -> A)
  (keep : A -> bool) (l : list A) :
  (forall x, In x l -> map proj (f x) = if keep x then [x] else []) ->
  map proj (flat_map f l) = filter keep l.
Proof.
  induction l as [|h t IH]; intros H; cbn [flat_map filter]; trivial.
  rewrite map_app, (H h (or_introl eq_refl)), IH
    by (intros x Hx; apply H; now right).
  now destruct (keep h).
Qed.

Lemma existsb_filter {A : Type} (f : A -> bool) (l : list A) :
  existsb f l = match filter f l with [] => false | _ :: _ => true end.
Proof.
  induction l as [|h t IH]; simpl; trivial.
  destruct (f h); simpl; trivial.
Qed.

Section MergeOne.
Context {L R O : Type} (on : L -> R -> bool).

(** When every left row matches at most one right row, a left join has
    exactly the left rows, in order. *)
Lemma merge_left_map_one (c : L -> option R -> O) (proj : O -> L)
  (ls : list L) (rs : list R) :
  (forall l r, proj (c l r) = l) ->
  (forall l, In l ls -> (List.length (filter (on l) rs) <= 1)%nat) ->
  map proj (merge_left on c ls rs) = ls.
Proof.
  intros Hproj H. unfold merge_left.
  rewrite (flat_map_map_filter _ proj (fun _ => true)).
  - clear. induction ls as [|h t IH]; simpl; congruence.
  - intros l Hl. specialize (H l Hl).
    destruct (filter (on l) rs) as [|m [|m' ms]]; simpl in *;
      [now rewrite Hproj | now rewrite Hproj | lia].
Qed.

(** Under the same condition an inner join keeps, in order, the left
    rows that have a match. *)
Lemma merge_inner_map_one (c : L -> R -> O) (proj : O -> L)
  (ls : list L) (rs : list R) :
  (forall l r, proj (c l r) = l) ->
  (forall l, In l ls -> (List.length (filter (on l) rs) <= 1)%nat) ->
  map proj (merge_inner on c ls rs)
  = filter (fun l => existsb (on l) rs) ls.
Proof.
  intros Hproj H. unfold merge_inner.
  apply flat_map_map_filter. intros l Hl. specialize (H l Hl).
  rewrite existsb_filter.
  destruct (filter (on l) rs) as [|m [|m' ms]]; simpl in *;
    [reflexivity | now rewrite Hproj | lia].
Qed.
End MergeOne.

Lemma baseline_products (tracking_f : list TrackingEvent) :
  map b_product (baseline tracking_f)
  = group_keys string_dec String.leb
      (map product (filter (has_source "organic") tracking_f)).
Proof.
  unfold baseline. rewrite map_map. cbn [b_product]. apply map_id.
Qed.

Lemma treatment_keys (tracking_f : list TrackingEvent) :
  map (fun g => (g_influencer_id g, g_product g)) (treatment tracking_f)
  = group_keys key2_dec key2_leb
      (flat_map (fun r => opt_list (treatment_key r))
         (filter (has_source "influencer") tracking_f)).
Proof.
  unfold treatment. rewrite map_map. cbn [g_influencer_id g_product].
  rewrite <- (map_id (group_keys _ _ _)) at 2.
  apply map_ext. now intros [i p].
Qed.

Lemma inf_perf_table_groups (tracking_f : list TrackingEvent)
  (payouts : list Payout) :
  NoDup (map pay_influencer_id payouts) ->
  map (fun r => grp (perf r)) (inf_perf_table tracking_f payouts)
  = treatment tracking_f.
Proof.
  intros Hpay. unfold inf_perf_table.
  rewrite <- (map_map perf grp).
  rewrite (merge_left_map_one _ with_payout perf).
  - apply (merge_left_map_one _ with_baseline grp).
    + reflexivity.
    + intros g _.
      apply (unique_match String.eqb b_product).
      * apply String.eqb_eq.
      * rewrite baseline_products. apply group_keys_NoDup.
  - reflexivity.
  - intros b _. apply (unique_match Z.eqb pay_influencer_id); trivial.
    apply Z.eqb_eq.
Qed.

(** X1.  When the payout table has one row per influencer, the iROAS
    table has exactly one row per (influencer_id, product) pair of the
    influencer-sourced rows: its groups are the treatment groups in
    order, no pair occurs twice, and the number of rows is the number of
    distinct pairs. *)
Theorem iroas_table_one_row_per_group (tracking_f : list TrackingEvent)
  (payouts : list Payout) :
  NoDup (map pay_influencer_id payouts) ->
  let table := fst (calculate_iroas tracking_f payouts) in
  let pairs := flat_map (fun r => opt_list (treatment_key r))
                 (filter (has_source "influencer") tracking_f) in
  map (fun r => grp (perf r)) table = treatment tracking_f /\
  NoDup (map (fun r => (ip_influencer_id r, ip_product r)) table) /\
  (forall k, In k (map (fun r => (ip_influencer_id r, ip_product r)) table)
             <-> In k pairs) /\
  List.length table = List.length (nodup key2_dec pairs).
Proof.
  intros Hpay. cbn [calculate_iroas fst]. cbv zeta.
  pose proof (inf_perf_table_groups tracking_f payouts Hpay) as Hg.
  assert (Hk : map (fun r => (ip_influencer_id r, ip_product r))
                 (inf_perf_table tracking_f payouts)
               = group_keys key2_dec key2_leb
                   (flat_map (fun r => opt_list (treatment_key r))
                      (filter (has_source "influencer") tracking_f))).
  { rewrite <- treatment_keys, <- Hg, map_map. reflexivity. }
  split; [exact Hg|]. split; [|split].
  - rewrite Hk. apply group_keys_NoDup.
  - intros k. rewrite Hk. apply group_keys_In.
  - rewrite <- (length_map (fun r => (ip_influencer_id r, ip_product r))), Hk.
    apply group_keys_length.
Qed.

Lemma iroas_table_one_row_per_group_witness :
  map (fun r => (ip_influencer_id r, ip_product r))
    (fst (calculate_iroas sample_tracking sample_payouts))
  = [(3%Z, "Protein"); (7%Z, "Protein"); (7%Z, "Snack")] /\
  List.length (fst (calculate_iroas sample_tracking sample_payouts)) = 3%nat.
Proof.
  assert (Hpay : NoDup (map pay_influencer_id sample_payouts)).
  { repeat constructor. intros []. }
  destruct (iroas_table_one_row_per_group sample_tracking sample_payouts Hpay)
    as (_ & _ & _ & Hlen).
  split; [vm_compute; reflexivity | exact Hlen].
Defined.

Lemma incremental_revenue_with_baseline_witness :
  exists b, In b (baseline sample_tracking) /\
    b_product b = ip_product sample_row_7_protein /\
    (1 <= org_users b)%nat /\
    rev_per_user b = fdiv (Num (org_revenue b)) (of_nat (org_users b)) /\
    ip_rev_per_user sample_row_7_protein = rev_per_user b /\
    ip_expected_baseline_rev sample_row_7_protein
    = fmul (rev_per_user b) (of_nat (ip_inf_users sample_row_7_protein)) /\
    ip_incremental_revenue sample_row_7_protein
    = fsub (Num (ip_inf_revenue sample_row_7_protein))
        (ip_expected_baseline_rev sample_row_7_protein).
Proof.
  apply (incremental_revenue_with_baseline sample_tracking sample_payouts).
  - vm_compute. right. left. reflexivity.
  - exists (mkTracking "organic" None 1 "Protein" 1 500).
    repeat split. now left.
Defined.

(** ** Where a row of the iROAS table comes from *)

(** Where each row of the table comes from, with what a failed match
    means: no baseline row for the product, no payout row for the
    influencer. *)
Lemma inf_perf_table_row (tracking_f : list TrackingEvent)
  (payouts : list Payout) (r : InfPerf) :
  In r (inf_perf_table tracking_f payouts) ->
  exists g b p,
    r = with_payout (with_baseline g b) p /\
    In g (treatment tracking_f) /\
    match b with
    | Some x => In x (baseline tracking_f) /\ b_product x = g_product g
    | None => forall x, In x (baseline tracking_f) ->
                        b_product x <> g_product g
    end /\
    match p with
    | Some x => In x payouts /\ pay_influencer_id x = g_influencer_id g
    | None => forall x, In x payouts -> pay_influencer_id x <> g_influencer_id g
    end.
Proof.
  unfold inf_perf_table. intros Hr.
  apply merge_left_In in Hr. destruct Hr as (ib & Hib & Hp).
  apply merge_left_In in Hib. destruct Hib as (g & Hg & Hb).
  assert (Hbase : exists b, ib = with_baseline g b /\
            match b with
            | Some x => In x (baseline tracking_f) /\ b_product x = g_product g
            | None => forall x, In x (baseline tracking_f) ->
                                b_product x <> g_product g
            end).
  { destruct Hb as [[E ->]|(b & Hb & Hon & ->)].
    - exists None. split; trivial. intros x Hx Heq.
      assert (Hin : In x (filter
                (fun b => String.eqb (g_product g) (b_product b))
                (baseline tracking_f))).
      { apply filter_In. split; trivial. now apply String.eqb_eq. }
      rewrite E in Hin. contradiction.
    - exists (Some b). apply String.eqb_eq in Hon. now repeat split. }
  destruct Hbase as (b & -> & Hbm).
  destruct Hp as [[E ->]|(p & Hp & Hon & ->)].
  - exists g, b, None. repeat split; trivial.
    intros x Hx Heq.
    assert (Hin : In x (filter
              (fun p => Z.eqb (g_influencer_id (grp (with_baseline g b)))
                          (pay_influencer_id p)) payouts)).
    { apply filter_In. split; trivial. simpl. now apply Z.eqb_eq. }
    rewrite E in Hin. contradiction.
  - exists g, b, (Some p). simpl in Hon. apply Z.eqb_eq in Hon.
    now repeat split.
Qed.

(** ** Rows of the top-influencers table *)

Section MergeCases.
Context {L R O : Type} (on : L -> R -> bool) (c : L -> option R -> O).

(** A row of a left join: a left row with one of its matches, or with
    none when nothing matches. *)
Lemma merge_left_In_cases (ls : list L) (rs : list R) (o : O) :
  In o (merge_left on c ls rs) ->
  exists l r, In l ls /\ o = c l r /\
    match r with
    | Some x => In x rs /\ on l x = true
    | None => forall x, In x rs -> on l x = false
    end.
Proof.
  intros Ho. apply merge_left_In in Ho.
  destruct Ho as (l & Hl & [[E ->]|(r & Hr & Hon & ->)]).
  - exists l, None. repeat split; trivial.
    intros x Hx. destruct (on l x) eqn:Hon; trivial.
    assert (Hin : In x (filter (on l) rs)) by (apply filter_In; tauto).
    rewrite E in Hin. contradiction.
  - exists l, (Some r). now repeat split.
Qed.
End MergeCases.

Lemma revenue_by_influencer_In (tracking_f : list TrackingEvent)
  (g : RevGroup) :
  In g (revenue_by_influencer tracking_f) <->
  (exists e, In e tracking_f /\ source e = "influencer" /\
             influencer_id e = Some (rg_influencer_id g)) /\
  g = (let rows := filter (from_influencer (rg_influencer_id g))
                     (filter (has_source "influencer") tracking_f) in
       mkRevGroup (rg_influencer_id g) (sumQ (map revenue rows))
         (sumZ (map orders rows))).
Proof.
  unfold revenue_by_influencer. rewrite in_map_iff. split.
  - intros (i & <- & Hi). apply group_keys_In, in_flat_map in Hi.
    destruct Hi as (e & He & Hie). apply filter_In in He.
    destruct He as [He Hs]. apply has_source_true in Hs.
    split; [|reflexivity]. exists e. cbn [rg_influencer_id].
    destruct (influencer_id e) as [j|]; [|contradiction].
    destruct Hie as [->|[]]. tauto.
  - intros [(e & He & Hs & Hi) Hg]. exists (rg_influencer_id g).
    split; [now symmetry|].
    apply group_keys_In, in_flat_map. exists e. split.
    + apply filter_In. now rewrite has_source_true.
    + rewrite Hi. now left.
Qed.

Lemma post_metrics_In (posts_f : list Post) (m : PostMetrics) :
  In m (post_metrics posts_f) <->
  In (pm_influencer_id m) (map post_influencer_id posts_f) /\
  m = (let mine := filter (fun p => Z.eqb (post_influencer_id p)
                                      (pm_influencer_id m)) posts_f in
       let l := sumZ (map likes mine) in
       let c := sumZ (map comments mine) in
       let r := sumZ (map reach mine) in
       mkPostMetrics (pm_influencer_id m) l c r
         (fdiv (of_Z (l + c)) (of_Z r))).
Proof.
  unfold post_metrics. rewrite in_map_iff. split.
  - intros (i & <- & Hi). apply group_keys_In in Hi. now split.
  - intros [Hi Hm]. exists (pm_influencer_id m). split; [now symmetry|].
    now apply group_keys_In.
Qed.

(** Where each row of the joined table comes from. *)
Lemma top_inf_table_row (tracking_f : list TrackingEvent)
  (posts_f : list Post) (payouts : list Payout)
  (influencers : list Influencer) (r : TopInf) :
  In r (top_inf_table tracking_f posts_f payouts influencers) ->
  exists m p,
    In (agg r) (revenue_by_influencer tracking_f) /\
    engagement_rate r = joined pm_engagement_rate m /\
    top_total_payout r = joined (fun x => Num (total_payout x)) p /\
    cost_per_order r
    = fdiv (top_total_payout r)
        (fadd (of_Z (rg_orders (agg r))) (Num epsilon)) /\
    match m with
    | Some x => In x (post_metrics posts_f) /\
                pm_influencer_id x = top_influencer_id r
    | None => forall x, In x (post_metrics posts_f) ->
                        pm_influencer_id x <> top_influencer_id r
    end /\
    match p with
    | Some x => In x payouts /\ pay_influencer_id x = top_influencer_id r
    | None => forall x, In x payouts ->
                        pay_influencer_id x <> top_influencer_id r
    end.
Proof.
  unfold top_inf_table, top_influencer_id. intros Hr.
  apply merge_left_In_cases in Hr.
  destruct Hr as (t & p & Ht & -> & Hp).
  apply merge_left_In_cases in Ht.
  destruct Ht as (gi & m & Hgi & -> & Hm).
  apply merge_inner_In in Hgi.
  destruct Hgi as (g & i & Hg & _ & _ & ->).
  cbn [fst snd agg engagement_rate top_total_payout cost_per_order] in *.
  exists m, p. repeat split; trivial.
  - destruct m as [x|].
    + destruct Hm as [Hx Hon]. apply Z.eqb_eq in Hon. now split.
    + intros x Hx E. apply Hm in Hx. apply Z.eqb_neq in Hx. congruence.
  - destruct p as [x|].
    + destruct Hp as [Hx Hon]. apply Z.eqb_eq in Hon. now split.
    + intros x Hx E. apply Hp in Hx. apply Z.eqb_neq in Hx. congruence.
Qed.

Lemma get_top_influencers_In (tracking_f : list TrackingEvent)
  (posts_f : list Post) (payouts : list Payout)
  (influencers : list Influencer) (top_n : Z) (r : TopInf) :
  In r (get_top_influencers tracking_f posts_f payouts influencers top_n) ->
  In r (top_inf_table tracking_f posts_f payouts influencers).
Proof.
  unfold get_top_influencers, sort_values_revenue_desc. intros Hr.
  apply head_In in Hr. now apply sort_by_In in Hr.
Qed.

(** X4.  Every row of the ranker has
    cost_per_order = total_payout / (orders + 1e-9), one formula with no
    branch on zero orders, where orders is the sum of the order flags of
    the influencer's influencer-sourced rows.  An influencer without a
    payout row has a missing payout and a NaN cost per order; one with a
    payout row carries the total_payout of a payout row of its id. *)
Theorem cost_per_order_quotient (tracking_f : list TrackingEvent)
  (posts_f : list Post) (payouts : list Payout)
  (influencers : list Influencer) (top_n : Z) (r : TopInf) :
  In r (get_top_influencers tracking_f posts_f payouts influencers top_n) ->
  cost_per_order r
  = fdiv (top_total_payout r) (fadd (of_Z (rg_orders (agg r))) (Num epsilon)) /\
  rg_orders (agg r)
  = sumZ (map orders
            (filter (from_influencer (top_influencer_id r))
               (filter (has_source "influencer") tracking_f))) /\
  ((forall x, In x payouts -> pay_influencer_id x <> top_influencer_id r) ->
   top_total_payout r = NaN /\ cost_per_order r = NaN) /\
  (forall x, In x payouts -> pay_influencer_id x = top_influencer_id r ->
   exists y, In y payouts /\ pay_influencer_id y = top_influencer_id r /\
     top_total_payout r = Num (total_payout y) /\
     cost_per_order r
     = fdiv (Num (total_payout y))
         (Num (inject_Z (rg_orders (agg r)) + epsilon))).
Proof.
  intros Hr. apply get_top_influencers_In, top_inf_table_row in Hr.
  destruct Hr as (m & p & Hg & _ & Hpay & Hcost & _ & Hp).
  split; [exact Hcost|]. split.
  { apply revenue_by_influencer_In in Hg. destruct Hg as [_ Hg].
    unfold top_influencer_id. rewrite Hg at 1. reflexivity. }
  split.
  - intros Hno. destruct p as [x|].
    + destruct Hp as [Hx Hxi]. now apply Hno in Hx.
    + rewrite Hcost, Hpay. now split.
  - intros x Hx Hxi. destruct p as [y|].
    + destruct Hp as [Hy Hyi]. exists y.
      split; [exact Hy|]. split; [exact Hyi|]. split; [exact Hpay|].
      rewrite Hcost, Hpay. reflexivity.
    + now apply Hp in Hx.
Qed.

Lemma get_top_influencers_sample :
  get_top_influencers ranker_tracking sample_posts sample_payouts
    sample_influencers 5
  = [sample_top_8; sample_top_7].
Proof. vm_compute. reflexivity. Qed.

Lemma cost_per_order_quotient_witness :
  cost_per_order sample_top_7
  = fdiv (top_total_payout sample_top_7)
      (fadd (of_Z (rg_orders (agg sample_top_7))) (Num epsilon)) /\
  rg_orders (agg sample_top_7)
  = sumZ (map orders
            (filter (from_influencer (top_influencer_id sample_top_7))
               (filter (has_source "influencer") ranker_tracking))) /\
  ((forall x, In x sample_payouts ->
              pay_influencer_id x <> top_influencer_id sample_top_7) ->
   top_total_payout sample_top_7 = NaN /\ cost_per_order sample_top_7 = NaN) /\
  (forall x, In x sample_payouts ->
   pay_influencer_id x = top_influencer_id sample_top_7 ->
   exists y, In y sample_payouts /\
     pay_influencer_id y = top_influencer_id sample_top_7 /\
     top_total_payout sample_top_7 = Num (total_payout y) /\
     cost_per_order sample_top_7
     = fdiv (Num (total_payout y))
         (Num (inject_Z (rg_orders (agg sample_top_7)) + epsilon))).
Proof.
  apply (cost_per_order_quotient ranker_tracking sample_posts sample_payouts
           sample_influencers 5).
  rewrite get_top_influencers_sample. right. left. reflexivity.
Defined.

(** X5.  The engagement rate of a ranker row is computed from the posts
    of that influencer in the filtered posts table: missing (NaN) when
    there is none (the row is kept), otherwise
    (sum of likes + sum of comments) / sum of reach, a finite number
    when the total reach is not zero. *)
Theorem engagement_rate_of_posts (tracking_f : list TrackingEvent)
  (posts_f : list Post) (payouts : list Payout)
  (influencers : list Influencer) (top_n : Z) (r : TopInf) :
  In r (get_top_influencers tracking_f posts_f payouts influencers top_n) ->
  let mine := filter (fun p => Z.eqb (post_influencer_id p)
                                 (top_influencer_id r)) posts_f in
  let l := sumZ (map likes mine) in
  let c := sumZ (map comments mine) in
  let t := sumZ (map reach mine) in
  (mine = [] -> engagement_rate r = NaN) /\
  (mine <> [] -> engagement_rate r = fdiv (of_Z (l + c)) (of_Z t)) /\
  (mine <> [] -> t <> 0%Z ->
   engagement_rate r = Num (inject_Z (l + c) / inject_Z t)).
Proof.
  intros Hr. apply get_top_influencers_In, top_inf_table_row in Hr.
  destruct Hr as (m & p & _ & Heng & _ & _ & Hm & _). cbv zeta.
  set (mine := filter (fun p => Z.eqb (post_influencer_id p)
                                  (top_influencer_id r)) posts_f).
  assert (Hsome : mine <> [] ->
            engagement_rate r
            = fdiv (of_Z (sumZ (map likes mine) + sumZ (map comments mine)))
                (of_Z (sumZ (map reach mine)))).
  { intros Hne. destruct m as [x|].
    - destruct Hm as [Hx Hxi]. apply post_metrics_In in Hx.
      destruct Hx as [_ Hx]. rewrite Hxi in Hx. fold mine in Hx.
      rewrite Heng, Hx. reflexivity.
    - exfalso. destruct mine as [|q qs] eqn:E; [congruence|].
      assert (Hq : In q mine) by (rewrite E; now left).
      apply filter_In in Hq. destruct Hq as [Hq Hqi]. apply Z.eqb_eq in Hqi.
      destruct (in_map_iff post_influencer_id posts_f (top_influencer_id r))
        as [_ Hin].
      assert (Hkey : In (top_influencer_id r)
                       (map post_influencer_id posts_f)).
      { apply Hin. now exists q. }
      eapply (Hm (mkPostMetrics (top_influencer_id r) _ _ _ _)).
      + apply post_metrics_In. cbn [pm_influencer_id]. split; [exact Hkey|].
        reflexivity.
      + reflexivity. }
  split; [|split].
  - intros Hnil. destruct m as [x|]; [|exact Heng].
    exfalso. destruct Hm as [Hx Hxi]. apply post_metrics_In in Hx.
    destruct Hx as [Hkey _]. rewrite Hxi in Hkey.
    apply in_map_iff in Hkey. destruct Hkey as (q & Hqi & Hq).
    assert (Hin : In q mine).
    { apply filter_In. split; trivial. now apply Z.eqb_eq. }
    rewrite Hnil in Hin. contradiction.
  - exact Hsome.
  - intros Hne Ht. rewrite (Hsome Hne). unfold of_Z. apply fdiv_num.
    intros E. apply Ht. unfold Qeq in E. simpl in E. lia.
Qed.

Lemma engagement_rate_of_posts_witness :
  let mine := filter (fun p => Z.eqb (post_influencer_id p)
                                 (top_influencer_id sample_top_7))
                sample_posts in
  let l := sumZ (map likes mine) in
  let c := sumZ (map comments mine) in
  let t := sumZ (map reach mine) in
  (mine = [] -> engagement_rate sample_top_7 = NaN) /\
  (mine <> [] -> engagement_rate sample_top_7 = fdiv (of_Z (l + c)) (of_Z t)) /\
  (mine <> [] -> t <> 0%Z ->
   engagement_rate sample_top_7 = Num (inject_Z (l + c) / inject_Z t)).
Proof.
  apply (engagement_rate_of_posts ranker_tracking sample_posts sample_payouts
           sample_influencers 5).
  rewrite get_top_influencers_sample. right. left. reflexivity.
Defined.

(** ** Which influencers are ranked *)

Lemma NoDup_map_filter {A B : Type} (f : A -> B) (keep : A -> bool)
  (l : list A) :
  NoDup (map f l) -> NoDup (map f (filter keep l)).
Proof.
  induction l as [|h t IH]; simpl; intros H; [constructor|].
  inversion H as [|? ? Hh Ht]; subst.
  destruct (keep h); simpl; [|now apply IH].
  constructor; [|now apply IH].
  intros Hin. apply Hh. apply in_map_iff in Hin.
  destruct Hin as (x & Hx & Hin). apply filter_In in Hin.
  apply in_map_iff. exists x. tauto.
Qed.

Lemma revenue_by_influencer_keys (tracking_f : list TrackingEvent) :
  map rg_influencer_id (revenue_by_influencer tracking_f)
  = group_keys Z.eq_dec Z.leb
      (flat_map (fun r => opt_list (influencer_id r))
         (filter (has_source "influencer") tracking_f)).
Proof.
  unfold revenue_by_influencer. rewrite map_map. cbn [rg_influencer_id].
  apply map_id.
Qed.

Lemma top_inf_table_groups (tracking_f : list TrackingEvent)
  (posts_f : list Post) (payouts : list Payout)
  (influencers : list Influencer) :
  NoDup (map id influencers) ->
  NoDup (map pay_influencer_id payouts) ->
  map agg (top_inf_table tracking_f posts_f payouts influencers)
  = filter (fun g => existsb (fun i => Z.eqb (rg_influencer_id g) (id i))
                       influencers)
      (revenue_by_influencer tracking_f).
Proof.
  intros Hroster Hpay. unfold top_inf_table.
  rewrite <- (merge_inner_map_one
                (fun g i => Z.eqb (rg_influencer_id g) (id i))
                (fun g i => (g, i)) fst
                (revenue_by_influencer tracking_f) influencers).
  - set (joined_roster := merge_inner _ _ _ influencers).
    rewrite <- (merge_left_map_one
                  (fun (t : RevGroup * Influencer) m =>
                     Z.eqb (rg_influencer_id (fst t)) (pm_influencer_id m))
                  (fun t m => (t, joined pm_engagement_rate m)) fst
                  joined_roster (post_metrics posts_f)) at 2.
    + set (with_engagement := merge_left _ _ joined_roster _).
      rewrite <- (merge_left_map_one
                    (fun (t : RevGroup * Influencer * fval) p =>
                       Z.eqb (rg_influencer_id (fst (fst t)))
                         (pay_influencer_id p))
                    (fun t p => (t, p)) fst
                    with_engagement payouts) at 2.
      * rewrite !map_map. unfold merge_left. rewrite !flat_map_concat_map.
        rewrite !concat_map, !map_map. f_equal. apply map_ext.
        intros t. now destruct (filter _ payouts); rewrite ?map_map.
      * reflexivity.
      * intros t _. now apply (unique_match Z.eqb pay_influencer_id);
          [apply Z.eqb_eq|].
    + reflexivity.
    + intros t _. apply (unique_match Z.eqb pm_influencer_id);
        [apply Z.eqb_eq | apply post_metrics_keys].
  - reflexivity.
  - intros g _. now apply (unique_match Z.eqb id); [apply Z.eqb_eq|].
Qed.

Lemma get_top_influencers_all (tracking_f : list TrackingEvent)
  (posts_f : list Post) (payouts : list Payout)
  (influencers : list Influencer) (top_n : Z) :
  NoDup (map id influencers) ->
  NoDup (map pay_influencer_id payouts) ->
  (Z.of_nat (distinct_influencers tracking_f) <= top_n)%Z ->
  Permutation
    (get_top_influencers tracking_f posts_f payouts influencers top_n)
    (top_inf_table tracking_f posts_f payouts influencers).
Proof.
  intros Hroster Hpay Hn. unfold get_top_influencers.
  pose proof (top_inf_table_length tracking_f posts_f payouts influencers
                Hroster Hpay) as Hlen.
  rewrite head_all.
  - apply sort_by_perm.
  - unfold sort_values_revenue_desc. rewrite sort_by_length. lia.
Qed.

(** X6.  With unique roster ids and payout ids and N at least the number
    of distinct influencers, the ranker returns exactly one row for each
    influencer that has an influencer-sourced row and is on the roster,
    and no other row. *)
Theorem ranked_influencers (tracking_f : list TrackingEvent)
  (posts_f : list Post) (payouts : list Payout)
  (influencers : list Influencer) (top_n : Z) :
  NoDup (map id influencers) ->
  NoDup (map pay_influencer_id payouts) ->
  (Z.of_nat (distinct_influencers tracking_f) <= top_n)%Z ->
  let ids :=
    map top_influencer_id
      (get_top_influencers tracking_f posts_f payouts influencers top_n) in
  NoDup ids /\
  (forall i, In i ids <->
     (exists e, In e tracking_f /\ source e = "influencer" /\
                influencer_id e = Some i) /\
     (exists x, In x influencers /\ id x = i)).
Proof.
  intros Hroster Hpay Hn. cbv zeta.
  pose proof (get_top_influencers_all tracking_f posts_f payouts influencers
                top_n Hroster Hpay Hn) as Hperm.
  apply (Permutation_map top_influencer_id) in Hperm.
  assert (Hids : map top_influencer_id
                   (top_inf_table tracking_f posts_f payouts influencers)
                 = map rg_influencer_id
                     (filter
                        (fun g => existsb
                           (fun i => Z.eqb (rg_influencer_id g) (id i))
                           influencers)
                        (revenue_by_influencer tracking_f))).
  { rewrite <- (top_inf_table_groups tracking_f posts_f payouts influencers
                  Hroster Hpay), map_map. reflexivity. }
  rewrite Hids in Hperm. split.
  - eapply Permutation_NoDup; [symmetry; exact Hperm|].
    apply NoDup_map_filter. rewrite revenue_by_influencer_keys.
    apply group_keys_NoDup.
  - intros i. split.
    + intros Hi. apply (Permutation_in _ Hperm) in Hi.
      apply in_map_iff in Hi. destruct Hi as (g & <- & Hg).
      apply filter_In in Hg. destruct Hg as [Hg Hex].
      apply revenue_by_influencer_In in Hg. destruct Hg as [He _].
      split; [exact He|]. apply existsb_exists in Hex.
      destruct Hex as (x & Hx & Hxi). apply Z.eqb_eq in Hxi.
      exists x. now split.
    + intros [(e & He & Hs & Hi) (x & Hx & Hxi)].
      apply (Permutation_in _ (Permutation_sym Hperm)).
      apply in_map_iff.
      eexists (mkRevGroup i _ _). split; [reflexivity|].
      apply filter_In. split.
      * apply revenue_by_influencer_In. cbn [rg_influencer_id].
        split; [|reflexivity]. now exists e.
      * apply existsb_exists. exists x. split; trivial.
        cbn [rg_influencer_id]. apply Z.eqb_eq. now symmetry.
Qed.

Lemma ranked_influencers_witness :
  let ids :=
    map top_influencer_id
      (get_top_influencers ranker_tracking sample_posts sample_payouts
         sample_influencers 5) in
  NoDup ids /\
  (forall i, In i ids <->
     (exists e, In e ranker_tracking /\ source e = "influencer" /\
                influencer_id e = Some i) /\
     (exists x, In x sample_influencers /\ id x = i)).
Proof.
  apply (ranked_influencers ranker_tracking sample_posts sample_payouts
           sample_influencers 5).
  - repeat constructor; simpl; intuition discriminate.
  - repeat constructor; simpl; intuition discriminate.
  - vm_compute. discriminate.
Defined.

(** X7.  Raising N only appends rows: for 0 <= N <= M the top-N table is
    the first N rows of the top-M table. *)
Theorem top_n_is_prefix (tracking_f : list TrackingEvent)
  (posts_f : list Post) (payouts : list Payout)
  (influencers : list Influencer) (n m : Z) :
  (0 <= n <= m)%Z ->
  get_top_influencers tracking_f posts_f payouts influencers n
  = firstn (Z.to_nat n)
      (get_top_influencers tracking_f posts_f payouts influencers m).
Proof.
  intros [Hn Hm]. unfold get_top_influencers, head.
  destruct (Z.leb_spec 0 n) as [_|C]; [|lia].
  destruct (Z.leb_spec 0 m) as [_|C]; [|lia].
  rewrite firstn_firstn. f_equal. lia.
Qed.

Lemma top_n_is_prefix_witness :
  get_top_influencers ranker_tracking sample_posts sample_payouts
    sample_influencers 1
  = firstn (Z.to_nat 1)
      (get_top_influencers ranker_tracking sample_posts sample_payouts
         sample_influencers 5).
Proof.
  apply (top_n_is_prefix ranker_tracking sample_posts sample_payouts
           sample_influencers 1 5).
  lia.
Defined.

(** * The dashboard script *)

(** ** What the sidebar filter keeps *)

Lemma isin_Some (values : list string) (s : string) :
  isin values (Some s) = true <-> In s values.
Proof.
  cbn [isin]. rewrite existsb_exists. split.
  - intros (x & Hx & E). apply String.eqb_eq in E. now subst.
  - intros H. exists s. split; trivial. apply String.eqb_refl.
Qed.

Lemma key_matches_true (k : option Z) (i : Z) :
  key_matches k i = true <-> k = Some i.
Proof.
  destruct k as [j|]; cbn [key_matches].
  - rewrite Z.eqb_eq. split; congruence.
  - split; discriminate.
Qed.

Lemma filter_tracking_In (tracking : list TrackingRow)
  (influencers : list Influencer) (start_date end_date : Z)
  (platform_filter category_filter : list string) (m : FilteredTracking) :
  In m (filter_tracking tracking influencers start_date end_date
          platform_filter category_filter) <->
  In (tracked m) tracking /\
  within start_date end_date (date (tracked m)) = true /\
  exists x, In x influencers /\
    matched m = Some (roster_cols x) /\
    influencer_id (event (tracked m)) = Some (id x) /\
    In (platform x) platform_filter /\
    In (category x) category_filter.
Proof.
  unfold filter_tracking. rewrite filter_In, merge_left_In. split.
  - intros [(t & Ht & Hm) Hsel]. apply filter_In in Ht.
    destruct Ht as [Ht Hd]. apply andb_true_iff in Hsel.
    destruct Hsel as [Hp Hc].
    destruct Hm as [[_ ->]|(c & Hc' & Hon & ->)].
    + discriminate Hp.
    + cbn [tracked matched option_map] in *.
      apply in_map_iff in Hc'. destruct Hc' as (x & <- & Hx).
      apply key_matches_true in Hon. apply isin_Some in Hp, Hc.
      repeat split; trivial. exists x. now repeat split.
  - intros (Ht & Hd & x & Hx & Hm & Hi & Hp & Hc).
    destruct m as [t c]. cbn [tracked matched] in *. subst c. split.
    + exists t. split; [apply filter_In; now split|].
      right. exists (roster_cols x). split; [now apply in_map|].
      split; [|reflexivity]. now apply key_matches_true.
    + cbn [matched option_map]. apply andb_true_iff.
      split; now apply isin_Some.
Qed.

(** X9.  A row is in the filtered tracking table exactly when it is a
    tracking row dated within the window whose influencer_id is the id of
    a roster entry with a selected platform and a selected category; the
    roster columns of that entry are merged in.  So a row with no
    influencer_id, or with one that is not on the roster, is never kept,
    whatever is selected. *)
Theorem filter_tracking_keeps (tracking : list TrackingRow)
  (influencers : list Influencer) (start_date end_date : Z)
  (platform_filter category_filter : list string) :
  let tracking_f :=
    filter_tracking tracking influencers start_date end_date
      platform_filter category_filter in
  (forall m, In m tracking_f <->
     In (tracked m) tracking /\
     (start_date <= date (tracked m) <= end_date)%Z /\
     exists x, In x influencers /\
       matched m = Some (roster_cols x) /\
       influencer_id (event (tracked m)) = Some (id x) /\
       In (platform x) platform_filter /\
       In (category x) category_filter) /\
  (forall m, In m tracking_f ->
     influencer_id (event (tracked m)) <> None) /\
  (forall m i, In m tracking_f ->
     influencer_id (event (tracked m)) = Some i ->
     exists x, In x influencers /\ id x = i).
Proof.
  cbv zeta.
  assert (Hw : forall d, within start_date end_date d = true
                         <-> (start_date <= d <= end_date)%Z).
  { intros d. unfold within. rewrite andb_true_iff, !Z.leb_le. tauto. }
  split; [|split].
  - intros m. rewrite filter_tracking_In, Hw. tauto.
  - intros m Hm. apply filter_tracking_In in Hm.
    destruct Hm as (_ & _ & x & _ & _ & Hi & _). congruence.
  - intros m i Hm Hi. apply filter_tracking_In in Hm.
    destruct Hm as (_ & _ & x & Hx & _ & Hix & _).
    exists x. split; trivial. congruence.
Qed.

Lemma filter_tracking_keeps_witness :
  In (tracked sample_filtered_7_protein) sample_raw_tracking /\
  (0 <= date (tracked sample_filtered_7_protein) <= 30)%Z /\
  exists x, In x sample_influencers /\
    matched sample_filtered_7_protein = Some (roster_cols x) /\
    influencer_id (event (tracked sample_filtered_7_protein)) = Some (id x) /\
    In (platform x) all_platforms /\
    In (category x) all_categories.
Proof.
  apply (proj1 (filter_tracking_keeps sample_raw_tracking sample_influencers
                  0 30 all_platforms all_categories)).
  vm_compute. left. reflexivity.
Defined.

Lemma filter_flat_map {A B : Type} (keep : B -> bool) (f : A -> list B)
  (l : list A) :
  filter keep (flat_map f l) = flat_map (fun x => filter keep (f x)) l.
Proof.
  induction l as [|h t IH]; cbn [flat_map]; trivial.
  now rewrite filter_app, IH.
Qed.

Lemma filter_map_comm {A B : Type} (f : A -> B) (keep : B -> bool)
  (l : list A) :
  filter keep (map f l) = map f (filter (fun x => keep (f x)) l).
Proof.
  induction l as [|h t IH]; simpl; trivial.
  destruct (keep (f h)); simpl; now rewrite IH.
Qed.

Lemma filter_filter_andb {A : Type} (f g : A -> bool) (l : list A) :
  filter f (filter g l) = filter (fun x => g x && f x) l.
Proof.
  induction l as [|h t IH]; simpl; trivial.
  destruct (g h); simpl; [destruct (f h)|]; now rewrite IH.
Qed.

Lemma existsb_andb_filter {A : Type} (a b : A -> bool) (l : list A) :
  existsb (fun x => a x && b x) l = existsb b (filter a l).
Proof.
  induction l as [|h t IH]; simpl; trivial.
  destruct (a h); simpl; now rewrite IH.
Qed.

Lemma roster_match_unique (influencers : list Influencer) (k : option Z) :
  NoDup (map id influencers) ->
  (List.length (filter (fun x => key_matches k (id x)) influencers) <= 1)%nat.
Proof.
  intros Hnd. destruct k as [j|]; cbn [key_matches].
  - now apply (unique_match Z.eqb id); [apply Z.eqb_eq|].
  - rewrite filter_none; [simpl; lia | reflexivity].
Qed.

(** X10.  When roster ids are unique the filter neither duplicates nor
    reorders rows: the tracking rows of the filtered table are the loaded
    rows that pass the test (date in the window, influencer on the roster
    with a selected platform and category), in their order. *)
Theorem filter_tracking_unique_roster (tracking : list TrackingRow)
  (influencers : list Influencer) (start_date end_date : Z)
  (platform_filter category_filter : list string) :
  NoDup (map id influencers) ->
  map tracked
    (filter_tracking tracking influencers start_date end_date
       platform_filter category_filter)
  = filter (fun t =>
              within start_date end_date (date t) &&
              existsb (fun x =>
                         key_matches (influencer_id (event t)) (id x) &&
                         (existsb (String.eqb (platform x)) platform_filter &&
                          existsb (String.eqb (category x)) category_filter))
                influencers)
      tracking.
Proof.
  intros Hnd. unfold filter_tracking, merge_left.
  rewrite filter_flat_map, <- filter_filter_andb.
  apply flat_map_map_filter. intros t _.
  rewrite filter_map_comm. cbn [rc_id roster_cols].
  rewrite existsb_andb_filter.
  pose proof (roster_match_unique influencers (influencer_id (event t)) Hnd)
    as Hlen.
  destruct (filter (fun x => key_matches (influencer_id (event t)) (id x))
              influencers) as [|x [|y ys]]; cbn [map] in *.
  - reflexivity.
  - cbn [filter matched option_map rc_platform rc_category roster_cols isin
         existsb].
    rewrite orb_false_r.
    destruct (existsb (String.eqb (platform x)) platform_filter &&
              existsb (String.eqb (category x)) category_filter);
      reflexivity.
  - simpl in Hlen. lia.
Qed.

Lemma filter_tracking_unique_roster_witness :
  map (fun m => date (tracked m))
    (filter_tracking sample_raw_tracking sample_influencers 0 30
       all_platforms all_categories)
  = [12%Z; 12%Z; 20%Z].
Proof.
  rewrite <- (map_map tracked date).
  rewrite (filter_tracking_unique_roster sample_raw_tracking
             sample_influencers 0 30 all_platforms all_categories).
  - vm_compute. reflexivity.
  - repeat constructor; simpl; intuition discriminate.
Defined.

(** ** What reaches the KPI functions *)

Lemma tracking_events_In (tracking : list TrackingRow)
  (influencers : list Influencer) (start_date end_date : Z)
  (platform_filter category_filter : list string) (e : TrackingEvent) :
  In e (tracking_events
          (filter_tracking tracking influencers start_date end_date
             platform_filter category_filter)) ->
  exists t x, In t tracking /\ event t = e /\ In x influencers /\
              influencer_id e = Some (id x).
Proof.
  unfold tracking_events. rewrite in_map_iff. intros (m & <- & Hm).
  apply filter_tracking_In in Hm.
  destruct Hm as (Ht & _ & x & Hx & _ & Hi & _).
  now exists (tracked m), x.
Qed.

Lemma mean_all_nan (l : list fval) :
  (forall x, In x l -> x = NaN) -> mean l = NaN.
Proof.
  intros H. unfold mean. rewrite filter_none; trivial.
  intros x Hx. now rewrite (H x Hx).
Qed.

Lemma baseline_without_organic (tracking_f : list TrackingEvent) :
  (forall e, In e tracking_f -> source e <> "organic") ->
  baseline tracking_f = [].
Proof.
  intros H. unfold baseline. rewrite filter_none; [reflexivity|].
  intros e He. destruct (has_source "organic" e) eqn:Hs; trivial.
  apply has_source_true in Hs. now apply H in He.
Qed.

Lemma inf_perf_table_without_baseline (tracking_f : list TrackingEvent)
  (payouts : list Payout) (r : InfPerf) :
  baseline tracking_f = [] ->
  In r (inf_perf_table tracking_f payouts) ->
  ip_rev_per_user r = NaN /\ ip_incremental_revenue r = NaN /\ iROAS r = NaN.
Proof.
  intros Hb Hr. apply inf_perf_table_row in Hr.
  destruct Hr as (g & b & p & -> & _ & Hbm & _).
  destruct b as [b|].
  - destruct Hbm as [Hin _]. rewrite Hb in Hin. contradiction.
  - now repeat split.
Qed.

(** X11.  When influencer_id is present on influencer-sourced rows only
    (as in the generated data), no organic row passes the sidebar filter,
    whatever is selected: the organic baseline of the dashboard is empty,
    so every row of its iROAS table has a NaN revenue per user, a NaN
    incremental revenue and a NaN iROAS, and the "Avg iROAS" is NaN. *)
Theorem dashboard_iroas_is_nan (tracking : list TrackingRow)
  (influencers : list Influencer) (payouts : list Payout)
  (start_date end_date : Z) (platform_filter category_filter : list string) :
  (forall t, In t tracking -> influencer_id (event t) <> None ->
             source (event t) = "influencer") ->
  baseline
    (tracking_events
       (filter_tracking tracking influencers start_date end_date
          platform_filter category_filter)) = [] /\
  (forall r,
     In r (fst (dashboard_iroas tracking influencers payouts start_date
                  end_date platform_filter category_filter)) ->
     ip_rev_per_user r = NaN /\ ip_incremental_revenue r = NaN /\
     iROAS r = NaN) /\
  snd (dashboard_iroas tracking influencers payouts start_date end_date
         platform_filter category_filter) = NaN.
Proof.
  intros Hids.
  assert (Hb : baseline
                 (tracking_events
                    (filter_tracking tracking influencers start_date end_date
                       platform_filter category_filter)) = []).
  { apply baseline_without_organic. intros e He Hs.
    apply tracking_events_In in He.
    destruct He as (t & x & Ht & <- & _ & Hi).
    assert (Hsrc : source (event t) = "influencer").
    { apply Hids; trivial. congruence. }
    rewrite Hs in Hsrc. discriminate Hsrc. }
  split; [exact Hb|]. unfold dashboard_iroas, calculate_iroas. cbn [fst snd].
  split.
  - intros r. now apply inf_perf_table_without_baseline.
  - apply mean_all_nan. intros v Hv. apply in_map_iff in Hv.
    destruct Hv as (r & <- & Hr).
    now apply (inf_perf_table_without_baseline _ payouts r Hb).
Qed.

Lemma dashboard_iroas_is_nan_witness :
  baseline
    (tracking_events
       (filter_tracking sample_raw_tracking sample_influencers 0 30
          all_platforms all_categories)) = [] /\
  (forall r,
     In r (fst (dashboard_iroas sample_raw_tracking sample_influencers
                  sample_payouts 0 30 all_platforms all_categories)) ->
     ip_rev_per_user r = NaN /\ ip_incremental_revenue r = NaN /\
     iROAS r = NaN) /\
  snd (dashboard_iroas sample_raw_tracking sample_influencers sample_payouts
         0 30 all_platforms all_categories) = NaN.
Proof.
  apply (dashboard_iroas_is_nan sample_raw_tracking sample_influencers
           sample_payouts 0 30 all_platforms all_categories).
  intros t Ht. vm_compute in Ht.
  repeat (destruct Ht as [<-|Ht];
          [cbn; first [reflexivity | intros C; now contradiction C]|]).
  destruct Ht.
Defined.

(** X12.  Under the same condition every row the dashboard passes to the
    KPI functions is influencer-sourced: the "Revenue" and "Orders" KPIs
    are sums over influencer rows only, organic and paid-ad rows adding
    nothing. *)
Theorem dashboard_counts_influencer_rows_only (tracking : list TrackingRow)
  (influencers : list Influencer) (payouts : list Payout)
  (start_date end_date : Z) (platform_filter category_filter : list string) :
  (forall t, In t tracking -> influencer_id (event t) <> None ->
             source (event t) = "influencer") ->
  let tracking_f :=
    tracking_events
      (filter_tracking tracking influencers start_date end_date
         platform_filter category_filter) in
  (forall e, In e tracking_f -> source e = "influencer") /\
  filter (has_source "influencer") tracking_f = tracking_f /\
  fst (fst (fst (dashboard_roas tracking influencers payouts start_date
                   end_date platform_filter category_filter)))
  = sumQ (map revenue (filter (has_source "influencer") tracking_f)) /\
  snd (fst (fst (dashboard_roas tracking influencers payouts start_date
                   end_date platform_filter category_filter)))
  = sumZ (map orders (filter (has_source "influencer") tracking_f)).
Proof.
  intros Hids. cbv zeta.
  assert (Hsrc : forall e,
            In e (tracking_events
                    (filter_tracking tracking influencers start_date end_date
                       platform_filter category_filter)) ->
            source e = "influencer").
  { intros e He. apply tracking_events_In in He.
    destruct He as (t & x & Ht & <- & _ & Hi).
    apply Hids; trivial. congruence. }
  assert (Hall : filter (has_source "influencer")
                   (tracking_events
                      (filter_tracking tracking influencers start_date
                         end_date platform_filter category_filter))
                 = tracking_events
                     (filter_tracking tracking influencers start_date
                        end_date platform_filter category_filter)).
  { apply filter_all, forallb_forall. intros e He.
    apply has_source_true. now apply Hsrc. }
  split; [exact Hsrc|]. split; [exact Hall|].
  rewrite Hall. unfold dashboard_roas, calculate_roas. now split.
Qed.

Lemma dashboard_counts_influencer_rows_only_witness :
  fst (fst (fst (dashboard_roas sample_raw_tracking sample_influencers
                   sample_payouts 0 30 all_platforms all_categories)))
  = sumQ [1000; 499; 2999].
Proof.
  destruct (dashboard_counts_influencer_rows_only sample_raw_tracking
              sample_influencers sample_payouts 0 30 all_platforms
              all_categories) as (_ & _ & Hrev & _).
  - intros t Ht. vm_compute in Ht.
    repeat (destruct Ht as [<-|Ht];
            [cbn; first [reflexivity | intros C; now contradiction C]|]).
    destruct Ht.
  - rewrite Hrev. vm_compute. reflexivity.
Defined.

(** ** The ranker on the filtered tables *)

Lemma top_inf_table_has (tracking_f : list TrackingEvent)
  (posts_f : list Post) (payouts : list Payout)
  (influencers : list Influencer) (g : RevGroup) (x : Influencer) :
  In g (revenue_by_influencer tracking_f) ->
  In x influencers -> id x = rg_influencer_id g ->
  exists r, In r (top_inf_table tracking_f posts_f payouts influencers) /\
            agg r = g /\ who r = x.
Proof.
  intros Hg Hx Hid. unfold top_inf_table.
  assert (H1 : In (g, x)
                 (merge_inner (fun g i => Z.eqb (rg_influencer_id g) (id i))
                    (fun g i => (g, i))
                    (revenue_by_influencer tracking_f) influencers)).
  { apply merge_inner_In. exists g, x. repeat split; trivial.
    apply Z.eqb_eq. now symmetry. }
  destruct (merge_left_keeps
              (fun (t : RevGroup * Influencer) m =>
                 Z.eqb (rg_influencer_id (fst t)) (pm_influencer_id m))
              (fun t m => (t, joined pm_engagement_rate m))
              _ (post_metrics posts_f) _ H1) as (m & H2).
  match goal with
  | |- exists r, In r (merge_left ?on ?c ?ls ?rs) /\ _ =>
      destruct (merge_left_keeps on c ls rs _ H2) as (p & H3)
  end.
  eexists. split; [exact H3|]. now split.
Qed.

(** X13.  On the dashboard the inner join with the roster drops nobody:
    every influencer with a row in the filtered tracking table is on the
    roster, so (unique roster and payout ids, N at least the number of
    distinct influencers) each of them has a row in the
    top-influencers table. *)
Theorem dashboard_ranker_drops_nobody (tracking : list TrackingRow)
  (posts : list PostRow) (influencers : list Influencer)
  (payouts : list Payout) (start_date end_date : Z)
  (platform_filter category_filter : list string) (top_n : Z) :
  NoDup (map id influencers) ->
  NoDup (map pay_influencer_id payouts) ->
  let tracking_f :=
    tracking_events
      (filter_tracking tracking influencers start_date end_date
         platform_filter category_filter) in
  (Z.of_nat (distinct_influencers tracking_f) <= top_n)%Z ->
  forall e i, In e tracking_f -> source e = "influencer" ->
    influencer_id e = Some i ->
    In i (map top_influencer_id
            (dashboard_top_inf tracking posts influencers payouts start_date
               end_date platform_filter category_filter top_n)).
Proof.
  intros Hroster Hpay. cbv zeta. intros Hn e i He Hs Hi.
  unfold dashboard_top_inf.
  set (tracking_f := tracking_events _) in *.
  set (posts_f := posts_of _).
  destruct (tracking_events_In _ _ _ _ _ _ e He)
    as (t & x & _ & _ & Hx & Hix).
  assert (Hg : In (mkRevGroup i
                     (sumQ (map revenue
                        (filter (from_influencer i)
                           (filter (has_source "influencer") tracking_f))))
                     (sumZ (map orders
                        (filter (from_influencer i)
                           (filter (has_source "influencer") tracking_f)))))
                  (revenue_by_influencer tracking_f)).
  { apply revenue_by_influencer_In. cbn [rg_influencer_id].
    split; [|reflexivity]. now exists e. }
  destruct (top_inf_table_has tracking_f posts_f payouts influencers _ x Hg Hx)
    as (r & Hr & Hagg & _).
  { cbn [rg_influencer_id]. congruence. }
  apply in_map_iff. exists r. split.
  - unfold top_influencer_id. now rewrite Hagg.
  - eapply Permutation_in; [|exact Hr].
    symmetry. now apply get_top_influencers_all.
Qed.

Lemma dashboard_ranker_drops_nobody_witness :
  In 8%Z
    (map top_influencer_id
       (dashboard_top_inf sample_raw_tracking sample_raw_posts
          sample_influencers sample_payouts 0 30 all_platforms
          all_categories 5)).
Proof.
  apply (dashboard_ranker_drops_nobody sample_raw_tracking sample_raw_posts
           sample_influencers sample_payouts 0 30 all_platforms
           all_categories 5)
    with (e := mkTracking "influencer" (Some 8%Z) 13 "Snack" 1 2999).
  - repeat constructor; simpl; intuition discriminate.
  - repeat constructor; simpl; intuition discriminate.
  - vm_compute. discriminate.
  - vm_compute. right. right. left. reflexivity.
  - reflexivity.
  - reflexivity.
Defined.

(** ** The posts filter *)

(** X14.  A post is in the filtered posts table exactly when it is dated
    within the window, its own platform is selected, and its influencer
    is on the roster with a selected category; a post of an influencer
    missing from the roster is never kept. *)
Theorem filter_posts_keeps (posts : list PostRow)
  (influencers : list Influencer) (start_date end_date : Z)
  (platform_filter category_filter : list string) (m : FilteredPost) :
  In m (filter_posts posts influencers start_date end_date
          platform_filter category_filter) <->
  In (posted m) posts /\
  (start_date <= post_date (posted m) <= end_date)%Z /\
  In (post_platform (post (posted m))) platform_filter /\
  exists x, In x influencers /\
    post_matched m = Some (post_roster_cols x) /\
    id x = post_influencer_id (post (posted m)) /\
    In (category x) category_filter.
Proof.
  assert (Hw : forall d, within start_date end_date d = true
                         <-> (start_date <= d <= end_date)%Z).
  { intros d. unfold within. rewrite andb_true_iff, !Z.leb_le. tauto. }
  unfold filter_posts. rewrite filter_In, merge_left_In. split.
  - intros [(p & Hp & Hm) Hsel]. apply filter_In in Hp.
    destruct Hp as [Hp Hd]. apply Hw in Hd. apply andb_true_iff in Hsel.
    destruct Hsel as [Hpl Hc]. apply isin_Some in Hpl.
    destruct Hm as [[_ ->]|(c & Hc' & Hon & ->)].
    + discriminate Hc.
    + cbn [posted post_matched option_map] in *.
      apply in_map_iff in Hc'. destruct Hc' as (x & <- & Hx).
      apply Z.eqb_eq in Hon. apply isin_Some in Hc.
      split; [exact Hp|]. split; [exact Hd|]. split; [exact Hpl|].
      exists x. cbn [pc_id post_roster_cols] in Hon.
      split; [exact Hx|]. split; [reflexivity|].
      split; [now symmetry | exact Hc].
  - intros (Hp & Hd & Hpl & x & Hx & Hm & Hi & Hc).
    destruct m as [p c]. cbn [posted post_matched] in *. subst c. split.
    + exists p. split; [apply filter_In; split; trivial; now apply Hw|].
      right. exists (post_roster_cols x). split; [now apply in_map|].
      split; [|reflexivity]. apply Z.eqb_eq. now symmetry.
    + cbn [posted post_matched option_map]. apply andb_true_iff.
      split; now apply isin_Some.
Qed.

Lemma filter_posts_keeps_witness :
  map (fun m => post_id (post (posted m)))
    (filter_posts sample_raw_posts sample_influencers 0 30 all_platforms
       all_categories)
  = [1%Z; 3%Z] /\
  forall m,
    In m (filter_posts sample_raw_posts sample_influencers 0 30
            all_platforms all_categories) ->
    exists x, In x sample_influencers /\
              id x = post_influencer_id (post (posted m)).
Proof.
  split; [vm_compute; reflexivity|].
  intros m Hm.
  apply (filter_posts_keeps sample_raw_posts sample_influencers 0 30
           all_platforms all_categories) in Hm.
  destruct Hm as (_ & _ & _ & x & Hx & _ & Hi & _).
  exists x. now split.
Defined.

(** ** Revenue over time *)

Lemma sumQ_split {A : Type} (v : A -> Q) (keep : A -> bool) (l : list A) :
  sumQ (map v l)
  == sumQ (map v (filter keep l))
     + sumQ (map v (filter (fun x => negb (keep x)) l)).
Proof.
  induction l as [|h t IH]; cbn [map filter].
  - unfold sumQ. simpl. ring.
  - rewrite sumQ_cons, IH.
    destruct (keep h); cbn [negb map]; rewrite sumQ_cons; ring.
Qed.

Lemma sumQ_map_ext (f g : Z -> Q) (l : list Z) :
  (forall k, In k l -> f k = g k) -> sumQ (map f l) = sumQ (map g l).
Proof. intros H. f_equal. now apply map_ext_in. Qed.

(** Summing group by group gives the sum of the whole column. *)
Lemma sumQ_by_key {A : Type} (key : A -> Z) (v : A -> Q) (ks : list Z) :
  NoDup ks ->
  forall l : list A,
    (forall x, In x l -> In (key x) ks) ->
    sumQ (map (fun k => sumQ (map v (filter (fun x => Z.eqb (key x) k) l))) ks)
    == sumQ (map v l).
Proof.
  induction 1 as [|k t Hk Ht IH]; intros l Hl.
  - destruct l as [|x l]; [reflexivity|].
    destruct (Hl x (or_introl eq_refl)).
  - cbn [map]. rewrite sumQ_cons.
    rewrite (sumQ_split v (fun x => Z.eqb (key x) k) l).
    apply Qplus_comp; [reflexivity|].
    rewrite <- (IH (filter (fun x => negb (Z.eqb (key x) k)) l)).
    + rewrite (sumQ_map_ext
                 (fun k0 => sumQ (map v (filter (fun x => Z.eqb (key x) k0) l)))
                 (fun k0 => sumQ (map v (filter (fun x => Z.eqb (key x) k0)
                      (filter (fun x => negb (Z.eqb (key x) k)) l)))));
        [reflexivity|].
      intros k0 Hk0. rewrite filter_filter_implied; trivial.
      intros x Hx. apply Z.eqb_eq in Hx. apply negb_true_iff, Z.eqb_neq.
      intros E. apply Hk. congruence.
    + intros x Hx. apply filter_In in Hx. destruct Hx as [Hx Hne].
      apply negb_true_iff, Z.eqb_neq in Hne.
      destruct (Hl x Hx) as [E|Hin]; [congruence | exact Hin].
Qed.

(** X15.  The chart has one point per date that occurs in the filtered
    tracking table, and its revenues add up to the "Revenue" KPI of
    [calculate_roas] on the same table. *)
Theorem rev_time_total (tracking_f : list FilteredTracking)
  (payouts : list Payout) :
  NoDup (map fst (rev_time tracking_f)) /\
  (forall d, In d (map fst (rev_time tracking_f)) <->
             exists m, In m tracking_f /\ date (tracked m) = d) /\
  sumQ (map snd (rev_time tracking_f))
  == fst (fst (fst (calculate_roas (tracking_events tracking_f) payouts))).
Proof.
  assert (Hkeys : map fst (rev_time tracking_f)
                  = group_keys Z.eq_dec Z.leb
                      (map (fun m => date (tracked m)) tracking_f)).
  { unfold rev_time. rewrite map_map. cbn [fst]. apply map_id. }
  split; [|split].
  - rewrite Hkeys. apply group_keys_NoDup.
  - intros d. rewrite Hkeys, group_keys_In, in_map_iff.
    split; intros (m & H1 & H2); exists m; tauto.
  - unfold rev_time, calculate_roas, tracking_events. cbn [fst].
    rewrite !map_map. cbn [snd].
    apply (sumQ_by_key (fun m => date (tracked m))
             (fun m => revenue (event (tracked m)))).
    + apply group_keys_NoDup.
    + intros m Hm. apply group_keys_In.
      now apply (in_map (fun m => date (tracked m))).
Qed.

Lemma rev_time_total_witness :
  map fst
    (rev_time
       (filter_tracking sample_raw_tracking sample_influencers 0 30
          all_platforms all_categories))
  = [12%Z; 20%Z] /\
  sumQ (map snd
          (rev_time
             (filter_tracking sample_raw_tracking sample_influencers 0 30
                all_platforms all_categories)))
  == fst (fst (fst (dashboard_roas sample_raw_tracking sample_influencers
                      sample_payouts 0 30 all_platforms all_categories))).
Proof.
  split; [vm_compute; reflexivity|].
  apply (rev_time_total
           (filter_tracking sample_raw_tracking sample_influencers 0 30
              all_platforms all_categories) sample_payouts).
Defined.

(** ** The per-influencer iROAS table *)

Lemma filter_partition_perm {A : Type} (keep : A -> bool) (l : list A) :
  Permutation (filter keep l ++ filter (fun x => negb (keep x)) l) l.
Proof.
  induction l as [|h t IH]; simpl; [constructor|].
  destruct (keep h); simpl.
  - now constructor.
  - symmetry. apply Permutation_cons_app. now symmetry.
Qed.

Lemma sort_values_iroas_desc_perm (l : list IroasRow) :
  Permutation (sort_values_iroas_desc l) l.
Proof.
  unfold sort_values_iroas_desc.
  rewrite sort_by_perm.
  rewrite (filter_ext (fun r => isnan (ir_iROAS r))
             (fun r => negb (notna (ir_iROAS r)))).
  - apply (filter_partition_perm (fun r => notna (ir_iROAS r))).
  - intros r. unfold notna. now rewrite negb_involutive.
Qed.

Lemma iroas_by_influencer_In (inf_perf : list InfPerf) (a : IroasAgg) :
  In a (iroas_by_influencer inf_perf) <->
  In (ia_influencer_id a) (map ip_influencer_id inf_perf) /\
  a = (let g := filter (fun r => Z.eqb (ip_influencer_id r)
                                   (ia_influencer_id a)) inf_perf in
       mkIroasAgg (ia_influencer_id a)
         (nansum (map ip_incremental_revenue g))
         (mean (map ip_total_payout g))
         (mean (map iROAS g))).
Proof.
  unfold iroas_by_influencer. rewrite in_map_iff. split.
  - intros (i & <- & Hi). apply group_keys_In in Hi. now split.
  - intros [Hi Ha]. exists (ia_influencer_id a). split; [now symmetry|].
    now apply group_keys_In.
Qed.

Lemma iroas_table_In (inf_perf : list InfPerf)
  (influencers : list Influencer) (row : IroasRow) :
  In row (iroas_table inf_perf influencers) <->
  exists a x, In a (iroas_by_influencer inf_perf) /\ In x influencers /\
    id x = ia_influencer_id a /\
    row = mkIroasRow (name x) (category x) (platform x)
            (total_incremental_rev a) (spend a) (ia_iROAS a).
Proof.
  unfold iroas_table. split.
  - intros H. apply (Permutation_in _ (sort_values_iroas_desc_perm _)) in H.
    apply merge_inner_In in H. destruct H as (a & x & Ha & Hx & Hon & ->).
    apply Z.eqb_eq in Hon. exists a, x. now repeat split.
  - intros (a & x & Ha & Hx & Hid & ->).
    apply (Permutation_in _ (Permutation_sym (sort_values_iroas_desc_perm _))).
    apply merge_inner_In. exists a, x. repeat split; trivial.
    apply Z.eqb_eq. now symmetry.
Qed.

Lemma nansum_all_nan (l : list fval) :
  (forall x, In x l -> x = NaN) -> nansum l = Num 0.
Proof.
  intros H. unfold nansum. rewrite filter_none; [reflexivity|].
  intros x Hx. now rewrite (H x Hx).
Qed.

(** X16.  Under the condition of X11 every row of the dashboard's
    "Incremental ROAS by Influencer" table shows a total incremental
    revenue of 0 (the sum of no defined cell) and a NaN iROAS. *)
Theorem dashboard_iroas_table_zero (tracking : list TrackingRow)
  (influencers : list Influencer) (payouts : list Payout)
  (start_date end_date : Z) (platform_filter category_filter : list string)
  (row : IroasRow) :
  (forall t, In t tracking -> influencer_id (event t) <> None ->
             source (event t) = "influencer") ->
  In row
    (iroas_table
       (fst (dashboard_iroas tracking influencers payouts start_date end_date
               platform_filter category_filter))
       influencers) ->
  ir_total_incremental_rev row = Num 0 /\ ir_iROAS row = NaN.
Proof.
  intros Hids Hrow. apply iroas_table_In in Hrow.
  destruct Hrow as (a & x & Ha & _ & _ & ->).
  apply iroas_by_influencer_In in Ha. destruct Ha as [_ ->].
  cbn [ir_total_incremental_rev ir_iROAS total_incremental_rev ia_iROAS].
  unfold dashboard_iroas, calculate_iroas. cbn [fst].
  assert (Hb : baseline
                 (tracking_events
                    (filter_tracking tracking influencers start_date end_date
                       platform_filter category_filter)) = []).
  { apply baseline_without_organic. intros e He Hs.
    apply tracking_events_In in He.
    destruct He as (t & y & Ht & <- & _ & Hi).
    assert (Hsrc : source (event t) = "influencer").
    { apply Hids; trivial. congruence. }
    rewrite Hs in Hsrc. discriminate Hsrc. }
  split.
  - apply nansum_all_nan. intros v Hv. apply in_map_iff in Hv.
    destruct Hv as (r & <- & Hr). apply filter_In in Hr.
    destruct Hr as [Hr _].
    now apply (inf_perf_table_without_baseline _ payouts r Hb).
  - apply mean_all_nan. intros v Hv. apply in_map_iff in Hv.
    destruct Hv as (r & <- & Hr). apply filter_In in Hr.
    destruct Hr as [Hr _].
    now apply (inf_perf_table_without_baseline _ payouts r Hb).
Qed.

Lemma sample_ids_on_influencer_rows :
  forall t, In t sample_raw_tracking -> influencer_id (event t) <> None ->
            source (event t) = "influencer".
Proof.
  intros t Ht. vm_compute in Ht.
  repeat (destruct Ht as [<-|Ht];
          [cbn; first [reflexivity | intros C; now contradiction C]|]).
  destruct Ht.
Defined.

Lemma dashboard_iroas_table_zero_witness :
  ir_total_incremental_rev sample_dashboard_row_7 = Num 0 /\
  ir_iROAS sample_dashboard_row_7 = NaN.
Proof.
  apply (dashboard_iroas_table_zero sample_raw_tracking sample_influencers
           sample_payouts 0 30 all_platforms all_categories).
  - exact sample_ids_on_influencer_rows.
  - vm_compute. left. reflexivity.
Defined.

Lemma unique_key_row {R : Type} (key : R -> Z) (rs : list R) (x y : R) :
  NoDup (map key rs) -> In x rs -> In y rs -> key x = key y -> x = y.
Proof.
  induction rs as [|h t IH]; simpl; intros Hnd Hx Hy E; [contradiction|].
  inversion Hnd as [|? ? Hh Ht]; subst.
  destruct Hx as [->|Hx], Hy as [->|Hy]; trivial.
  - exfalso. apply Hh. rewrite E. now apply in_map.
  - exfalso. apply Hh. rewrite <- E. now apply in_map.
  - now apply IH.
Qed.

Lemma sumQ_constant {A : Type} (q : Q) (l : list A) :
  sumQ (map (fun _ => q) l) == inject_Z (Z.of_nat (List.length l)) * q.
Proof.
  induction l as [|h t IH].
  - unfold sumQ. simpl. ring.
  - cbn [map List.length]. rewrite sumQ_cons, IH, Nat2Z.inj_succ.
    unfold Z.succ. rewrite inject_Z_plus. ring.
Qed.

(** X17.  With one payout row per influencer, the spend of an influencer
    in the per-influencer aggregate (the mean of [total_payout] over the
    influencer's product rows) equals that influencer's payout, and is
    NaN for an influencer without a payout row. *)
Theorem iroas_spend_is_payout (tracking_f : list TrackingEvent)
  (payouts : list Payout) (a : IroasAgg) :
  NoDup (map pay_influencer_id payouts) ->
  In a (iroas_by_influencer (fst (calculate_iroas tracking_f payouts))) ->
  (forall x, In x payouts -> pay_influencer_id x = ia_influencer_id a ->
     exists q, spend a = Num q /\ q == total_payout x) /\
  ((forall x, In x payouts -> pay_influencer_id x <> ia_influencer_id a) ->
   spend a = NaN).
Proof.
  intros Hnd Ha. cbn [calculate_iroas fst] in Ha.
  apply iroas_by_influencer_In in Ha. destruct Ha as [Hkey Ha].
  set (i := ia_influencer_id a) in *.
  set (g := filter (fun r => Z.eqb (ip_influencer_id r) i)
              (inf_perf_table tracking_f payouts)) in *.
  assert (Hspend : spend a = mean (map ip_total_payout g)) by now rewrite Ha.
  assert (Hrows : forall r, In r g ->
            exists p, ip_total_payout r
                      = joined (fun x => Num (total_payout x)) p /\
              match p with
              | Some x => In x payouts /\ pay_influencer_id x = i
              | None => forall x, In x payouts -> pay_influencer_id x <> i
              end).
  { intros r Hr. apply filter_In in Hr. destruct Hr as [Hr Hi].
    apply Z.eqb_eq in Hi. apply inf_perf_table_row in Hr.
    destruct Hr as (gr & b & p & -> & _ & _ & Hp).
    change (ip_influencer_id (with_payout (with_baseline gr b) p))
      with (g_influencer_id gr) in Hi.
    exists p. split; [reflexivity|]. now rewrite <- Hi. }
  assert (Hne : g <> []).
  { apply in_map_iff in Hkey. destruct Hkey as (r & Hri & Hr).
    assert (Hin : In r g).
    { apply filter_In. split; trivial. now apply Z.eqb_eq. }
    intros E. rewrite E in Hin. contradiction. }
  split.
  - intros x Hx Hxi.
    assert (E : map ip_total_payout g
                = map Num (map (fun _ => total_payout x) g)).
    { rewrite map_map. apply map_ext_in. intros r Hr.
      destruct (Hrows r Hr) as (p & -> & Hp). destruct p as [y|].
      - destruct Hp as [Hy Hyi]. cbn [joined]. do 2 f_equal.
        apply (unique_key_row pay_influencer_id payouts); trivial.
        congruence.
      - exfalso. now apply (Hp x Hx). }
    rewrite Hspend, E, mean_num
      by (destruct g; [congruence | discriminate]).
    eexists. split; [reflexivity|].
    rewrite sumQ_constant, length_map.
    assert (Hn : ~ inject_Z (Z.of_nat (List.length g)) == 0).
    { apply is_zero_false_iff, is_zero_of_nat.
      destruct g; [congruence | simpl; lia]. }
    field. exact Hn.
  - intros Hno. rewrite Hspend. apply mean_all_nan.
    intros v Hv. apply in_map_iff in Hv. destruct Hv as (r & <- & Hr).
    destruct (Hrows r Hr) as (p & -> & Hp). destruct p as [y|]; trivial.
    exfalso. destruct Hp as [Hy Hyi]. now apply (Hno y Hy).
Qed.

Lemma iroas_spend_is_payout_witness :
  (forall x, In x sample_payouts ->
     pay_influencer_id x = ia_influencer_id sample_agg_7 ->
     exists q, spend sample_agg_7 = Num q /\ q == total_payout x) /\
  ((forall x, In x sample_payouts ->
      pay_influencer_id x <> ia_influencer_id sample_agg_7) ->
   spend sample_agg_7 = NaN).
Proof.
  apply (iroas_spend_is_payout sample_tracking sample_payouts).
  - repeat constructor. intros [].
  - vm_compute. right. left. reflexivity.
Defined.

(** ** Order of the per-influencer iROAS table *)

Section SortingOn.
Context {A : Type} (leb : A -> A -> bool) (P : A -> Prop).

(** Sorting with a comparison that is total and transitive on the rows
    that satisfy [P] only. *)
Hypothesis leb_total_on :
  forall a b, P a -> P b -> leb a b = true \/ leb b a = true.
Hypothesis leb_trans_on :
  forall a b c, P a -> P b -> P c ->
    leb a b = true -> leb b c = true -> leb a c = true.

Lemma insert_sorted_StronglySorted_on (x : A) (l : list A) :
  P x -> Forall P l ->
  StronglySorted (fun u v => leb u v = true) l ->
  StronglySorted (fun u v => leb u v = true) (insert_sorted leb x l).
Proof.
  intros Hx HP Hs. induction Hs as [|h t Ht IH Hh]; simpl.
  - repeat constructor.
  - inversion HP as [|? ? HPh HPt]; subst.
    destruct (leb x h) eqn:E.
    + constructor; [now constructor|].
      constructor; trivial.
      rewrite Forall_forall in *. intros y Hy.
      apply (leb_trans_on x h y); auto.
    + constructor; [now apply IH|].
      apply (Permutation_Forall (Permutation_sym (insert_sorted_perm leb x t))).
      constructor; trivial.
      destruct (leb_total_on x h Hx HPh) as [C|C]; congruence.
Qed.

Lemma sort_by_StronglySorted_on (l : list A) :
  Forall P l ->
  StronglySorted (fun u v => leb u v = true) (sort_by leb l).
Proof.
  induction 1 as [|h t Hh Ht IH]; simpl; [constructor|].
  apply insert_sorted_StronglySorted_on; trivial.
  apply (Permutation_Forall (Permutation_sym (sort_by_perm leb t))).
  exact Ht.
Qed.
End SortingOn.

Lemma fleb_total (x y : fval) :
  notna x = true -> notna y = true -> fleb x y = true \/ fleb y x = true.
Proof.
  destruct x as [a| | |], y as [b| | |]; cbn; intros Hx Hy;
    try discriminate; auto.
  rewrite !Qle_bool_iff.
  destruct (Qlt_le_dec a b) as [C|C]; [left; now apply Qlt_le_weak | now right].
Qed.

Lemma fleb_trans (x y z : fval) :
  fleb x y = true -> fleb y z = true -> fleb x z = true.
Proof.
  destruct x as [a| | |], y as [b| | |], z as [c| | |]; cbn;
    intros Hxy Hyz; try discriminate; trivial.
  rewrite Qle_bool_iff in *. now apply Qle_trans with b.
Qed.

(** X18.  The per-influencer iROAS table lists first the rows whose iROAS
    is not NaN, in descending order of iROAS, then the rows whose iROAS
    is NaN; its rows are those of the inner join of the per-influencer
    aggregate with the roster, none lost and none added. *)
Theorem iroas_table_sorted (inf_perf : list InfPerf)
  (influencers : list Influencer) :
  (exists defined missing,
     iroas_table inf_perf influencers = defined ++ missing /\
     StronglySorted (fun a b => fleb (ir_iROAS b) (ir_iROAS a) = true)
       defined /\
     Forall (fun r => notna (ir_iROAS r) = true) defined /\
     Forall (fun r => ir_iROAS r = NaN) missing) /\
  (forall row, In row (iroas_table inf_perf influencers) <->
     exists a x, In a (iroas_by_influencer inf_perf) /\ In x influencers /\
       id x = ia_influencer_id a /\
       row = mkIroasRow (name x) (category x) (platform x)
               (total_incremental_rev a) (spend a) (ia_iROAS a)).
Proof.
  split; [|intros row; apply iroas_table_In].
  unfold iroas_table, sort_values_iroas_desc.
  set (rows := merge_inner _ _ _ influencers).
  exists (sort_by (fun a b => fleb (ir_iROAS b) (ir_iROAS a))
            (filter (fun r => notna (ir_iROAS r)) rows)),
         (filter (fun r => isnan (ir_iROAS r)) rows).
  assert (Hdef : Forall (fun r => notna (ir_iROAS r) = true)
                   (filter (fun r => notna (ir_iROAS r)) rows)).
  { apply Forall_forall. intros r Hr. now apply filter_In in Hr. }
  split; [reflexivity|]. split; [|split].
  - apply (sort_by_StronglySorted_on _
             (fun r => notna (ir_iROAS r) = true)); trivial.
    + intros a b Ha Hb. now apply fleb_total.
    + intros a b c _ _ _ Hab Hbc. now apply (fleb_trans _ (ir_iROAS b)).
  - apply (Permutation_Forall (Permutation_sym (sort_by_perm _ _))).
    exact Hdef.
  - apply Forall_forall. intros r Hr. apply filter_In in Hr.
    destruct Hr as [_ Hr]. now destruct (ir_iROAS r).
Qed.

(** ** Cell colours *)

(** X19.  With [bad_thresh < good_thresh], as at both call sites (0.02
    and 0.05 for the engagement rate, 1 and 2 for the iROAS), a numeric
    cell is green exactly from [good_thresh] up, red exactly from
    [bad_thresh] down and uncoloured strictly in between; a NaN cell is
    never coloured. *)
Theorem highlight_cells_bands (good_thresh bad_thresh v : Q) :
  bad_thresh < good_thresh ->
  (highlight_cells (Num v) good_thresh bad_thresh
   = "background-color: #d4edda" <-> good_thresh <= v) /\
  (highlight_cells (Num v) good_thresh bad_thresh
   = "background-color: #f8d7da" <-> v <= bad_thresh) /\
  (highlight_cells (Num v) good_thresh bad_thresh = ""
   <-> bad_thresh < v /\ v < good_thresh) /\
  highlight_cells NaN good_thresh bad_thresh = "".
Proof.
  intros Hlt. unfold highlight_cells. cbn [fgeb_Q fleb_Q].
  destruct (Qle_bool good_thresh v) eqn:Eg;
    [apply Qle_bool_iff in Eg|];
    (destruct (Qle_bool v bad_thresh) eqn:Eb;
     [apply Qle_bool_iff in Eb|]).
  - exfalso. apply (Qlt_irrefl v).
    apply Qle_lt_trans with bad_thresh; trivial.
    now apply Qlt_le_trans with good_thresh.
  - assert (Hb : ~ v <= bad_thresh).
    { intros C. apply Qle_bool_iff in C. congruence. }
    repeat split; trivial; try discriminate; try tauto.
    intros [_ C]. exfalso. now apply (Qlt_not_le _ _ C).
  - assert (Hg : ~ good_thresh <= v).
    { intros C. apply Qle_bool_iff in C. congruence. }
    repeat split; trivial; try discriminate; try tauto.
    intros [C _]. exfalso. now apply (Qlt_not_le _ _ C).
  - assert (Hg : ~ good_thresh <= v).
    { intros C. apply Qle_bool_iff in C. congruence. }
    assert (Hb : ~ v <= bad_thresh).
    { intros C. apply Qle_bool_iff in C. congruence. }
    repeat split; trivial; try discriminate; try tauto.
    + now apply Qnot_le_lt.
    + now apply Qnot_le_lt.
Qed.

Lemma highlight_cells_bands_witness :
  (highlight_cells (Num (500 # 10000)) (5 # 100) (2 # 100)
   = "background-color: #d4edda" <-> (5 # 100) <= (500 # 10000)) /\
  (highlight_cells (Num (500 # 10000)) (5 # 100) (2 # 100)
   = "background-color: #f8d7da" <-> (500 # 10000) <= (2 # 100)) /\
  (highlight_cells (Num (500 # 10000)) (5 # 100) (2 # 100) = ""
   <-> (2 # 100) < (500 # 10000) /\ (500 # 10000) < (5 # 100)) /\
  highlight_cells NaN (5 # 100) (2 # 100) = "".
Proof.
  apply (highlight_cells_bands (5 # 100) (2 # 100) (500 # 10000)).
  reflexivity.
Defined.

(** * The data generator *)

(** ** Generated tracking rows *)

(** X20.  The generated tracking table has 3000 rows, the k-th built
    from the k-th draw.  Every row carries an influencer_id exactly when
    its source is "influencer" and a campaign exactly when its source is
    not "organic"; its order count is the drawn order flag and its
    revenue that flag times the price drawn for the row.  With a flag of
    0 or 1 and a price among 499, 999, 1499 and 1999, as the script draws
    them, the revenue is 0 for a row without an order and the drawn price
    for a row with one. *)
Theorem generated_tracking_invariants (start_date : Z)
  (draw : nat -> TrackingDraw) (t : TrackingRow) :
  In t (generate_tracking start_date draw) ->
  List.length (generate_tracking start_date draw) = 3000%nat /\
  (influencer_id (event t) <> None <-> source (event t) = "influencer") /\
  (campaign t <> None <-> source (event t) <> "organic") /\
  exists k,
    (k < 3000)%nat /\
    nth_error (generate_tracking start_date draw) k = Some t /\
    source (event t) = dr_src (draw k) /\
    orders (event t) = dr_order_flag (draw k) /\
    revenue (event t)
    = inject_Z (dr_order_flag (draw k) * dr_price (draw k)) /\
    (dr_order_flag (draw k) = 0%Z \/ dr_order_flag (draw k) = 1%Z ->
     In (dr_price (draw k)) [499; 999; 1499; 1999]%Z ->
     (orders (event t) = 0%Z -> revenue (event t) = 0) /\
     (orders (event t) = 1%Z ->
      revenue (event t) = inject_Z (dr_price (draw k))) /\
     In (revenue (event t)) (map inject_Z [0; 499; 999; 1499; 1999]%Z)).
Proof.
  unfold generate_tracking. rewrite in_map_iff. intros (k & <- & Hk).
  apply in_seq in Hk.
  unfold generate_tracking_row.
  cbn [event campaign source influencer_id orders revenue].
  split; [now rewrite length_map, length_seq|].
  split; [|split].
  - destruct (String.eqb_spec (dr_src (draw k)) "influencer") as [E|E].
    + split; [now intros _ | discriminate].
    + split; [intros C; now contradiction C | intros C; now contradiction E].
  - destruct (String.eqb_spec (dr_src (draw k)) "organic") as [E|E];
      cbn [negb].
    + split; [intros C; now contradiction C | intros C; now contradiction C].
    + split; [now intros _ | discriminate].
  - exists k. split; [lia|]. split.
    { rewrite nth_error_map, nth_error_seq.
      destruct (Nat.ltb_spec k 3000) as [_|C]; [reflexivity | lia]. }
    split; [reflexivity|]. split; [reflexivity|]. split; [reflexivity|].
    intros Hflag Hprice. split; [|split].
    + intros ->. reflexivity.
    + intros ->. now rewrite Z.mul_1_l.
    + destruct Hflag as [-> | ->].
      * left. reflexivity.
      * rewrite Z.mul_1_l. right. cbn [map].
        cbn [In] in Hprice.
        destruct Hprice as [<-|[<-|[<-|[<-|[]]]]]; cbn [In]; tauto.
Qed.

(** The second row of the sample draws: an organic row with an order at
    499. *)
Lemma generated_tracking_invariants_witness :
  let t := generate_tracking_row 0 (sample_tracking_draw 1) in
  List.length (generate_tracking 0 sample_tracking_draw) = 3000%nat /\
  (influencer_id (event t) <> None <-> source (event t) = "influencer") /\
  (campaign t <> None <-> source (event t) <> "organic") /\
  exists k,
    (k < 3000)%nat /\
    nth_error (generate_tracking 0 sample_tracking_draw) k = Some t /\
    source (event t) = dr_src (sample_tracking_draw k) /\
    orders (event t) = dr_order_flag (sample_tracking_draw k) /\
    revenue (event t)
    = inject_Z (dr_order_flag (sample_tracking_draw k)
                * dr_price (sample_tracking_draw k)) /\
    (dr_order_flag (sample_tracking_draw k) = 0%Z \/
     dr_order_flag (sample_tracking_draw k) = 1%Z ->
     In (dr_price (sample_tracking_draw k)) [499; 999; 1499; 1999]%Z ->
     (orders (event t) = 0%Z -> revenue (event t) = 0) /\
     (orders (event t) = 1%Z ->
      revenue (event t) = inject_Z (dr_price (sample_tracking_draw k))) /\
     In (revenue (event t)) (map inject_Z [0; 499; 999; 1499; 1999]%Z)).
Proof.
  apply (generated_tracking_invariants 0 sample_tracking_draw).
  unfold generate_tracking. apply in_map_iff. exists 1%nat.
  split; [reflexivity|]. apply in_seq. lia.
Defined.

(** ** Generated keys *)

Lemma generate_payouts_from_ids (k : nat) (draw : nat -> PayoutDraw)
  (posts : list Post) (tracking : list TrackingEvent)
  (influencers : list Influencer) :
  map pay_influencer_id
    (generate_payouts_from k draw posts tracking influencers)
  = map id influencers.
Proof.
  revert k. induction influencers as [|r rest IH]; intros k; simpl; trivial.
  rewrite IH. f_equal. unfold generate_payout_row.
  now destruct (String.eqb (dr_basis (draw k)) "post").
Qed.

Lemma generate_influencers_ids (draw : nat -> InfluencerDraw) :
  map id (generate_influencers draw) = map Z.of_nat (seq 1 n_inf).
Proof.
  unfold generate_influencers. rewrite map_map. cbn [id].
  rewrite <- seq_shift, map_map. reflexivity.
Qed.

(** X21.  The generated roster has the ids 1..20, each once, and the
    generated payout table has exactly one row per roster influencer, in
    roster order; so both tables have unique keys. *)
Theorem generated_keys_unique (idraw : nat -> InfluencerDraw)
  (pdraw : nat -> PayoutDraw) (posts : list Post)
  (tracking : list TrackingEvent) :
  let influencers := generate_influencers idraw in
  let payouts := generate_payouts pdraw posts tracking influencers in
  map id influencers = map Z.of_nat (seq 1 n_inf) /\
  NoDup (map id influencers) /\
  map pay_influencer_id payouts = map id influencers /\
  NoDup (map pay_influencer_id payouts).
Proof.
  cbv zeta.
  assert (Hnd : NoDup (map id (generate_influencers idraw))).
  { rewrite generate_influencers_ids.
    apply Finite.Injective_map_NoDup; [|apply seq_NoDup].
    intros a b. apply Nat2Z.inj. }
  unfold generate_payouts. rewrite generate_payouts_from_ids.
  split; [apply generate_influencers_ids|].
  split; [exact Hnd|]. split; [reflexivity | exact Hnd].
Qed.

(** ** Generated payouts *)

Lemma generate_payouts_from_In (k : nat) (draw : nat -> PayoutDraw)
  (posts : list Post) (tracking : list TrackingEvent)
  (influencers : list Influencer) (p : Payout) :
  In p (generate_payouts_from k draw posts tracking influencers) ->
  exists j r, In r influencers /\
    p = generate_payout_row (draw j) posts tracking r.
Proof.
  revert k. induction influencers as [|r rest IH]; intros k; simpl;
    [contradiction|].
  intros [<-|Hp].
  - exists k, r. split; [now left | reflexivity].
  - destruct (IH _ Hp) as (j & r' & Hr' & ->).
    exists j, r'. split; [now right | reflexivity].
Qed.

(** X22.  Every generated payout row has total_payout = rate * orders,
    where the orders column is the influencer's number of posts for the
    "post" basis (so such a payout does not depend on any order and is
    not zeroed by their absence) and the sum of the order flags of the
    influencer's influencer-sourced rows otherwise; with a rate and order
    flags that are not negative the payout is not negative. *)
Theorem generated_payout_amount (draw : nat -> PayoutDraw)
  (posts : list Post) (tracking : list TrackingEvent)
  (influencers : list Influencer) (p : Payout) :
  In p (generate_payouts draw posts tracking influencers) ->
  total_payout p = rate p * inject_Z (pay_orders p) /\
  (basis p = "post" ->
   pay_orders p
   = Z.of_nat (List.length
                 (filter (fun q => Z.eqb (post_influencer_id q)
                                     (pay_influencer_id p)) posts))) /\
  (basis p <> "post" ->
   pay_orders p
   = sumZ (map orders
             (filter (fun t => key_matches (influencer_id t)
                                 (pay_influencer_id p) &&
                               has_source "influencer" t) tracking))) /\
  (0 <= rate p -> (forall t, In t tracking -> (0 <= orders t)%Z) ->
   0 <= total_payout p).
Proof.
  intros Hp. apply generate_payouts_from_In in Hp.
  destruct Hp as (j & r & _ & ->). unfold generate_payout_row.
  set (d := draw j).
  assert (Hnn : forall a b, 0 <= inject_Z a -> (0 <= b)%Z ->
                            0 <= inject_Z (a * b)).
  { intros a b Ha Hb. rewrite <- (Zle_Qle 0) in Ha.
    change 0 with (inject_Z 0). rewrite <- Zle_Qle. now apply Z.mul_nonneg_nonneg. }
  destruct (String.eqb_spec (dr_basis d) "post") as [E|E];
    cbn [total_payout rate pay_orders basis pay_influencer_id].
  - split; [apply inject_Z_mult|]. split; [reflexivity|].
    split; [intros C; now contradiction C|].
    intros Hr _. apply Hnn; trivial. apply Nat2Z.is_nonneg.
  - split; [apply inject_Z_mult|]. split; [intros C; now contradiction E|].
    split; [reflexivity|].
    intros Hr Ho. apply Hnn; trivial. apply sumZ_nonneg.
    intros x Hx. apply in_map_iff in Hx. destruct Hx as (t & <- & Ht).
    apply filter_In in Ht. now apply Ho.
Qed.

Lemma generated_payout_amount_witness :
  let p := generate_payout_row (sample_payout_draw 0)
             sample_posts sample_tracking
             (mkInfluencer 7 "Influencer_7" "Fitness" "F" 120000 "YouTube") in
  total_payout p = 4000 /\
  total_payout p = rate p * inject_Z (pay_orders p) /\
  (basis p = "post" ->
   pay_orders p
   = Z.of_nat (List.length
                 (filter (fun q => Z.eqb (post_influencer_id q)
                                     (pay_influencer_id p)) sample_posts))).
Proof.
  split; [vm_compute; reflexivity|].
  assert (Hin : In (generate_payout_row (sample_payout_draw 0)
                      sample_posts sample_tracking
                      (mkInfluencer 7 "Influencer_7" "Fitness" "F" 120000
                         "YouTube"))
                  (generate_payouts sample_payout_draw sample_posts
                     sample_tracking sample_influencers)).
  { vm_compute. left. reflexivity. }
  destruct (generated_payout_amount sample_payout_draw sample_posts
              sample_tracking sample_influencers _ Hin) as (H1 & H2 & _).
  split; [exact H1 | exact H2].
Defined.

(** ** The dashboard on generated data *)

(** X23.  On a tracking table built by the generator's loop, whatever the
    draws, and passed to the dashboard as it is, no organic row passes
    the sidebar filter: every row of the dashboard's iROAS table has a
    NaN iROAS and the "Avg iROAS" is NaN, for every roster, payout table,
    date window and selection. *)
Theorem dashboard_on_generated_tracking (gen_start : Z)
  (draw : nat -> TrackingDraw) (influencers : list Influencer)
  (payouts : list Payout) (start_date end_date : Z)
  (platform_filter category_filter : list string) :
  (forall r,
     In r (fst (dashboard_iroas (generate_tracking gen_start draw)
                  influencers payouts start_date end_date platform_filter
                  category_filter)) ->
     ip_incremental_revenue r = NaN /\ iROAS r = NaN) /\
  snd (dashboard_iroas (generate_tracking gen_start draw) influencers
         payouts start_date end_date platform_filter category_filter)
  = NaN.
Proof.
  assert (Hb : baseline
                 (tracking_events
                    (filter_tracking (generate_tracking gen_start draw)
                       influencers start_date end_date platform_filter
                       category_filter)) = []).
  { apply baseline_without_organic. intros e He Hs.
    apply tracking_events_In in He.
    destruct He as (t & x & Ht & <- & _ & Hi).
    unfold generate_tracking in Ht. apply in_map_iff in Ht.
    destruct Ht as (k & <- & _).
    unfold generate_tracking_row in Hs, Hi.
    cbn [event source influencer_id] in Hs, Hi.
    rewrite Hs in Hi. discriminate Hi. }
  unfold dashboard_iroas, calculate_iroas. cbn [fst snd]. split.
  - intros r Hr.
    destruct (inf_perf_table_without_baseline _ payouts r Hb Hr)
      as (_ & H1 & H2).
    now split.
  - apply mean_all_nan. intros v Hv. apply in_map_iff in Hv.
    destruct Hv as (r & <- & Hr).
    now apply (inf_perf_table_without_baseline _ payouts r Hb).
Qed.

(** ** Generated posts *)

Lemma traverse_Some {A B : Type} (f : A -> option B) (l : list A) :
  (forall x, In x l -> exists y, f x = Some y) ->
  exists ys, traverse f l = Some ys /\
             Forall2 (fun x y => f x = Some y) l ys.
Proof.
  induction l as [|h t IH]; intros H; cbn [traverse].
  - exists []. split; [reflexivity | constructor].
  - destruct (H h (or_introl eq_refl)) as (y & Hy).
    destruct (IH (fun x Hx => H x (or_intror Hx))) as (ys & Hys & HF).
    exists (y :: ys). rewrite Hy, Hys. split; [reflexivity|].
    now constructor.
Qed.

Lemma Forall2_In_l {A B : Type} (R : A -> B -> Prop) (l : list A)
  (l' : list B) (x : A) :
  Forall2 R l l' -> In x l -> exists y, In y l' /\ R x y.
Proof.
  induction 1 as [|a b t t' Hab _ IH]; intros Hx; [contradiction|].
  destruct Hx as [->|Hx].
  - exists b. split; [now left | exact Hab].
  - destruct (IH Hx) as (y & Hy & HR). exists y. split; [now right | exact HR].
Qed.

Lemma Forall2_In_r {A B : Type} (R : A -> B -> Prop) (l : list A)
  (l' : list B) (y : B) :
  Forall2 R l l' -> In y l' -> exists x, In x l /\ R x y.
Proof.
  induction 1 as [|a b t t' Hab _ IH]; intros Hy; [contradiction|].
  destruct Hy as [->|Hy].
  - exists a. split; [now left | exact Hab].
  - destruct (IH Hy) as (x & Hx & HR). exists x. split; [now right | exact HR].
Qed.

Lemma Forall2_map_eq {A B C : Type} (f : A -> C) (g : B -> C)
  (R : A -> B -> Prop) (l : list A) (l' : list B) :
  (forall x y, R x y -> g y = f x) ->
  Forall2 R l l' -> map g l' = map f l.
Proof.
  intros H. induction 1 as [|a b t t' Hab _ IH]; simpl; trivial.
  now rewrite IH, (H a b Hab).
Qed.

Lemma combine_In_right {A B : Type} (l1 : list A) (l2 : list B) (y : B) :
  (List.length l2 <= List.length l1)%nat -> In y l2 ->
  exists x, In (x, y) (combine l1 l2).
Proof.
  revert l2. induction l1 as [|a t IH]; intros [|b t2]; simpl;
    intros Hlen Hy; try contradiction; try lia.
  destruct Hy as [->|Hy].
  - exists a. now left.
  - destruct (IH t2) as (x & Hx); [lia | exact Hy |].
    exists x. now right.
Qed.

Lemma combine_In_left {A B : Type} (l1 : list A) (l2 : list B) (x : A) :
  (List.length l1 <= List.length l2)%nat -> In x l1 ->
  exists y, In (x, y) (combine l1 l2).
Proof.
  revert l2. induction l1 as [|a t IH]; intros [|b t2]; simpl;
    intros Hlen Hx; try contradiction; try lia.
  destruct Hx as [->|Hx].
  - exists b. now left.
  - destruct (IH t2) as (y & Hy); [lia | exact Hx |].
    exists y. now right.
Qed.

Lemma map_fst_combine {A B : Type} (l1 : list A) (l2 : list B) :
  (List.length l1 <= List.length l2)%nat -> map fst (combine l1 l2) = l1.
Proof.
  revert l2. induction l1 as [|a t IH]; intros [|b t2]; simpl;
    intros Hlen; trivial; try lia.
  f_equal. apply IH. lia.
Qed.

Lemma platform_of_roster (influencers : list Influencer) (iid : Z) :
  In iid (map id influencers) ->
  exists x, In x influencers /\ id x = iid /\
            platform_of influencers iid = Some (platform x).
Proof.
  intros Hin. apply in_map_iff in Hin. destruct Hin as (r & Hr & Hin).
  unfold platform_of.
  assert (Hf : In r (filter (fun i => Z.eqb (id i) iid) influencers)).
  { apply filter_In. split; trivial. now apply Z.eqb_eq. }
  destruct (filter (fun i => Z.eqb (id i) iid) influencers) as [|x xs] eqn:E;
    [contradiction|].
  assert (Hx : In x (filter (fun i => Z.eqb (id i) iid) influencers))
    by (rewrite E; now left).
  apply filter_In in Hx. destruct Hx as [Hx Hxi]. apply Z.eqb_eq in Hxi.
  exists x. now repeat split.
Qed.

Lemma platform_of_Some (influencers : list Influencer) (iid : Z)
  (pl : string) :
  platform_of influencers iid = Some pl ->
  exists x, In x influencers /\ id x = iid /\ platform x = pl.
Proof.
  unfold platform_of.
  destruct (filter (fun i => Z.eqb (id i) iid) influencers) as [|x xs] eqn:E;
    [discriminate|].
  intros [= <-].
  assert (Hx : In x (filter (fun i => Z.eqb (id i) iid) influencers))
    by (rewrite E; now left).
  apply filter_In in Hx. destruct Hx as [Hx Hxi]. apply Z.eqb_eq in Hxi.
  exists x. now repeat split.
Qed.

(** X24.  When every influencer drawn for a post is one of the ids 1..20,
    building the posts table succeeds (no platform lookup fails) and
    gives 100 posts numbered 1..100 in which every roster influencer has
    at least one post and every post carries the platform of its
    influencer. *)
Theorem generated_posts_cover (start_date : Z)
  (idraw : nat -> InfluencerDraw) (pick : nat -> Z) (day : nat -> Z) :
  (forall j, (j < n_posts - n_inf)%nat -> In (pick j) inf_ids) ->
  exists posts,
    generate_posts_base start_date (generate_influencers idraw) pick day
    = Some posts /\
    List.length posts = n_posts /\
    map bp_post_id posts = map Z.of_nat (seq 1 n_posts) /\
    (forall r, In r (generate_influencers idraw) ->
       exists p, In p posts /\ bp_influencer_id p = id r) /\
    (forall p, In p posts ->
       exists r, In r (generate_influencers idraw) /\
         id r = bp_influencer_id p /\ bp_platform p = platform r).
Proof.
  intros Hpick. unfold generate_posts_base.
  set (influencers := generate_influencers idraw).
  set (post_inf := inf_ids ++ map pick (seq 0 (n_posts - List.length inf_ids))).
  set (dates := map (fun k => (start_date + one_day * day k)%Z)
                  (seq 0 (List.length post_inf))).
  set (f := fun row : nat * (Z * Z) =>
              let '(i, (iid, d)) := row in
              match platform_of influencers iid with
              | Some pl =>
                  Some (mkBasePost (Z.of_nat i) iid pl d
                          ("https://post/" ++ decimal (Z.of_nat i))%string
                          "Sample caption")
              | None => None
              end).
  assert (Hlen : List.length post_inf = n_posts).
  { unfold post_inf. rewrite length_app, length_map, length_seq.
    reflexivity. }
  assert (Hdates : List.length dates = n_posts).
  { unfold dates. now rewrite length_map, length_seq. }
  assert (Hids : map id influencers = inf_ids)
    by apply generate_influencers_ids.
  assert (Hall : forall iid, In iid post_inf -> In iid (map id influencers)).
  { intros iid Hi. rewrite Hids. unfold post_inf in Hi.
    apply in_app_or in Hi. destruct Hi as [Hi|Hi]; trivial.
    apply in_map_iff in Hi. destruct Hi as (j & <- & Hj).
    apply in_seq in Hj. apply Hpick.
    replace (List.length inf_ids) with n_inf in Hj by reflexivity. lia. }
  set (rows := combine (seq 1 (List.length post_inf)) (combine post_inf dates)).
  assert (Hrows : forall i iid d, In (i, (iid, d)) rows -> In iid post_inf).
  { intros i iid d Hin. unfold rows in Hin.
    apply in_combine_r in Hin. now apply in_combine_l in Hin. }
  destruct (traverse_Some f rows) as (posts & Hposts & HF).
  { intros [i [iid d]] Hin.
    destruct (platform_of_roster influencers iid) as (x & _ & _ & Hpl).
    - apply Hall. now apply (Hrows i iid d).
    - unfold f. rewrite Hpl. eexists. reflexivity. }
  exists posts. split; [exact Hposts|].
  assert (Hrl : List.length rows = n_posts).
  { unfold rows. rewrite !length_combine, length_seq, Hlen, Hdates.
    now rewrite !Nat.min_id. }
  split; [|split; [|split]].
  - rewrite <- (Forall2_length HF). exact Hrl.
  - assert (Hmap : map bp_post_id posts
                   = map (fun row : nat * (Z * Z) => Z.of_nat (fst row)) rows).
    { apply (Forall2_map_eq _ _ (fun x y => f x = Some y)); [|exact HF].
      intros [i [iid d]] p. unfold f.
      destruct (platform_of influencers iid); [|discriminate].
      now intros [= <-]. }
    rewrite Hmap. unfold rows.
    rewrite <- (map_map fst Z.of_nat), map_fst_combine.
    + now rewrite Hlen.
    + rewrite length_combine, length_seq, Hlen, Hdates. now rewrite Nat.min_id.
  - intros r Hr.
    assert (Hin : In (id r) post_inf).
    { unfold post_inf. apply in_or_app. left. rewrite <- Hids.
      now apply in_map. }
    destruct (combine_In_left post_inf dates (id r)) as (d & Hd);
      [rewrite Hlen, Hdates; lia | exact Hin |].
    destruct (combine_In_right (seq 1 (List.length post_inf))
                (combine post_inf dates) (id r, d)) as (i & Hi);
      [rewrite length_combine, length_seq, Hlen, Hdates, Nat.min_id; lia
      | exact Hd |].
    destruct (Forall2_In_l _ _ _ _ HF Hi) as (p & Hp & Hfp).
    exists p. split; trivial. unfold f in Hfp.
    destruct (platform_of influencers (id r)); [|discriminate].
    now injection Hfp as <-.
  - intros p Hp.
    destruct (Forall2_In_r _ _ _ _ HF Hp) as ([i [iid d]] & Hrow & Hfp).
    unfold f in Hfp.
    destruct (platform_of influencers iid) as [pl|] eqn:Epl; [|discriminate].
    injection Hfp as <-. cbn [bp_influencer_id bp_platform].
    destruct (platform_of_Some _ _ _ Epl) as (x & Hx & Hxi & Hxp).
    exists x. now repeat split.
Qed.

Lemma generated_posts_cover_witness :
  exists posts,
    generate_posts_base 0 (generate_influencers sample_influencer_draw)
      (fun j => (1 + Z.of_nat (Nat.modulo j 20))%Z)
      (fun k => Z.of_nat (Nat.modulo k 90))
    = Some posts /\
    List.length posts = n_posts /\
    map bp_post_id posts = map Z.of_nat (seq 1 n_posts) /\
    (forall r, In r (generate_influencers sample_influencer_draw) ->
       exists p, In p posts /\ bp_influencer_id p = id r) /\
    (forall p, In p posts ->
       exists r, In r (generate_influencers sample_influencer_draw) /\
         id r = bp_influencer_id p /\ bp_platform p = platform r).
Proof.
  apply (generated_posts_cover 0 sample_influencer_draw).
  intros j Hj. unfold inf_ids. apply in_map_iff.
  exists (S (Nat.modulo j 20)). split; [lia|].
  apply in_seq. pose proof (Nat.mod_upper_bound j 20).
  unfold n_inf. lia.
Defined.

(** * More on the dashboard filters *)

Lemma tracked_matched_eta (m : FilteredTracking) :
  m = mkFilteredTracking (tracked m) (matched m).
Proof. now destruct m. Qed.

(** X25.  Narrowing the date window or unselecting platforms or
    categories never adds a row: every row of the filtered tracking table
    under the narrower settings is a row of the table under the wider
    ones. *)
Theorem filter_tracking_monotone (tracking : list TrackingRow)
  (influencers : list Influencer) (s1 e1 s2 e2 : Z)
  (pf1 cf1 pf2 cf2 : list string) (m : FilteredTracking) :
  (s2 <= s1)%Z -> (e1 <= e2)%Z ->
  incl pf1 pf2 -> incl cf1 cf2 ->
  In m (filter_tracking tracking influencers s1 e1 pf1 cf1) ->
  In m (filter_tracking tracking influencers s2 e2 pf2 cf2).
Proof.
  intros Hs He Hp Hc Hm. apply filter_tracking_In in Hm.
  destruct Hm as (Ht & Hd & x & Hx & Hmx & Hi & Hpl & Hca).
  apply filter_tracking_In. split; [exact Ht|]. split.
  - unfold within in *. apply andb_true_iff in Hd.
    destruct Hd as [H1 H2]. apply Z.leb_le in H1, H2.
    apply andb_true_iff. split; apply Z.leb_le; lia.
  - exists x. repeat split; trivial; [now apply Hp | now apply Hc].
Qed.

Lemma filter_tracking_monotone_witness :
  In sample_filtered_7_protein
    (filter_tracking sample_raw_tracking sample_influencers 0 30
       all_platforms all_categories).
Proof.
  apply (filter_tracking_monotone sample_raw_tracking sample_influencers
           10 20 0 30 ["YouTube"] ["Fitness"] all_platforms all_categories).
  - lia.
  - lia.
  - intros x [<-|[]]. right. now left.
  - intros x [<-|[]]. now left.
  - vm_compute. left. reflexivity.
Defined.

(** X26.  With the four tables loaded with at least one row each (so
    that no merge of the script meets two empty tables) and no platform
    selected (or no category, or a window that ends before it starts),
    the filtered tracking table is empty: the dashboard shows revenue 0
    and orders 0 while the spend is still the sum of all payouts, a ROAS
    of 0, an empty iROAS table with a NaN average (the call returns: the
    payout table has a row) and an empty top-influencers table. *)
Theorem dashboard_empty_selection (tracking : list TrackingRow)
  (posts : list PostRow) (influencers : list Influencer)
  (payouts : list Payout) (start_date end_date : Z)
  (platform_filter category_filter : list string) (top_n : Z)
  (tracking_keys payout_keys : key_dtype) :
  tracking <> [] -> posts <> [] -> influencers <> [] -> payouts <> [] ->
  platform_filter = [] \/ category_filter = [] \/ (end_date < start_date)%Z ->
  filter_tracking tracking influencers start_date end_date platform_filter
    category_filter = [] /\
  (exists q,
     dashboard_roas tracking influencers payouts start_date end_date
       platform_filter category_filter
     = (0, 0%Z, sumQ (map total_payout payouts), Num q) /\
     q == 0) /\
  calculate_iroas_checked tracking_keys payout_keys
    (tracking_events
       (filter_tracking tracking influencers start_date end_date
          platform_filter category_filter))
    payouts
  = Some ([], NaN) /\
  dashboard_iroas tracking influencers payouts start_date end_date
    platform_filter category_filter = ([], NaN) /\
  dashboard_top_inf tracking posts influencers payouts start_date end_date
    platform_filter category_filter top_n = [].
Proof.
  intros _ _ _ Hpay Hsel.
  assert (E : filter_tracking tracking influencers start_date end_date
                platform_filter category_filter = []).
  { destruct (filter_tracking tracking influencers start_date end_date
                platform_filter category_filter) as [|m l] eqn:El; trivial.
    exfalso.
    assert (Hm : In m (filter_tracking tracking influencers start_date
                         end_date platform_filter category_filter))
      by (rewrite El; now left).
    apply filter_tracking_In in Hm.
    destruct Hm as (_ & Hd & x & _ & _ & _ & Hp & Hc).
    destruct Hsel as [->|[->|Hlt]]; try contradiction.
    unfold within in Hd. apply andb_true_iff in Hd.
    destruct Hd as [H1 H2]. apply Z.leb_le in H1, H2. lia. }
  split; [exact E|].
  unfold dashboard_roas, dashboard_iroas, dashboard_top_inf.
  rewrite E. cbn [tracking_events map]. split; [|split; [|split]].
  - unfold calculate_roas. cbn [map].
    change (sumQ []) with 0. change (sumZ []) with 0%Z.
    destruct (is_zero (sumQ (map total_payout payouts))) eqn:Ez; cbn [negb].
    + exists 0. split; reflexivity.
    + exists (0 / sumQ (map total_payout payouts)). split.
      * unfold fdiv. now rewrite Ez.
      * unfold Qdiv. apply Qmult_0_l.
  - rewrite calculate_iroas_checked_returns by (right; now left).
    reflexivity.
  - reflexivity.
  - unfold get_top_influencers.
    change (top_inf_table [] (posts_of
              (filter_posts posts influencers start_date end_date
                 platform_filter category_filter)) payouts influencers)
      with (@nil TopInf).
    unfold head. cbn [sort_values_revenue_desc sort_by fold_right].
    destruct (0 <=? top_n)%Z; apply firstn_nil.
Qed.

Lemma dashboard_empty_selection_witness :
  calculate_iroas_checked float64_keys int64_keys
    (tracking_events
       (filter_tracking sample_raw_tracking sample_influencers 0 30
          [] all_categories))
    sample_payouts
  = Some ([], NaN) /\
  dashboard_iroas sample_raw_tracking sample_influencers sample_payouts 0 30
    [] all_categories = ([], NaN) /\
  dashboard_top_inf sample_raw_tracking sample_raw_posts sample_influencers
    sample_payouts 0 30 [] all_categories 5 = [].
Proof.
  destruct (dashboard_empty_selection sample_raw_tracking sample_raw_posts
              sample_influencers sample_payouts 0 30 [] all_categories 5
              float64_keys int64_keys)
    as (_ & _ & H0 & H1 & H2); try discriminate.
  - now left.
  - now split.
Defined.

(** * Order of the input rows *)

(** ** Sums and counts of a reordered column *)

Lemma Qplus_comm_eq (x y : Q) : x + y = y + x.
Proof.
  unfold Qplus. f_equal; [ring | apply Pos.mul_comm].
Qed.

Lemma Qplus_assoc_eq (x y z : Q) : x + y + z = x + (y + z).
Proof.
  unfold Qplus. cbn [Qnum Qden]. f_equal.
  - rewrite !Pos2Z.inj_mul. ring.
  - symmetry. apply Pos.mul_assoc.
Qed.

Lemma fold_left_Qplus_perm (l l' : list Q) :
  Permutation l l' -> forall a, fold_left Qplus l a = fold_left Qplus l' a.
Proof.
  induction 1 as [|x l l' _ IH|x y l|l l' l'' _ IH1 _ IH2]; intros a; simpl.
  - reflexivity.
  - apply IH.
  - f_equal. rewrite !Qplus_assoc_eq. f_equal. apply Qplus_comm_eq.
  - now rewrite IH1.
Qed.

Lemma sumQ_perm (l l' : list Q) : Permutation l l' -> sumQ l = sumQ l'.
Proof. intros H. now apply fold_left_Qplus_perm. Qed.

Lemma sumZ_perm (l l' : list Z) : Permutation l l' -> sumZ l = sumZ l'.
Proof.
  unfold sumZ. intros H. generalize 0%Z.
  induction H as [|x l l' _ IH|x y l|l l' l'' _ IH1 _ IH2]; intros a; simpl.
  - reflexivity.
  - apply IH.
  - f_equal. lia.
  - now rewrite IH1.
Qed.

(** X27.  [calculate_roas] does not depend on the order of the rows of
    either table: reordering them gives the same revenue, orders, spend
    and ROAS. *)
Theorem calculate_roas_order_independent (t1 t2 : list TrackingEvent)
  (p1 p2 : list Payout) :
  Permutation t1 t2 -> Permutation p1 p2 ->
  calculate_roas t1 p1 = calculate_roas t2 p2.
Proof.
  intros Ht Hp. unfold calculate_roas.
  rewrite (sumQ_perm (map revenue t1) (map revenue t2))
    by now apply Permutation_map.
  rewrite (sumZ_perm (map orders t1) (map orders t2))
    by now apply Permutation_map.
  rewrite (sumQ_perm (map total_payout p1) (map total_payout p2))
    by now apply Permutation_map.
  reflexivity.
Qed.

Lemma calculate_roas_order_independent_witness :
  calculate_roas sample_tracking sample_payouts
  = calculate_roas (rev sample_tracking) (rev sample_payouts).
Proof.
  apply (calculate_roas_order_independent sample_tracking
           (rev sample_tracking) sample_payouts (rev sample_payouts));
    apply Permutation_rev.
Defined.

(** ** Group keys of a reordered column *)

Lemma Permutation_filter_pres {A : Type} (f : A -> bool) (l l' : list A) :
  Permutation l l' -> Permutation (filter f l) (filter f l').
Proof.
  induction 1 as [|x l l' _ IH|x y l|l l' l'' _ IH1 _ IH2]; simpl.
  - constructor.
  - destruct (f x); [now constructor | exact IH].
  - destruct (f x), (f y); try reflexivity. apply perm_swap.
  - now transitivity (filter f l').
Qed.

Lemma nodup_perm {A : Type} (dec : forall a b : A, {a = b} + {a <> b})
  (l l' : list A) :
  Permutation l l' -> Permutation (nodup dec l) (nodup dec l').
Proof.
  intros H. apply NoDup_Permutation; try apply NoDup_nodup.
  intros x. rewrite !nodup_In. split; apply Permutation_in;
    [exact H | now symmetry].
Qed.

Lemma nunique_perm (l l' : list Z) :
  Permutation l l' -> nunique l = nunique l'.
Proof.
  intros H. unfold nunique. now apply Permutation_length, nodup_perm.
Qed.

Section SortedUnique.
Context {A : Type} (leb : A -> A -> bool).
Hypothesis leb_antisym :
  forall a b, leb a b = true -> leb b a = true -> a = b.

(** Two ordered lists with the same elements are the same list. *)
Lemma sorted_perm_eq (l1 l2 : list A) :
  StronglySorted (fun u v => leb u v = true) l1 ->
  StronglySorted (fun u v => leb u v = true) l2 ->
  Permutation l1 l2 -> l1 = l2.
Proof.
  intros H1. revert l2.
  induction H1 as [|a t1 Ht1 IH Ha]; intros l2 H2 Hp.
  - now apply Permutation_nil in Hp.
  - destruct H2 as [|b t2 Ht2 Hb].
    + symmetry in Hp. now apply Permutation_nil_cons in Hp.
    + assert (Hab : a = b).
      { assert (Ha2 : In a (b :: t2))
          by (apply (Permutation_in _ Hp); now left).
        assert (Hb1 : In b (a :: t1))
          by (apply (Permutation_in _ (Permutation_sym Hp)); now left).
        destruct Ha2 as [E|Ha2]; [now symmetry|].
        destruct Hb1 as [E|Hb1]; [exact E|].
        rewrite Forall_forall in Ha, Hb.
        apply leb_antisym; [now apply Ha | now apply Hb]. }
      subst b. f_equal. apply IH; trivial.
      now apply Permutation_cons_inv with a.
Qed.

Hypothesis leb_total : forall a b, leb a b = true \/ leb b a = true.
Hypothesis leb_trans :
  forall a b c, leb a b = true -> leb b c = true -> leb a c = true.

Lemma group_keys_perm (dec : forall a b : A, {a = b} + {a <> b})
  (ks ks' : list A) :
  Permutation ks ks' -> group_keys dec leb ks = group_keys dec leb ks'.
Proof.
  intros H. unfold group_keys. apply sorted_perm_eq.
  - now apply sort_by_StronglySorted.
  - now apply sort_by_StronglySorted.
  - rewrite !sort_by_perm. now apply nodup_perm.
Qed.
End SortedUnique.

Lemma ascii_compare_lt_trans (a b c : Ascii.ascii) :
  Ascii.compare a b = Lt -> Ascii.compare b c = Lt -> Ascii.compare a c = Lt.
Proof.
  unfold Ascii.compare. rewrite !N.compare_lt_iff. apply N.lt_trans.
Qed.

Lemma string_compare_lt_trans (s1 s2 s3 : string) :
  String.compare s1 s2 = Lt -> String.compare s2 s3 = Lt ->
  String.compare s1 s3 = Lt.
Proof.
  revert s2 s3. induction s1 as [|a s1 IH]; intros [|b s2] [|c s3]; simpl;
    try discriminate; trivial.
  destruct (Ascii.compare a b) eqn:Eab; try discriminate;
    destruct (Ascii.compare b c) eqn:Ebc; try discriminate; intros H1 H2.
  - apply Ascii.compare_eq_iff in Eab, Ebc. subst.
    replace (Ascii.compare c c) with Eq.
    + now apply (IH s2).
    + symmetry. unfold Ascii.compare. apply N.compare_refl.
  - apply Ascii.compare_eq_iff in Eab. subst. now rewrite Ebc.
  - apply Ascii.compare_eq_iff in Ebc. subst. now rewrite Eab.
  - now rewrite (ascii_compare_lt_trans a b c).
Qed.

Lemma string_leb_trans (s1 s2 s3 : string) :
  String.leb s1 s2 = true -> String.leb s2 s3 = true ->
  String.leb s1 s3 = true.
Proof.
  unfold String.leb.
  destruct (String.compare s1 s2) eqn:E12; try discriminate;
    destruct (String.compare s2 s3) eqn:E23; try discriminate; intros _ _.
  - apply String.compare_eq_iff in E12. subst. now rewrite E23.
  - apply String.compare_eq_iff in E12. subst. now rewrite E23.
  - apply String.compare_eq_iff in E23. subst. now rewrite E12.
  - now rewrite (string_compare_lt_trans s1 s2 s3).
Qed.

Lemma key2_leb_total (a b : key2) :
  key2_leb a b = true \/ key2_leb b a = true.
Proof.
  destruct a as [i p], b as [j q]. unfold key2_leb. cbn [fst snd].
  destruct (Z.lt_trichotomy i j) as [H|[H|H]].
  - left. apply orb_true_iff. left. now apply Z.ltb_lt.
  - subst. rewrite Z.eqb_refl, Z.ltb_irrefl. cbn [orb andb].
    apply String.leb_total.
  - right. apply orb_true_iff. left. now apply Z.ltb_lt.
Qed.

Lemma key2_leb_cases (a b : key2) :
  key2_leb a b = true <->
  (fst a < fst b)%Z \/ (fst a = fst b /\ String.leb (snd a) (snd b) = true).
Proof.
  unfold key2_leb.
  rewrite orb_true_iff, andb_true_iff, Z.ltb_lt, Z.eqb_eq. tauto.
Qed.

Lemma key2_leb_trans (a b c : key2) :
  key2_leb a b = true -> key2_leb b c = true -> key2_leb a c = true.
Proof.
  rewrite !key2_leb_cases.
  intros [H1|[H1 L1]] [H2|[H2 L2]].
  - left. lia.
  - left. lia.
  - left. lia.
  - right. split; [lia|]. now apply string_leb_trans with (snd b).
Qed.

Lemma key2_leb_antisym (a b : key2) :
  key2_leb a b = true -> key2_leb b a = true -> a = b.
Proof.
  rewrite !key2_leb_cases.
  intros [H1|[H1 L1]] [H2|[H2 L2]]; try lia.
  destruct a as [i p], b as [j q]. cbn [fst snd] in *. subst.
  f_equal. now apply String.leb_antisym.
Qed.

(** ** The iROAS estimator on a reordered table *)

Lemma baseline_perm (t1 t2 : list TrackingEvent) :
  Permutation t1 t2 -> baseline t1 = baseline t2.
Proof.
  intros H. unfold baseline.
  assert (Ho : Permutation (filter (has_source "organic") t1)
                 (filter (has_source "organic") t2))
    by now apply Permutation_filter_pres.
  rewrite (group_keys_perm String.leb String.leb_antisym String.leb_total
             string_leb_trans string_dec
             (map product (filter (has_source "organic") t1))
             (map product (filter (has_source "organic") t2)))
    by now apply Permutation_map.
  apply map_ext. intros p.
  assert (Hg : Permutation
                 (filter (fun r => String.eqb (product r) p)
                    (filter (has_source "organic") t1))
                 (filter (fun r => String.eqb (product r) p)
                    (filter (has_source "organic") t2)))
    by now apply Permutation_filter_pres.
  rewrite (nunique_perm _ _ (Permutation_map user_id Hg)).
  rewrite (sumQ_perm _ _ (Permutation_map revenue Hg)).
  reflexivity.
Qed.

Lemma treatment_perm (t1 t2 : list TrackingEvent) :
  Permutation t1 t2 -> treatment t1 = treatment t2.
Proof.
  intros H. unfold treatment.
  assert (Hi : Permutation (filter (has_source "influencer") t1)
                 (filter (has_source "influencer") t2))
    by now apply Permutation_filter_pres.
  rewrite (group_keys_perm key2_leb key2_leb_antisym key2_leb_total
             key2_leb_trans key2_dec
             (flat_map (fun r => opt_list (treatment_key r))
                (filter (has_source "influencer") t1))
             (flat_map (fun r => opt_list (treatment_key r))
                (filter (has_source "influencer") t2)))
    by now apply Permutation_flat_map.
  apply map_ext. intros k.
  assert (Hg : Permutation
                 (filter (in_group k) (filter (has_source "influencer") t1))
                 (filter (in_group k) (filter (has_source "influencer") t2)))
    by now apply Permutation_filter_pres.
  rewrite (nunique_perm _ _ (Permutation_map user_id Hg)).
  rewrite (sumQ_perm _ _ (Permutation_map revenue Hg)).
  reflexivity.
Qed.

(** X28.  [calculate_iroas] does not depend on the order of the tracking
    rows: a reordered table gives the same iROAS table, row for row, and
    the same overall iROAS. *)
Theorem calculate_iroas_order_independent (t1 t2 : list TrackingEvent)
  (payouts : list Payout) :
  Permutation t1 t2 ->
  calculate_iroas t1 payouts = calculate_iroas t2 payouts.
Proof.
  intros H. unfold calculate_iroas, inf_perf_table.
  now rewrite (baseline_perm t1 t2 H), (treatment_perm t1 t2 H).
Qed.

Lemma calculate_iroas_order_independent_witness :
  calculate_iroas sample_tracking sample_payouts
  = calculate_iroas (rev sample_tracking) sample_payouts.
Proof.
  apply (calculate_iroas_order_independent sample_tracking
           (rev sample_tracking) sample_payouts).
  apply Permutation_rev.
Defined.

(** X29.  With one payout row per influencer the rows of the iROAS table
    come in ascending order of (influencer_id, product): by influencer
    id, then by product name. *)
Theorem iroas_table_key_order (tracking_f : list TrackingEvent)
  (payouts : list Payout) :
  NoDup (map pay_influencer_id payouts) ->
  StronglySorted (fun a b => key2_leb a b = true)
    (map (fun r => (ip_influencer_id r, ip_product r))
       (fst (calculate_iroas tracking_f payouts))).
Proof.
  intros Hpay. cbn [calculate_iroas fst].
  assert (Hk : map (fun r => (ip_influencer_id r, ip_product r))
                 (inf_perf_table tracking_f payouts)
               = group_keys key2_dec key2_leb
                   (flat_map (fun r => opt_list (treatment_key r))
                      (filter (has_source "influencer") tracking_f))).
  { rewrite <- treatment_keys,
            <- (inf_perf_table_groups tracking_f payouts Hpay), map_map.
    reflexivity. }
  rewrite Hk. unfold group_keys. apply sort_by_StronglySorted.
  - apply key2_leb_total.
  - apply key2_leb_trans.
Qed.

Lemma iroas_table_key_order_witness :
  StronglySorted (fun a b => key2_leb a b = true)
    (map (fun r => (ip_influencer_id r, ip_product r))
       (fst (calculate_iroas sample_tracking sample_payouts))).
Proof.
  apply (iroas_table_key_order sample_tracking sample_payouts).
  repeat constructor. intros [].
Defined.
